(** * Role-based access control of the admin console

    A shallow embedding of the RBAC core of the repository:

    - the [roles] / [user_roles] schema, the SQL helper functions
      ([get_user_roles], [has_role], [is_admin], [can_manage_roles]) and the
      row-level security policies of the migration;
    - the [useUserRoles] React hook ([hasRole], [hasAnyRole], [isAdmin],
      [isSuperAdmin], [fetchUserRoles], [assignRole], [removeRole]);
    - the [handleAssignRole] / [handleRemoveRole] handlers of the
      [RoleManagement] component.

    Tables are lists of rows (order and duplicates are visible, so the primary
    key is a checked constraint, not a property of the representation).
    Requests of the client go through a small state monad over the world
    (database, clock, pending transport faults). *)

From Stdlib Require Import List String Bool NArith Lia.
From Stdlib Require Import Ascii.
Import ListNotations.
Local Open Scope string_scope.
Local Open Scope list_scope.

Set Implicit Arguments.

(* ================================================================= *)
(** ** Schema *)

(** [uuid] columns and the [userId: string] of the client.  Only well-formed
    identifiers are considered. *)
Definition uuid := string.
Definition uuid_eqb : uuid -> uuid -> bool := String.eqb.

Definition timestamptz := N.

(** [CREATE TABLE roles (id, name, description, created_at, updated_at)]. *)
Record role_row := mk_role {
  r_id : uuid;
  r_name : string;
  r_description : option string;
  r_created_at : timestamptz;
  r_updated_at : timestamptz
}.

(** [CREATE TABLE user_roles (user_id, role_id, assigned_by, assigned_at)]. *)
Record user_role_row := mk_user_role {
  ur_user_id : uuid;
  ur_role_id : uuid;
  ur_assigned_by : option uuid;
  ur_assigned_at : timestamptz
}.

(** The deprecated [admin_users] table; only the two columns read by
    [is_admin] ([email], [role]) are known from the sources. *)
Record admin_user_row := mk_admin_user {
  au_email : string;
  au_role : string
}.

(** [auth.users], owned by the authentication provider: the target of the
    foreign keys of [user_roles] and the origin of [auth.uid()] and
    [auth.email()]. *)
Record auth_user := mk_auth_user {
  u_id : uuid;
  u_email : option string
}.

Record Db := mk_db {
  roles : list role_row;
  user_roles : list user_role_row;
  admin_users : list admin_user_row;
  auth_users : list auth_user
}.

(** The caller of a request: [User | null] on the client, the JWT on the
    server. *)
Definition session := option auth_user.

Definition auth_uid (s : session) : option uuid := option_map u_id s.

Definition auth_email (s : session) : option string :=
  match s with
  | Some u => u_email u
  | None => None
  end.

(** SQL comparison of a column with a possibly NULL value, in a WHERE clause:
    NULL is not true. *)
Definition sql_eq (x : string) (y : option string) : bool :=
  match y with
  | Some v => String.eqb x v
  | None => false
  end.

(** [x IN (v1, ..., vn)]. *)
Definition sql_in (x : string) (vs : list string) : bool :=
  existsb (String.eqb x) vs.

(* ================================================================= *)
(** ** SQL helper functions *)

(** [FROM user_roles ur JOIN roles r ON ur.role_id = r.id]. *)
Definition ur_join_r (db : Db) : list (user_role_row * role_row) :=
  flat_map
    (fun ur => map (pair ur)
                 (filter (fun r => uuid_eqb (ur_role_id ur) (r_id r)) (roles db)))
    (user_roles db).

(** [get_user_roles()]:
    [SELECT r.name FROM ... WHERE ur.user_id = auth.uid()]. *)
Definition get_user_roles (db : Db) (s : session) : list string :=
  map (fun p => r_name (snd p))
    (filter (fun p => sql_eq (ur_user_id (fst p)) (auth_uid s)) (ur_join_r db)).

(** [has_role(role_name)]:
    [EXISTS (... WHERE ur.user_id = auth.uid() AND r.name = role_name)]. *)
Definition has_role (db : Db) (s : session) (role_name : string) : bool :=
  existsb
    (fun p => sql_eq (ur_user_id (fst p)) (auth_uid s)
              && String.eqb (r_name (snd p)) role_name)
    (ur_join_r db).

(** The fallback of [is_admin()]:
    [EXISTS (SELECT 1 FROM admin_users
             WHERE email = auth.email() AND role IN ('admin','super_admin'))]. *)
Definition legacy_admin (db : Db) (s : session) : bool :=
  existsb
    (fun a => sql_eq (au_email a) (auth_email s)
              && sql_in (au_role a) ["admin"; "super_admin"])
    (admin_users db).

(** [is_admin()]: the new role system first, then the old table. *)
Definition is_admin (db : Db) (s : session) : bool :=
  if existsb
       (fun p => sql_eq (ur_user_id (fst p)) (auth_uid s)
                 && sql_in (r_name (snd p)) ["admin"; "super_admin"])
       (ur_join_r db)
  then true
  else legacy_admin db s.

(** [can_manage_roles()]. *)
Definition can_manage_roles (db : Db) (s : session) : bool :=
  has_role db s "super_admin".

(* ================================================================= *)
(** ** Row-level security *)

(** The database roles the policies are granted [TO].  A request carrying a
    user runs as [authenticated], a request without one as [anon]. *)
Inductive pg_role := authenticated | anon.

Definition pg_role_eqb (a b : pg_role) : bool :=
  match a, b with
  | authenticated, authenticated | anon, anon => true
  | _, _ => false
  end.

Definition pg_role_of (s : session) : pg_role :=
  match s with
  | Some _ => authenticated
  | None => anon
  end.

Inductive command := SELECT | INSERT | UPDATE | DELETE.

Definition command_eqb (a b : command) : bool :=
  match a, b with
  | SELECT, SELECT | INSERT, INSERT | UPDATE, UPDATE | DELETE, DELETE => true
  | _, _ => false
  end.

(** [FOR ALL] or [FOR <command>]. *)
Inductive policy_for := FOR_ALL | FOR (c : command).

(** [CREATE POLICY name ON table FOR .. TO .. USING (..) WITH CHECK (..)];
    the expressions may call the helper functions, hence read the database and
    the session.  A policy without [WITH CHECK] checks new rows with its
    [USING] expression. *)
Record policy (R : Type) := mk_policy {
  pol_name : string;
  pol_for : policy_for;
  pol_to : list pg_role;
  pol_using : Db -> session -> R -> bool;
  pol_with_check : option (Db -> session -> R -> bool)
}.

Section Policies.
Variable R : Type.

Definition applies (p : policy R) (c : command) (g : pg_role) : bool :=
  match pol_for p with
  | FOR_ALL => true
  | FOR c' => command_eqb c c'
  end
  && existsb (pg_role_eqb g) (pol_to p).

Definition check_expr (p : policy R) : Db -> session -> R -> bool :=
  match pol_with_check p with
  | Some chk => chk
  | None => pol_using p
  end.

(** Row-level security is enabled on the table and every policy is
    permissive: an existing row is within reach of command [c] when some
    applicable policy's USING holds (no applicable policy: denied). *)
Definition using_ok (pols : list (policy R)) (c : command)
           (db : Db) (s : session) (row : R) : bool :=
  existsb (fun p => applies p c (pg_role_of s) && pol_using p db s row) pols.

(** A new row passes when some applicable policy's WITH CHECK holds. *)
Definition check_ok (pols : list (policy R)) (c : command)
           (db : Db) (s : session) (row : R) : bool :=
  existsb (fun p => applies p c (pg_role_of s) && check_expr p db s row) pols.

(** The articles table is created outside of these sources and its policy
    does not read the row, so it is stated for any row type. *)
Definition content_creators_can_manage_articles : policy R :=
  mk_policy "Content creators can manage articles"
    FOR_ALL [authenticated]
    (fun db s _ => has_role db s "mantra_curator" || is_admin db s)
    (Some (fun db s _ => has_role db s "mantra_curator" || is_admin db s)).

(** Modelled from the spec: the read policy of the articles table, which is
    created by a migration outside of these sources.  The spec's table gives
    "Content (articles) | true (public)" for reads. *)
Definition public_can_read_articles : policy R :=
  mk_policy "Public can read articles"
    (FOR SELECT) [authenticated; anon]
    (fun _ _ _ => true)
    None.

(** The policies of [articles] once the migration has dropped
    "Authenticated users can manage articles". *)
Definition articles_policies : list (policy R) :=
  [public_can_read_articles; content_creators_can_manage_articles].
End Policies.

Definition roles_policies : list (policy role_row) :=
  [ mk_policy "Anyone can read roles"
      (FOR SELECT) [authenticated; anon]
      (fun _ _ _ => true)
      None;
    mk_policy "Super admins can manage roles"
      FOR_ALL [authenticated]
      (fun db s _ => can_manage_roles db s)
      (Some (fun db s _ => can_manage_roles db s)) ].

Definition user_roles_policies : list (policy user_role_row) :=
  [ mk_policy "Users can read their own roles"
      (FOR SELECT) [authenticated]
      (fun _ s ur => sql_eq (ur_user_id ur) (auth_uid s))
      None;
    mk_policy "Admins can read all user roles"
      (FOR SELECT) [authenticated]
      (fun db s _ => is_admin db s)
      None;
    mk_policy "Super admins can manage user roles"
      FOR_ALL [authenticated]
      (fun db s _ => can_manage_roles db s)
      (Some (fun db s _ => can_manage_roles db s)) ].

(** What a policy-enforced table lets a caller do with a row, per operation
    kind of the spec: a read is a SELECT, a write is an INSERT, an UPDATE or a
    DELETE. *)
Definition write_commands : list command := [INSERT; UPDATE; DELETE].

(* ================================================================= *)
(** ** The world seen by the client *)

(** Errors a request can come back with. *)
Inductive pg_error :=
| NoSingleRow                    (* PGRST116: [.single()] without exactly one row *)
| UniqueViolation                (* 23505 *)
| ForeignKeyViolation            (* 23503 *)
| RlsViolation                   (* 42501: new row violates row-level security *)
| StoreUnavailable (msg : string). (* the request did not reach the store *)

Definition message (e : pg_error) : string :=
  match e with
  | NoSingleRow => "JSON object requested, multiple (or no) rows returned"
  | UniqueViolation => "duplicate key value violates unique constraint"
  | ForeignKeyViolation => "insert or update on table violates foreign key constraint"
  | RlsViolation => "new row violates row-level security policy"
  | StoreUnavailable msg => msg
  end.

(** The [{ data, error }] pair of a request: exactly one side is set. *)
Inductive response (A : Type) :=
| Ok (data : A)
| Err (error : pg_error).
Arguments Ok {A} data.
Arguments Err {A} error.

(** The store, the clock behind [now()] and the transport: the n-th pending
    entry of [faults] tells whether the n-th request from now comes back with
    an error without touching the store ([Some err]) or goes through ([None];
    also when no entry is left).  A response lost after the store has run the
    query is not among these faults. *)
Record World := mk_world {
  store : Db;
  clock : timestamptz;
  faults : list (option pg_error)
}.

Definition M (A : Type) : Type := World -> A * World.

Definition ret {A} (a : A) : M A := fun w => (a, w).

Definition bind {A B} (m : M A) (k : A -> M B) : M B :=
  fun w => let (a, w') := m w in k a w'.

Notation "x <- m ;; k" := (bind m (fun x => k))
  (at level 61, m at next level, right associativity).

(** One round trip to the store. *)
Definition request {A} (q : Db -> timestamptz -> response A * Db)
  : M (response A) :=
  fun w =>
    match faults w with
    | Some err :: fs =>
        (Err err, mk_world (store w) (clock w) fs)
    | None :: fs =>
        let (r, db') := q (store w) (clock w) in
        (r, mk_world db' (clock w) fs)
    | [] =>
        let (r, db') := q (store w) (clock w) in
        (r, mk_world db' (clock w) [])
    end.

Definition set_user_roles (db : Db) (urs : list user_role_row) : Db :=
  mk_db (roles db) urs (admin_users db) (auth_users db).

(** The row shape of [get_user_roles()] as the hook declares it. *)
Record UserRole := mk_UserRole { role_name : string }.

(** [supabase.rpc('get_user_roles')]. *)
Definition rpc_get_user_roles (s : session) : M (response (option (list UserRole))) :=
  request (fun db _ => (Ok (Some (map mk_UserRole (get_user_roles db s))), db)).

(** [supabase.from('roles').select('id').eq('name', roleName).single()]. *)
Definition select_role_id_single (s : session) (roleName : string)
  : M (response uuid) :=
  request (fun db _ =>
    match filter (fun r => String.eqb (r_name r) roleName)
                 (filter (using_ok roles_policies SELECT db s) (roles db)) with
    | [r] => (Ok (r_id r), db)
    | _ => (Err NoSingleRow, db)
    end).

Definition same_key (user_id role_id : uuid) (ur : user_role_row) : bool :=
  uuid_eqb (ur_user_id ur) user_id && uuid_eqb (ur_role_id ur) role_id.

(** The constraints of [user_roles] on a new row: its primary key and its two
    foreign keys. *)
Definition pk_free (db : Db) (user_id role_id : uuid) : bool :=
  negb (existsb (same_key user_id role_id) (user_roles db)).

Definition fk_ok (db : Db) (user_id role_id : uuid) : bool :=
  existsb (fun u => uuid_eqb (u_id u) user_id) (auth_users db)
  && existsb (fun r => uuid_eqb (r_id r) role_id) (roles db).

(** The table after the INSERT of the row [{ user_id, role_id }]:
    [assigned_by] stays NULL and [assigned_at] defaults to [now()]. *)
Definition inserted (db : Db) (now : timestamptz) (user_id role_id : uuid) : Db :=
  set_user_roles db (user_roles db ++ [mk_user_role user_id role_id None now]).

(** The table after [DELETE ... WHERE user_id = .. AND role_id = ..] run for
    session [s]: the rows that match the filter and are within reach of both
    SELECT (the filter reads columns) and DELETE go; the others stay,
    silently. *)
Definition deleted (db : Db) (s : session) (user_id role_id : uuid) : Db :=
  set_user_roles db
    (filter (fun ur => negb (same_key user_id role_id ur
                             && using_ok user_roles_policies SELECT db s ur
                             && using_ok user_roles_policies DELETE db s ur))
            (user_roles db)).

(** [supabase.from('user_roles').insert([{ user_id, role_id }])]: a plain
    INSERT, checked against the policies, the primary key and the foreign
    keys, in this order. *)
Definition insert_user_role (s : session) (user_id role_id : uuid)
  : M (response unit) :=
  request (fun db now =>
    let row := mk_user_role user_id role_id None now in
    if negb (check_ok user_roles_policies INSERT db s row) then
      (Err RlsViolation, db)
    else if negb (pk_free db user_id role_id) then
      (Err UniqueViolation, db)
    else if negb (fk_ok db user_id role_id) then
      (Err ForeignKeyViolation, db)
    else
      (Ok tt, inserted db now user_id role_id)).

(** [supabase.from('user_roles').delete().eq('user_id', ..).eq('role_id', ..)]:
    no error when no row goes. *)
Definition delete_user_role (s : session) (user_id role_id : uuid)
  : M (response unit) :=
  request (fun db _ => (Ok tt, deleted db s user_id role_id)).

(** [INSERT INTO user_roles (user_id, role_id) VALUES (..)
     ON CONFLICT (user_id, role_id) DO NOTHING], as the migration and
    [assign_default_role()] run it (as the owner: no row-level security). *)
Definition insert_on_conflict_do_nothing (db : Db) (now : timestamptz)
           (user_id role_id : uuid) : option Db :=
  if negb (pk_free db user_id role_id) then Some db
  else if negb (fk_ok db user_id role_id) then None
  else Some (inserted db now user_id role_id).

(* ================================================================= *)
(** ** The [useUserRoles] hook *)

(** The three [useState] cells of the hook. *)
Record HookState := mk_hook {
  st_roles : list string;
  st_loading : bool;
  st_error : option string
}.

(** [useState<string[]>([])], [useState(true)], [useState(null)]. *)
Definition initial_state : HookState := mk_hook [] true None.

(** [Array.prototype.includes] on strings. *)
Definition includes (l : list string) (x : string) : bool :=
  existsb (String.eqb x) l.

Definition hasRole (st : HookState) (roleName : string) : bool :=
  includes (st_roles st) roleName.

(** [roleNames.some(roleName => roles.includes(roleName))]. *)
Definition hasAnyRole (st : HookState) (roleNames : list string) : bool :=
  existsb (fun roleName => includes (st_roles st) roleName) roleNames.

Definition isAdmin (st : HookState) : bool :=
  hasAnyRole st ["admin"; "super_admin"].

Definition isSuperAdmin (st : HookState) : bool :=
  hasRole st "super_admin".

(** [fetchUserRoles]: the [try] sets [loading] and clears [error]; an error of
    the request is thrown into the [catch], which records the message and
    empties the roles; [finally] clears [loading]. *)
Definition fetchUserRoles (user : session) (st : HookState) : M HookState :=
  let st1 := mk_hook (st_roles st) true None in
  resp <- rpc_get_user_roles user ;;
  match resp with
  | Err err => ret (mk_hook [] false (Some (message err)))
  | Ok data =>
      let roleNames :=
        match data with
        | Some rows => map role_name rows
        | None => []
        end in
      ret (mk_hook roleNames false (st_error st1))
  end.

(** The effect run when [user] changes. *)
Definition useEffect_user (user : session) (st : HookState) : M HookState :=
  match user with
  | None => ret (mk_hook [] false (st_error st))
  | Some _ => fetchUserRoles user st
  end.

(** How an [async] function of the hook ends. *)
Inductive outcome :=
| Returned
| Thrown (err : pg_error).

(** [userId === user?.id]. *)
Definition is_current_user (userId : string) (user : session) : bool :=
  match user with
  | Some u => String.eqb userId (u_id u)
  | None => false
  end.

Definition assignRole (user : session) (st : HookState)
           (userId roleName : string) : M (outcome * HookState) :=
  r <- select_role_id_single user roleName ;;
  match r with
  | Err roleError => ret (Thrown roleError, st)
  | Ok roleData_id =>
      i <- insert_user_role user userId roleData_id ;;
      match i with
      | Err error => ret (Thrown error, st)
      | Ok _ =>
          if is_current_user userId user then
            st' <- fetchUserRoles user st ;;
            ret (Returned, st')
          else ret (Returned, st)
      end
  end.

Definition removeRole (user : session) (st : HookState)
           (userId roleName : string) : M (outcome * HookState) :=
  r <- select_role_id_single user roleName ;;
  match r with
  | Err roleError => ret (Thrown roleError, st)
  | Ok roleData_id =>
      d <- delete_user_role user userId roleData_id ;;
      match d with
      | Err error => ret (Thrown error, st)
      | Ok _ =>
          if is_current_user userId user then
            st' <- fetchUserRoles user st ;;
            ret (Returned, st')
          else ret (Returned, st)
      end
  end.

(* ================================================================= *)
(** ** The [RoleManagement] component *)

Record UserWithRoles := mk_UserWithRoles {
  uw_id : string;
  uw_email : string;
  uw_roles : list string
}.

(** The cells the two handlers read or write: the fetched catalog and the
    listing. *)
Record RmState := mk_rm {
  rm_roles : list role_row;
  rm_users : list UserWithRoles
}.

(** [supabase.from('user_roles').select('user_id, roles(name)')]: the rows
    within reach of SELECT, each with its readable role embedded (or null). *)
Definition select_user_roles_with_names (s : session)
  : M (response (list (uuid * option string))) :=
  request (fun db _ =>
    (Ok (map (fun ur =>
                (ur_user_id ur,
                 option_map r_name
                   (find (fun r => uuid_eqb (r_id r) (ur_role_id ur))
                         (filter (using_ok roles_policies SELECT db s) (roles db)))))
             (filter (using_ok user_roles_policies SELECT db s) (user_roles db))),
     db)).

(** The insertion-ordered [Map<string, string[]>] of [fetchUsersWithRoles]. *)
Definition map_has (m : list (string * list string)) (k : string) : bool :=
  existsb (fun kv => String.eqb (fst kv) k) m.

Definition map_push (m : list (string * list string)) (k v : string)
  : list (string * list string) :=
  map (fun kv => if String.eqb (fst kv) k then (fst kv, snd kv ++ [v]) else kv) m.

Definition group_item (m : list (string * list string))
           (item : uuid * option string) : list (string * list string) :=
  let userId := fst item in
  let m1 := if map_has m userId then m else m ++ [(userId, [])] in
  match snd item with
  | Some roleName => if String.eqb roleName "" then m1 else map_push m1 userId roleName
  | None => m1
  end.

Definition fetchUsersWithRoles (s : session) : M (response (list UserWithRoles)) :=
  resp <- select_user_roles_with_names s ;;
  match resp with
  | Err error => ret (Err error)
  | Ok data =>
      let userRoleMap := fold_left group_item data [] in
      ret (Ok (map (fun kv =>
                      mk_UserWithRoles (fst kv)
                        ("user-" ++ substring 0 8 (fst kv) ++ "@example.com")
                        (snd kv))
                   userRoleMap))
  end.

(** The handlers catch everything; what the user sees is an [alert]. *)
Definition handleAssignRole (s : session) (st : RmState)
           (userId roleName : string) : M (RmState * list string) :=
  match find (fun r => String.eqb (r_name r) roleName) (rm_roles st) with
  | None => ret (st, [])
  | Some role =>
      i <- insert_user_role s userId (r_id role) ;;
      match i with
      | Err _ => ret (st, ["Failed to assign role"])
      | Ok _ =>
          f <- fetchUsersWithRoles s ;;
          match f with
          | Err _ => ret (st, ["Failed to assign role"])
          | Ok users =>
              ret (mk_rm (rm_roles st) users, ["Role assigned successfully!"])
          end
      end
  end.

Definition handleRemoveRole (s : session) (st : RmState)
           (userId roleName : string) : M (RmState * list string) :=
  match find (fun r => String.eqb (r_name r) roleName) (rm_roles st) with
  | None => ret (st, [])
  | Some role =>
      d <- delete_user_role s userId (r_id role) ;;
      match d with
      | Err _ => ret (st, ["Failed to remove role"])
      | Ok _ =>
          f <- fetchUsersWithRoles s ;;
          match f with
          | Err _ => ret (st, ["Failed to remove role"])
          | Ok users =>
              ret (mk_rm (rm_roles st) users, ["Role removed successfully!"])
          end
      end
  end.

(* ================================================================= *)
(** ** Derived notions used in the statements *)

(** [rolesFor(identityId)]: [get_user_roles()] run for that identity. *)
Definition rolesFor (db : Db) (identityId : uuid) : list string :=
  get_user_roles db (Some (mk_auth_user identityId None)).

(** The hook once its role list is [rs]. *)
Definition holding (rs : list string) : HookState := mk_hook rs false None.

(** The [INSERT INTO roles (name, description) VALUES ...] of the migration. *)
Definition predefined_roles : list (string * string) :=
  [ ("super_admin", "Complete platform control and configuration");
    ("admin", "Site content management and moderation");
    ("yoga_acharya", "Create and publish yoga classes/courses");
    ("mantra_curator", "Create and edit blog posts/articles");
    ("sangha_guide", "Monitor community discussions and moderate content");
    ("energy_exchange_lead", "Manage product catalog and commerce");
    ("zen_analyst", "Access analytics and generate reports");
    ("yogi_in_training", "Access enrolled courses and participate in community") ].

(** The seven predefined roles other than [super_admin]. *)
Definition other_roles : list string :=
  filter (fun n => negb (String.eqb n "super_admin")) (map fst predefined_roles).

(** The rows [.eq('name', roleName)] selects from the catalog. *)
Definition named (db : Db) (roleName : string) : list role_row :=
  filter (fun r => String.eqb (r_name r) roleName) (roles db).

(** The primary key of [user_roles]. *)
Definition ur_key (ur : user_role_row) : uuid * uuid :=
  (ur_user_id ur, ur_role_id ur).

Definition pk_user_roles (db : Db) : Prop :=
  NoDup (map ur_key (user_roles db)).

(** One mutation of the store by the paths of the sources: the two functions
    of the hook, the two handlers of the component (any caller, any arguments,
    any clock, any transport behaviour) and the conflict-tolerant insert of
    the migration. *)
Inductive step (db : Db) : Db -> Prop :=
| step_assignRole s st I N clk fs :
    step db (store (snd (assignRole s st I N (mk_world db clk fs))))
| step_removeRole s st I N clk fs :
    step db (store (snd (removeRole s st I N (mk_world db clk fs))))
| step_handleAssignRole s st I N clk fs :
    step db (store (snd (handleAssignRole s st I N (mk_world db clk fs))))
| step_handleRemoveRole s st I N clk fs :
    step db (store (snd (handleRemoveRole s st I N (mk_world db clk fs))))
| step_on_conflict I rid now db' :
    insert_on_conflict_do_nothing db now I rid = Some db' ->
    step db db'.

(** The states of the store from [CREATE TABLE user_roles] on. *)
Inductive reachable : Db -> Prop :=
| reach_created rs aus us : reachable (mk_db rs [] aus us)
| reach_step db db' : reachable db -> step db db' -> reachable db'.

(* ================================================================= *)
(** ** A concrete installation *)

Module Sample.

(** The seeded catalog, with identifiers ["r1"] .. ["r8"]. *)
Definition catalog : list role_row :=
  map (fun p => mk_role (fst p) (fst (snd p)) (Some (snd (snd p))) 0%N 0%N)
      (combine ["r1"; "r2"; "r3"; "r4"; "r5"; "r6"; "r7"; "r8"]
               predefined_roles).

Definition root : auth_user := mk_auth_user "u1" (Some "root@x.com").
Definition alice : auth_user := mk_auth_user "u2" (Some "a@x.com").
Definition bob : auth_user := mk_auth_user "u3" (Some "b@x.com").

(** [root] is a super admin, [bob] a mantra curator, [alice] has no
    assignment but an entry in the old admin table. *)
Definition db : Db :=
  mk_db catalog
        [ mk_user_role "u1" "r1" None 0%N;
          mk_user_role "u3" "r4" None 0%N ]
        [ mk_admin_user "a@x.com" "admin" ]
        [ root; alice; bob ].

Definition world : World := mk_world db 5%N [].

(** The same installation right after [CREATE TABLE user_roles]. *)
Definition fresh : Db :=
  mk_db catalog [] [ mk_admin_user "a@x.com" "admin" ] [ root; alice; bob ].

End Sample.

(* ================================================================= *)
(** ** Further notions used in the statements *)

(** The two foreign keys of [user_roles]: every row references a user of
    [auth.users] and a role of [roles]. *)
Definition fk_user_roles (db : Db) : Prop :=
  forall ur, In ur (user_roles db) ->
    In (ur_user_id ur) (map u_id (auth_users db))
    /\ In (ur_role_id ur) (map r_id (roles db)).

(* ================================================================= *)
(** ** The rest of the migration *)

(** [SELECT id INTO var FROM roles WHERE name = ..] in PL/pgSQL: the first
    row found, NULL when there is none. *)
Definition select_role_id_into (db : Db) (name : string) : option uuid :=
  option_map r_id (find (fun r => String.eqb (r_name r) name) (roles db)).

(** [SELECT id INTO var FROM auth.users WHERE email = ..]. *)
Definition select_user_id_into (db : Db) (email : string) : option uuid :=
  option_map u_id (find (fun u => sql_eq email (u_email u)) (auth_users db)).

(** [INSERT INTO user_roles (user_id, role_id) VALUES (uid, var)
     ON CONFLICT (user_id, role_id) DO NOTHING] with a variable that may be
    NULL: a NULL [role_id] violates the primary key's NOT NULL. *)
Definition insert_values_do_nothing (db : Db) (now : timestamptz)
           (user_id : uuid) (role_id : option uuid) : option Db :=
  match role_id with
  | Some rid => insert_on_conflict_do_nothing db now user_id rid
  | None => None
  end.

(** The body of the loop of the [DO] block, for one [admin_record]. *)
Definition migrate_admin_record (now : timestamptz)
           (super_admin_role_id admin_role_id : option uuid)
           (db : Db) (admin_record : admin_user_row) : option Db :=
  match select_user_id_into db (au_email admin_record) with
  | Some user_id_var =>
      if String.eqb (au_role admin_record) "super_admin" then
        insert_values_do_nothing db now user_id_var super_admin_role_id
      else
        insert_values_do_nothing db now user_id_var admin_role_id
  | None => Some db
  end.

(** The [DO] block migrating the old admin table; an error aborts it
    ([None]). *)
Definition migrate_admin_users (db : Db) (now : timestamptz) : option Db :=
  let super_admin_role_id := select_role_id_into db "super_admin" in
  let admin_role_id := select_role_id_into db "admin" in
  fold_left
    (fun acc admin_record =>
       match acc with
       | Some d =>
           migrate_admin_record now super_admin_role_id admin_role_id
                                d admin_record
       | None => None
       end)
    (admin_users db) (Some db).

(** The role the loop gives to a record. *)
Definition migrated_role (admin_record : admin_user_row) : string :=
  if String.eqb (au_role admin_record) "super_admin" then "super_admin"
  else "admin".

(** The trigger function [assign_default_role()], run for the new user
    [NEW.id]. *)
Definition assign_default_role (db : Db) (now : timestamptz) (new_id : uuid)
  : option Db :=
  match select_role_id_into db "yogi_in_training" with
  | Some default_role_id =>
      insert_on_conflict_do_nothing db now new_id default_role_id
  | None => Some db
  end.

Definition set_roles (db : Db) (rs : list role_row) : Db :=
  mk_db rs (user_roles db) (admin_users db) (auth_users db).

(** One row of [INSERT INTO roles (name, description) VALUES ..
    ON CONFLICT (name) DO NOTHING]: a name already there skips the row; the
    identifier drawn by [gen_random_uuid()] must be new (primary key). *)
Definition insert_role_do_nothing (now : timestamptz) (db : Db)
           (row : uuid * (string * string)) : option Db :=
  if existsb (fun r => String.eqb (r_name r) (fst (snd row))) (roles db) then
    Some db
  else if existsb (fun r => uuid_eqb (r_id r) (fst row)) (roles db) then None
  else
    Some (set_roles db
            (roles db ++ [mk_role (fst row) (fst (snd row))
                                  (Some (snd (snd row))) now now])).

Definition insert_roles_do_nothing (now : timestamptz) (db : Db)
           (rows : list (uuid * (string * string))) : option Db :=
  fold_left
    (fun acc row =>
       match acc with
       | Some d => insert_role_do_nothing now d row
       | None => None
       end)
    rows (Some db).

(** The seeding of the catalog; [gen_random_uuid k] is the identifier drawn
    for the k-th row. *)
Definition seed_roles (gen_random_uuid : nat -> uuid) (db : Db)
           (now : timestamptz) : option Db :=
  insert_roles_do_nothing now db
    (combine (map gen_random_uuid (seq 0 (List.length predefined_roles)))
             predefined_roles).

(** The admin policies of [yoga_queries], [contact_messages] and [bookings]:
    first as the earlier migration created them, on the old admin table, then
    as this migration recreates them, on [is_admin()].  They do not read the
    row. *)
Section AdminPolicies.
Variable R : Type.

Definition old_admin_policy (name : string) (c : command) : policy R :=
  mk_policy name (FOR c) [authenticated] (fun db s _ => legacy_admin db s) None.

Definition admin_policy (name : string) (c : command) : policy R :=
  mk_policy name (FOR c) [authenticated] (fun db s _ => is_admin db s) None.

Definition old_yoga_queries_policies : list (policy R) :=
  [ old_admin_policy "Admins and Super Admins can view all records" SELECT;
    old_admin_policy "Admins can update yoga queries" UPDATE ].

Definition old_contact_messages_policies : list (policy R) :=
  [ old_admin_policy "Admins can view all contact messages" SELECT;
    old_admin_policy "Admins can update contact messages" UPDATE ].

Definition old_bookings_policies : list (policy R) :=
  [ old_admin_policy "Admin can View all records" SELECT ].

Definition yoga_queries_policies : list (policy R) :=
  [ admin_policy "Admins can view all yoga queries" SELECT;
    admin_policy "Admins can update yoga queries" UPDATE ].

Definition contact_messages_policies : list (policy R) :=
  [ admin_policy "Admins can view all contact messages" SELECT;
    admin_policy "Admins can update contact messages" UPDATE ].

Definition bookings_policies : list (policy R) :=
  [ admin_policy "Admins can view all bookings" SELECT;
    admin_policy "Admins can update bookings" UPDATE ].
End AdminPolicies.

(* ================================================================= *)
(** ** The rest of the [RoleManagement] component *)

(** [name.replace('_', ' ')] with a string pattern: the first underscore
    only. *)
Fixpoint replace_underscore (name : string) : string :=
  match name with
  | EmptyString => EmptyString
  | String c rest =>
      if Ascii.eqb c "_"%char then String " "%char rest
      else String c (replace_underscore rest)
  end.

Fixpoint count_underscores (name : string) : nat :=
  match name with
  | EmptyString => 0
  | String c rest =>
      (if Ascii.eqb c "_"%char then 1 else 0) + count_underscores rest
  end.

(** The roles the listing shows for a user. *)
Definition listed_roles (users : list UserWithRoles) (userId : string)
  : list string :=
  flat_map (fun u => if String.eqb (uw_id u) userId then uw_roles u else [])
           users.

(** Evaluate the admin policies down to [legacy_admin] and [is_admin]. *)
Ltac admin_policy_eval :=
  unfold using_ok, check_ok, applies, check_expr;
  cbn [existsb old_yoga_queries_policies old_contact_messages_policies
       old_bookings_policies yoga_queries_policies contact_messages_policies
       bookings_policies old_admin_policy admin_policy
       pol_for pol_to pol_using pol_with_check
       pg_role_of pg_role_eqb command_eqb andb orb].

(** The values the insertion-ordered map holds under a key. *)
Definition map_values (m : list (string * list string)) (k : string)
  : list string :=
  flat_map (fun kv => if String.eqb (fst kv) k then snd kv else []) m.

(** The rows of [user_roles] a caller can read. *)
Definition readable (db : Db) (s : session) (ur : user_role_row) : bool :=
  using_ok user_roles_policies SELECT db s ur.

(** The rows [select('user_id, roles(name)')] returns to a caller. *)
Definition listing_rows (db : Db) (s : session)
  : list (uuid * option string) :=
  map (fun ur =>
         (ur_user_id ur,
          option_map r_name
            (find (fun r => uuid_eqb (r_id r) (ur_role_id ur))
                  (filter (using_ok roles_policies SELECT db s) (roles db)))))
      (filter (using_ok user_roles_policies SELECT db s) (user_roles db)).

(** The entry of the listing for one key of the map. *)
Definition listing_entry (kv : string * list string) : UserWithRoles :=
  mk_UserWithRoles (fst kv)
    ("user-" ++ substring 0 8 (fst kv) ++ "@example.com")
    (snd kv).

(** What [fetchUsersWithRoles] puts in [users] when the request goes
    through. *)
Definition listing (db : Db) (s : session) : list UserWithRoles :=
  map listing_entry (fold_left group_item (listing_rows db s) []).

(** [String.prototype.includes]: some suffix of [s] starts with [sub]. *)
Fixpoint str_includes (s sub : string) : bool :=
  if String.prefix sub s then true
  else match s with
       | EmptyString => false
       | String _ rest => str_includes rest sub
       end.

(** [filteredUsers] of the component; [toLowerCase] is the lowercasing of
    the JavaScript runtime. *)
Definition filteredUsers (toLowerCase : string -> string)
           (users : list UserWithRoles) (searchTerm selectedRole : string)
  : list UserWithRoles :=
  filter
    (fun user =>
       let matchesSearch :=
         String.eqb searchTerm ""
         || str_includes (toLowerCase (uw_email user)) (toLowerCase searchTerm) in
       let matchesRole :=
         String.eqb selectedRole "all"
         || includes (uw_roles user) selectedRole in
       matchesSearch && matchesRole)
    users.

(* ================================================================= *)
(** ** The hook, request by request *)

(** [fetchUserRoles] up to its [await]: [setLoading(true)] and
    [setError(null)]; the request has left with the session of the caller. *)
Definition fetch_started (st : HookState) : HookState :=
  mk_hook (st_roles st) true None.

(** [fetchUserRoles] from its [await] on, run on the state the hook is in
    when the response arrives: [setRoles] on success, the [catch] on an
    error, [setLoading(false)] in both cases. *)
Definition fetch_settled (st : HookState)
           (resp : response (option (list UserRole))) : HookState :=
  match resp with
  | Err err => mk_hook [] false (Some (message err))
  | Ok data =>
      mk_hook (match data with
               | Some rows => map role_name rows
               | None => []
               end)
              false (st_error st)
  end.

(** The mounted hook: the [user] it was last rendered with, its cells, and
    the callers of the requests it has started and that have not come back
    (nothing in the hook cancels a started request). *)
Record Mounted := mk_mounted {
  m_user : session;
  m_state : HookState;
  m_in_flight : list session
}.

(** What happens to a mounted hook: [user] changes and the effect runs, or
    the response of the oldest request in flight arrives. *)
Inductive hook_event :=
| UserChanged (user : session)
| ResponseArrived.

Definition hook_step (hw : Mounted * World) (ev : hook_event)
  : Mounted * World :=
  let (h, w) := hw in
  match ev with
  | UserChanged None =>
      (mk_mounted None
                  (mk_hook [] false (st_error (m_state h)))
                  (m_in_flight h), w)
  | UserChanged (Some u) =>
      (mk_mounted (Some u)
                  (fetch_started (m_state h))
                  (m_in_flight h ++ [Some u]), w)
  | ResponseArrived =>
      match m_in_flight h with
      | caller :: rest =>
          let (resp, w') := rpc_get_user_roles caller w in
          (mk_mounted (m_user h) (fetch_settled (m_state h) resp) rest, w')
      | [] => (h, w)
      end
  end.

Definition hook_run (hw : Mounted * World) (evs : list hook_event)
  : Mounted * World :=
  fold_left hook_step evs hw.

(** Evaluate the policy lists down to the calls of the helper functions. *)
Ltac policy_eval :=
  unfold using_ok, check_ok, applies, check_expr;
  cbn [existsb roles_policies user_roles_policies articles_policies
       public_can_read_articles content_creators_can_manage_articles
       pol_for pol_to pol_using pol_with_check
       pg_role_of pg_role_eqb command_eqb andb orb].

(* ================================================================= *)
(** ** Basic facts *)

Lemma sql_eq_true (x : string) (y : option string) :
  sql_eq x y = true <-> y = Some x.
Proof.
  destruct y as [v|]; simpl.
  - rewrite String.eqb_eq. split; congruence.
  - split; discriminate.
Qed.

Lemma includes_In (l : list string) (x : string) :
  includes l x = true <-> In x l.
Proof.
  unfold includes. rewrite existsb_exists. split.
  - intros (y & Hy & E). apply String.eqb_eq in E. now subst.
  - intros H. exists x. split; [assumption | apply String.eqb_refl].
Qed.

Lemma sql_in_In (x : string) (vs : list string) :
  sql_in x vs = true <-> In x vs.
Proof. exact (includes_In vs x). Qed.

Lemma in_ur_join_r (db : Db) (ur : user_role_row) (r : role_row) :
  In (ur, r) (ur_join_r db) <->
  In ur (user_roles db) /\ In r (roles db) /\ ur_role_id ur = r_id r.
Proof.
  unfold ur_join_r. rewrite in_flat_map. split.
  - intros (ur' & Hur & Hin). apply in_map_iff in Hin.
    destruct Hin as (r' & E & Hr). inversion E; subst.
    apply filter_In in Hr. destruct Hr as (Hr & Hid).
    apply String.eqb_eq in Hid. auto.
  - intros (Hur & Hr & Hid). exists ur. split; [assumption|].
    apply in_map. apply filter_In. split; [assumption|].
    now apply String.eqb_eq.
Qed.

(** Membership in the result of [get_user_roles()], row by row. *)
Lemma in_get_user_roles (db : Db) (s : session) (n : string) :
  In n (get_user_roles db s) <->
  exists ur r,
    In ur (user_roles db) /\ In r (roles db) /\ ur_role_id ur = r_id r /\
    auth_uid s = Some (ur_user_id ur) /\ r_name r = n.
Proof.
  unfold get_user_roles. rewrite in_map_iff. split.
  - intros ([ur r] & E & Hin). apply filter_In in Hin.
    destruct Hin as (Hin & Hu). apply in_ur_join_r in Hin.
    apply sql_eq_true in Hu. simpl in *. exists ur, r. tauto.
  - intros (ur & r & Hur & Hr & Hid & Hu & E). exists (ur, r).
    split; [assumption|]. apply filter_In. split.
    + now apply in_ur_join_r.
    + now apply sql_eq_true.
Qed.

Lemma in_rolesFor (db : Db) (I : uuid) (n : string) :
  In n (rolesFor db I) <->
  exists ur r,
    In ur (user_roles db) /\ In r (roles db) /\ ur_role_id ur = r_id r /\
    ur_user_id ur = I /\ r_name r = n.
Proof.
  unfold rolesFor. rewrite in_get_user_roles. simpl.
  split; intros (ur & r & H1 & H2 & H3 & H4 & H5); exists ur, r;
    repeat split; congruence || assumption.
Qed.

(** [has_role] is membership in the rows [get_user_roles] returns. *)
Lemma has_role_In (db : Db) (s : session) (n : string) :
  has_role db s n = true <-> In n (get_user_roles db s).
Proof.
  unfold has_role. rewrite existsb_exists, in_get_user_roles. split.
  - intros ([ur r] & Hin & Hc). apply andb_true_iff in Hc.
    destruct Hc as (Hu & Hn). apply in_ur_join_r in Hin.
    apply sql_eq_true in Hu. apply String.eqb_eq in Hn.
    simpl in *. exists ur, r. tauto.
  - intros (ur & r & Hur & Hr & Hid & Hu & E). exists (ur, r). split.
    + now apply in_ur_join_r.
    + simpl. apply andb_true_iff. split.
      * now apply sql_eq_true.
      * now apply String.eqb_eq.
Qed.

Lemma has_role_includes (db : Db) (s : session) (n : string) :
  has_role db s n = includes (get_user_roles db s) n.
Proof.
  apply eq_true_iff_eq. rewrite has_role_In, includes_In. reflexivity.
Qed.

(** The first test of [is_admin()] is [hasAnyRole] on the held roles. *)
Lemma role_test_hasAnyRole (db : Db) (s : session) (names : list string) :
  existsb
    (fun p => sql_eq (ur_user_id (fst p)) (auth_uid s)
              && sql_in (r_name (snd p)) names)
    (ur_join_r db)
  = hasAnyRole (holding (get_user_roles db s)) names.
Proof.
  apply eq_true_iff_eq. unfold hasAnyRole. simpl.
  rewrite !existsb_exists. split.
  - intros ([ur r] & Hin & Hc). apply andb_true_iff in Hc.
    destruct Hc as (Hu & Hn). apply sql_in_In in Hn. simpl in *.
    exists (r_name r). split; [assumption|].
    apply includes_In. unfold get_user_roles.
    apply in_map_iff. exists (ur, r). split; [reflexivity|].
    apply filter_In. split; assumption.
  - intros (n & Hn & Hinc). apply includes_In in Hinc.
    unfold get_user_roles in Hinc. apply in_map_iff in Hinc.
    destruct Hinc as (p & E & Hp). apply filter_In in Hp.
    destruct Hp as (Hp & Hu). exists p. split; [assumption|].
    rewrite Hu. simpl. apply sql_in_In. now rewrite E.
Qed.

Lemma is_admin_unfold (db : Db) (s : session) :
  is_admin db s
  = hasAnyRole (holding (get_user_roles db s)) ["admin"; "super_admin"]
    || legacy_admin db s.
Proof.
  unfold is_admin. rewrite role_test_hasAnyRole.
  now destruct (hasAnyRole _ _).
Qed.

(** Without a user nothing matches [auth.uid()] or [auth.email()]. *)
Lemma get_user_roles_anon (db : Db) : get_user_roles db None = [].
Proof.
  unfold get_user_roles. simpl.
  induction (ur_join_r db) as [|p l IH]; simpl; auto.
Qed.

Lemma has_role_anon (db : Db) (n : string) : has_role db None n = false.
Proof.
  rewrite has_role_includes, get_user_roles_anon. reflexivity.
Qed.

Lemma is_admin_anon (db : Db) : is_admin db None = false.
Proof.
  rewrite is_admin_unfold, get_user_roles_anon. simpl.
  unfold legacy_admin. simpl.
  induction (admin_users db) as [|a l IH]; simpl; auto.
Qed.

(** One successful round trip of [fetchUserRoles]. *)
Lemma fetchUserRoles_ok (user : session) (st : HookState) (w : World) :
  faults w = [] ->
  fetchUserRoles user st w
  = (mk_hook (get_user_roles (store w) user) false None, w).
Proof.
  intros Hf. unfold fetchUserRoles, bind, rpc_get_user_roles, request.
  rewrite Hf. simpl. rewrite map_map. simpl. rewrite map_id.
  destruct w; simpl in *. now subst.
Qed.

Lemma fetchUserRoles_store (user : session) (st : HookState) (w : World) :
  store (snd (fetchUserRoles user st w)) = store w.
Proof.
  unfold fetchUserRoles, bind, rpc_get_user_roles, request.
  destruct (faults w) as [|[e|] fs]; reflexivity.
Qed.

(* ================================================================= *)
(** ** The evaluator *)

(** C1, as stated, fails for the hook: [alice] has no assignment but an entry
    in the old admin table.  Once her roles are fetched, the legacy disjunct
    holds while the client-side [isAdmin()] is false (the database function
    [is_admin()] is true for her). *)
Lemma C1_client_isAdmin_ignores_legacy :
  let st := fst (useEffect_user (Some Sample.alice) initial_state Sample.world) in
  ~ (isAdmin st = true <->
     hasAnyRole (holding (get_user_roles Sample.db (Some Sample.alice)))
                ["admin"; "super_admin"] = true
     \/ legacy_admin Sample.db (Some Sample.alice) = true).
Proof.
  vm_compute. intros [_ H]. specialize (H (or_intror eq_refl)). discriminate.
Qed.

(** C1 (amended): the database function [is_admin()] is
    [hasAnyRole(["admin","super_admin"])] on the held role set OR the legacy
    match; the client-side [isAdmin()] is the [hasAnyRole] disjunct alone, so
    after a fetch that went through, [is_admin()] is the client-side
    [isAdmin()] OR the legacy match. *)
Theorem C1_is_admin_database_and_client (db : Db) (s : session) :
  (is_admin db s = true <->
   hasAnyRole (holding (get_user_roles db s)) ["admin"; "super_admin"] = true
   \/ legacy_admin db s = true)
  /\ (forall st : HookState,
        isAdmin st = true <->
        In "admin" (st_roles st) \/ In "super_admin" (st_roles st))
  /\ (forall (st : HookState) (clk : timestamptz),
        let st' := fst (fetchUserRoles s st (mk_world db clk [])) in
        isAdmin st'
        = hasAnyRole (holding (get_user_roles db s)) ["admin"; "super_admin"]
        /\ is_admin db s = isAdmin st' || legacy_admin db s).
Proof.
  split; [|split].
  - rewrite is_admin_unfold. apply orb_true_iff.
  - intros st. unfold isAdmin, hasAnyRole. simpl.
    rewrite orb_false_r, orb_true_iff, !includes_In. reflexivity.
  - intros st clk. rewrite fetchUserRoles_ok by reflexivity. simpl.
    split; [reflexivity|]. apply is_admin_unfold.
Qed.

(** C4: [can_manage_roles()] and the client-side [isSuperAdmin()] hold exactly
    when the held role set contains "super_admin"; both are false on every
    role set drawn from the seven other predefined roles. *)
Theorem C4_can_manage_roles_iff_super_admin (db : Db) (s : session) :
  (can_manage_roles db s = true <-> In "super_admin" (get_user_roles db s))
  /\ (forall st : HookState,
        isSuperAdmin st = true <-> In "super_admin" (st_roles st))
  /\ (incl (get_user_roles db s) other_roles -> can_manage_roles db s = false)
  /\ (forall rs : list string,
        incl rs other_roles -> isSuperAdmin (holding rs) = false).
Proof.
  assert (Hother : ~ In "super_admin" other_roles).
  { vm_compute. intuition discriminate. }
  split; [|split; [|split]].
  - apply has_role_In.
  - intros st. apply includes_In.
  - intros Hincl. apply not_true_is_false. intros H.
    apply has_role_In in H. auto.
  - intros rs Hincl. apply not_true_is_false. intros H.
    apply includes_In in H. auto.
Qed.

Lemma C4_witness :
  can_manage_roles Sample.db (Some Sample.bob) = false
  /\ isSuperAdmin (holding ["admin"; "zen_analyst"]) = false.
Proof.
  destruct (C4_can_manage_roles_iff_super_admin Sample.db (Some Sample.bob))
    as (_ & _ & Hdb & Hst).
  split.
  - apply Hdb. vm_compute. intros a [E|[]]. subst. tauto.
  - apply Hst. vm_compute. intros a [E|[E|[]]]; subst; tauto.
Defined.

(** C6: when the role fetch comes back with an error, whatever the error and
    whatever the hook held before, the role list is emptied: [hasRole],
    [hasAnyRole], [isAdmin] (and [isSuperAdmin]) are all false, and the
    message is kept in [error]. *)
Theorem C6_fetch_failure_fails_closed
        (user : session) (st : HookState)
        (db : Db) (clk : timestamptz)
        (err : pg_error) (fs : list (option pg_error)) :
  let st' := fst (fetchUserRoles user st (mk_world db clk (Some err :: fs))) in
  st_roles st' = []
  /\ (forall N, hasRole st' N = false)
  /\ (forall names, hasAnyRole st' names = false)
  /\ isAdmin st' = false
  /\ isSuperAdmin st' = false
  /\ st_error st' = Some (message err).
Proof.
  simpl. repeat split.
  intros names. unfold hasAnyRole. simpl.
  induction names as [|n ns IH]; simpl; auto.
Qed.

(** Right after the effect has run without a user the role list is empty,
    so no role predicate holds; the same is true of the hook before any
    effect has run.  (What a request still in flight does later is
    [hook_step].) *)
Lemma useEffect_user_null_clears_roles (st : HookState) (w : World) :
  let st' := fst (useEffect_user None st w) in
  (st_roles st' = [] /\ st_roles initial_state = [])
  /\ (forall N, hasRole st' N = false /\ hasRole initial_state N = false)
  /\ (forall names,
        hasAnyRole st' names = false /\ hasAnyRole initial_state names = false)
  /\ (isAdmin st' = false /\ isAdmin initial_state = false)
  /\ (isSuperAdmin st' = false /\ isSuperAdmin initial_state = false).
Proof.
  simpl. repeat split;
    unfold hasAnyRole; simpl;
    induction names as [|n ns IH]; simpl; auto.
Qed.

(* ================================================================= *)
(** ** The policies *)

Lemma can_manage_roles_anon (db : Db) : can_manage_roles db None = false.
Proof. apply has_role_anon. Qed.


(** On [roles] and on [user_roles], every write command is gated by
    [can_manage_roles()], for existing rows and for new ones. *)
Lemma roles_write_gate (db : Db) (s : session) (c : command) (row : role_row) :
  In c write_commands ->
  using_ok roles_policies c db s row = can_manage_roles db s
  /\ check_ok roles_policies c db s row = can_manage_roles db s.
Proof.
  intros Hc. destruct s as [u|].
  - destruct Hc as [<-|[<-|[<-|[]]]]; policy_eval;
      now destruct (can_manage_roles db (Some u)).
  - rewrite can_manage_roles_anon.
    destruct Hc as [<-|[<-|[<-|[]]]]; split; reflexivity.
Qed.

Lemma user_roles_write_gate (db : Db) (s : session) (c : command)
      (row : user_role_row) :
  In c write_commands ->
  using_ok user_roles_policies c db s row = can_manage_roles db s
  /\ check_ok user_roles_policies c db s row = can_manage_roles db s.
Proof.
  intros Hc. destruct s as [u|].
  - destruct Hc as [<-|[<-|[<-|[]]]]; policy_eval;
      now destruct (can_manage_roles db (Some u)).
  - rewrite can_manage_roles_anon.
    destruct Hc as [<-|[<-|[<-|[]]]]; split; reflexivity.
Qed.

(** The catalog is readable by everyone. *)
Lemma roles_readable (db : Db) (s : session) (row : role_row) :
  using_ok roles_policies SELECT db s row = true.
Proof. destruct s; reflexivity. Qed.

Lemma visible_roles (db : Db) (s : session) :
  filter (using_ok roles_policies SELECT db s) (roles db) = roles db.
Proof.
  induction (roles db) as [|r l IH]; cbn [filter]; [reflexivity|].
  rewrite roles_readable. now f_equal.
Qed.

Lemma articles_write_gate (R : Type) (db : Db) (s : session) (c : command)
      (row : R) :
  In c write_commands ->
  using_ok (articles_policies R) c db s row
  = has_role db s "mantra_curator" || is_admin db s
  /\ check_ok (articles_policies R) c db s row
     = has_role db s "mantra_curator" || is_admin db s.
Proof.
  intros Hc. destruct s as [u|].
  - destruct Hc as [<-|[<-|[<-|[]]]]; policy_eval;
      now destruct (has_role db (Some u) "mantra_curator" || is_admin db (Some u)).
  - rewrite has_role_anon, is_admin_anon.
    destruct Hc as [<-|[<-|[<-|[]]]]; split; reflexivity.
Qed.

(** C9: a write to the articles (INSERT, UPDATE or DELETE, on existing rows
    and on new ones) is allowed exactly when
    [has_role('mantra_curator') OR is_admin()]; a read is allowed for every
    caller, signed in or not; a caller holding "mantra_curator" only may
    write articles and is denied every write to [roles] and [user_roles]. *)
Theorem C9_content_policy (R : Type) (db : Db) (s : session) (row : R) :
  (forall c, In c write_commands ->
     using_ok (articles_policies R) c db s row
     = has_role db s "mantra_curator" || is_admin db s
     /\ check_ok (articles_policies R) c db s row
        = has_role db s "mantra_curator" || is_admin db s)
  /\ using_ok (articles_policies R) SELECT db s row = true
  /\ (get_user_roles db s = ["mantra_curator"] ->
      forall c, In c write_commands ->
        (using_ok (articles_policies R) c db s row = true
         /\ check_ok (articles_policies R) c db s row = true)
        /\ (forall r : role_row,
              using_ok roles_policies c db s r = false
              /\ check_ok roles_policies c db s r = false)
        /\ (forall ur : user_role_row,
              using_ok user_roles_policies c db s ur = false
              /\ check_ok user_roles_policies c db s ur = false)).
Proof.
  split; [|split].
  - intros c Hc. now apply articles_write_gate.
  - destruct s; reflexivity.
  - intros Hheld c Hc.
    assert (Hmc : has_role db s "mantra_curator" = true).
    { rewrite has_role_includes, Hheld. reflexivity. }
    assert (Hcm : can_manage_roles db s = false).
    { unfold can_manage_roles. rewrite has_role_includes, Hheld. reflexivity. }
    split; [|split].
    + destruct (articles_write_gate db s row Hc) as [-> ->].
      rewrite Hmc. auto.
    + intros r. destruct (roles_write_gate db s r Hc) as [-> ->]. auto.
    + intros ur. destruct (user_roles_write_gate db s ur Hc) as [-> ->]. auto.
Qed.

Lemma C9_witness :
  (using_ok (articles_policies unit) INSERT Sample.db (Some Sample.bob) tt = true
   /\ check_ok (articles_policies unit) INSERT Sample.db (Some Sample.bob) tt
      = true)
  /\ check_ok roles_policies INSERT Sample.db (Some Sample.bob)
       (mk_role "r9" "guru" None 5%N 5%N) = false
  /\ using_ok user_roles_policies DELETE Sample.db (Some Sample.bob)
       (mk_user_role "u1" "r1" None 0%N) = false.
Proof.
  destruct (C9_content_policy Sample.db (Some Sample.bob) tt)
    as (_ & _ & Hcurator).
  assert (Hheld : get_user_roles Sample.db (Some Sample.bob)
                  = ["mantra_curator"]) by reflexivity.
  destruct (Hcurator Hheld INSERT (or_introl eq_refl)) as (Hart & Hroles & _).
  destruct (Hcurator Hheld DELETE (or_intror (or_intror (or_introl eq_refl))))
    as (_ & _ & Hur).
  split; [exact Hart | split].
  - apply Hroles.
  - apply Hur.
Defined.

(* ================================================================= *)
(** ** Requests *)

Lemma world_eta (w : World) : mk_world (store w) (clock w) (faults w) = w.
Proof. now destruct w. Qed.

Lemma set_user_roles_same (db : Db) : set_user_roles db (user_roles db) = db.
Proof. now destruct db. Qed.

Lemma filter_keeps_all {A} (f : A -> bool) (l : list A) :
  (forall x, In x l -> f x = true) -> filter f l = l.
Proof.
  induction l as [|a l IH]; simpl; intros H; [reflexivity|].
  rewrite (H a) by auto. f_equal. apply IH. auto.
Qed.

Lemma filter_keeps_none {A} (f : A -> bool) (l : list A) :
  (forall x, In x l -> f x = false) -> filter f l = [].
Proof.
  induction l as [|a l IH]; simpl; intros H; [reflexivity|].
  rewrite (H a) by auto. apply IH. auto.
Qed.

(** A request that goes through. *)
Lemma request_no_fault {A} (q : Db -> timestamptz -> response A * Db)
      (w : World) :
  faults w = [] ->
  request q w
  = (fst (q (store w) (clock w)),
     mk_world (snd (q (store w) (clock w))) (clock w) []).
Proof.
  intros Hf. unfold request. rewrite Hf.
  now destruct (q (store w) (clock w)).
Qed.

(** Whatever the transport does: either the request comes back with the
    injected error and the store is untouched, or it ran on the store. *)
Lemma request_cases {A} (q : Db -> timestamptz -> response A * Db)
      (w : World) :
  (exists e, fst (request q w) = Err e /\ store (snd (request q w)) = store w)
  \/ (fst (request q w) = fst (q (store w) (clock w))
      /\ store (snd (request q w)) = snd (q (store w) (clock w))).
Proof.
  unfold request. destruct (faults w) as [|[e|] fs].
  - right. now destruct (q (store w) (clock w)).
  - left. exists e. auto.
  - right. now destruct (q (store w) (clock w)).
Qed.

Lemma request_clock {A} (q : Db -> timestamptz -> response A * Db)
      (w : World) :
  clock (snd (request q w)) = clock w.
Proof.
  unfold request. destruct (faults w) as [|[e|] fs];
    try reflexivity; now destruct (q (store w) (clock w)).
Qed.

Lemma request_faults {A} (q : Db -> timestamptz -> response A * Db)
      (w : World) :
  faults (snd (request q w)) = tl (faults w).
Proof.
  unfold request. destruct (faults w) as [|[e|] fs];
    try reflexivity; now destruct (q (store w) (clock w)).
Qed.

Lemma select_role_id_single_fst (s : session) (N : string) (w : World) :
  (exists e, fst (select_role_id_single s N w) = Err e)
  \/ (exists r, named (store w) N = [r]
                /\ fst (select_role_id_single s N w) = Ok (r_id r)).
Proof.
  unfold select_role_id_single.
  destruct (request_cases
    (fun (db : Db) (_ : timestamptz) =>
       match filter (fun r => String.eqb (r_name r) N)
                    (filter (using_ok roles_policies SELECT db s) (roles db)) with
       | [r] => (Ok (r_id r), db)
       | _ => (Err NoSingleRow, db)
       end) w) as [(e & He & _)|(Hr & _)].
  - left. now exists e.
  - rewrite Hr, visible_roles. fold (named (store w) N).
    destruct (named (store w) N) as [|r [|r' l]]; simpl.
    + left. now exists NoSingleRow.
    + right. now exists r.
    + left. now exists NoSingleRow.
Qed.

Lemma select_role_id_single_world (s : session) (N : string) (w : World) :
  store (snd (select_role_id_single s N w)) = store w
  /\ clock (snd (select_role_id_single s N w)) = clock w
  /\ faults (snd (select_role_id_single s N w)) = tl (faults w).
Proof.
  unfold select_role_id_single. split; [|split].
  - match goal with |- store (snd (request ?q w)) = _ =>
      destruct (request_cases q w) as [(e & _ & Hs)|(_ & Hs)] end;
      [assumption|].
    rewrite Hs. now destruct (filter _ _) as [|r [|r' l]].
  - apply request_clock.
  - apply request_faults.
Qed.

Lemma insert_user_role_cases (s : session) (I rid : uuid) (w : World) :
  ((exists e, fst (insert_user_role s I rid w) = Err e)
   /\ store (snd (insert_user_role s I rid w)) = store w)
  \/ (fst (insert_user_role s I rid w) = Ok tt
      /\ can_manage_roles (store w) s = true
      /\ pk_free (store w) I rid = true
      /\ fk_ok (store w) I rid = true
      /\ store (snd (insert_user_role s I rid w))
         = inserted (store w) (clock w) I rid).
Proof.
  unfold insert_user_role.
  match goal with |- context [request ?q w] =>
    destruct (request_cases q w) as [(e & He & Hs)|(Hr & Hs)] end.
  - left. split; [now exists e | assumption].
  - rewrite Hr, Hs.
    destruct (user_roles_write_gate (store w) s
                (mk_user_role I rid None (clock w)) (or_introl eq_refl))
      as [_ ->].
    destruct (can_manage_roles (store w) s); simpl.
    + destruct (pk_free (store w) I rid); simpl.
      * destruct (fk_ok (store w) I rid); simpl.
        -- right. auto.
        -- left. split; [now exists ForeignKeyViolation | reflexivity].
      * left. split; [now exists UniqueViolation | reflexivity].
    + left. split; [now exists RlsViolation | reflexivity].
Qed.

Lemma insert_user_role_world (s : session) (I rid : uuid) (w : World) :
  clock (snd (insert_user_role s I rid w)) = clock w
  /\ faults (snd (insert_user_role s I rid w)) = tl (faults w).
Proof. split; [apply request_clock | apply request_faults]. Qed.

Lemma delete_user_role_cases (s : session) (I rid : uuid) (w : World) :
  ((exists e, fst (delete_user_role s I rid w) = Err e)
   /\ store (snd (delete_user_role s I rid w)) = store w)
  \/ (fst (delete_user_role s I rid w) = Ok tt
      /\ store (snd (delete_user_role s I rid w)) = deleted (store w) s I rid).
Proof.
  unfold delete_user_role.
  match goal with |- context [request ?q w] =>
    destruct (request_cases q w) as [(e & He & Hs)|(Hr & Hs)] end.
  - left. split; [now exists e | assumption].
  - right. rewrite Hr, Hs. auto.
Qed.

Lemma delete_user_role_world (s : session) (I rid : uuid) (w : World) :
  clock (snd (delete_user_role s I rid w)) = clock w
  /\ faults (snd (delete_user_role s I rid w)) = tl (faults w).
Proof. split; [apply request_clock | apply request_faults]. Qed.

Lemma fetchUsersWithRoles_store (s : session) (w : World) :
  store (snd (fetchUsersWithRoles s w)) = store w.
Proof.
  unfold fetchUsersWithRoles, bind, select_user_roles_with_names.
  match goal with |- context [request ?q w] =>
    destruct (request_cases q w) as [(e & He & Hs)|(Hr & Hs)];
    destruct (request q w) as [r w'] end; simpl in *.
  - subst r. assumption.
  - subst r. assumption.
Qed.

(** Without [can_manage_roles()] the DELETE reaches no row. *)
Lemma deleted_denied (db : Db) (s : session) (I rid : uuid) :
  can_manage_roles db s = false -> deleted db s I rid = db.
Proof.
  intros Hcm. unfold deleted.
  rewrite filter_keeps_all; [apply set_user_roles_same|].
  intros ur _.
  destruct (user_roles_write_gate db s ur (or_intror (or_intror (or_introl eq_refl))))
    as [-> _].
  rewrite Hcm, andb_false_r. reflexivity.
Qed.

(** The DELETE removes nothing when no row has the key. *)
Lemma deleted_absent (db : Db) (s : session) (I rid : uuid) :
  pk_free db I rid = true -> deleted db s I rid = db.
Proof.
  intros Hfree. unfold deleted.
  rewrite filter_keeps_all; [apply set_user_roles_same|].
  intros ur Hur. unfold pk_free in Hfree. apply negb_true_iff in Hfree.
  destruct (same_key I rid ur) eqn:Hk; [|reflexivity].
  assert (existsb (same_key I rid) (user_roles db) = true)
    by (apply existsb_exists; eauto).
  congruence.
Qed.

(* ================================================================= *)
(** ** What the mutation paths do to the store *)

Lemma assignRole_cases (s : session) (st : HookState) (I N : string) (w : World) :
  ((exists e, fst (fst (assignRole s st I N w)) = Thrown e)
   /\ store (snd (assignRole s st I N w)) = store w)
  \/ (exists r,
        named (store w) N = [r]
        /\ can_manage_roles (store w) s = true
        /\ pk_free (store w) I (r_id r) = true
        /\ fk_ok (store w) I (r_id r) = true
        /\ fst (fst (assignRole s st I N w)) = Returned
        /\ store (snd (assignRole s st I N w))
           = inserted (store w) (clock w) I (r_id r)).
Proof.
  unfold assignRole, bind.
  pose proof (select_role_id_single_fst s N w) as H1.
  pose proof (select_role_id_single_world s N w) as (Hs1 & Hc1 & _).
  destruct (select_role_id_single s N w) as [r1 w1]; simpl in *.
  destruct H1 as [(e & ->) | (r & Hn & ->)].
  - left. simpl. eauto.
  - pose proof (insert_user_role_cases s I (r_id r) w1) as H2.
    destruct (insert_user_role s I (r_id r) w1) as [r2 w2]; simpl in *.
    rewrite Hs1, Hc1 in H2.
    destruct H2 as [((e & ->) & Hs2) | (-> & Hcm & Hpk & Hfk & Hs2)].
    + left. simpl. eauto.
    + right. exists r. repeat (split; [assumption|]).
      destruct (is_current_user I s); simpl; [|auto].
      pose proof (fetchUserRoles_store s st w2) as Hs3.
      destruct (fetchUserRoles s st w2) as [st' w3]; simpl in *.
      split; congruence.
Qed.

Lemma removeRole_cases (s : session) (st : HookState) (I N : string) (w : World) :
  ((exists e, fst (fst (removeRole s st I N w)) = Thrown e)
   /\ store (snd (removeRole s st I N w)) = store w)
  \/ (exists r,
        named (store w) N = [r]
        /\ fst (fst (removeRole s st I N w)) = Returned
        /\ store (snd (removeRole s st I N w))
           = deleted (store w) s I (r_id r)).
Proof.
  unfold removeRole, bind.
  pose proof (select_role_id_single_fst s N w) as H1.
  pose proof (select_role_id_single_world s N w) as (Hs1 & Hc1 & _).
  destruct (select_role_id_single s N w) as [r1 w1]; simpl in *.
  destruct H1 as [(e & ->) | (r & Hn & ->)].
  - left. simpl. eauto.
  - pose proof (delete_user_role_cases s I (r_id r) w1) as H2.
    destruct (delete_user_role s I (r_id r) w1) as [r2 w2]; simpl in *.
    rewrite Hs1 in H2.
    destruct H2 as [((e & ->) & Hs2) | (-> & Hs2)].
    + left. simpl. eauto.
    + right. exists r. split; [assumption|].
      destruct (is_current_user I s); simpl; [|auto].
      pose proof (fetchUserRoles_store s st w2) as Hs3.
      destruct (fetchUserRoles s st w2) as [st' w3]; simpl in *.
      split; congruence.
Qed.

Lemma handleAssignRole_store (s : session) (st : RmState) (I N : string)
      (w : World) :
  store (snd (handleAssignRole s st I N w)) = store w
  \/ (exists rid,
        can_manage_roles (store w) s = true
        /\ pk_free (store w) I rid = true
        /\ store (snd (handleAssignRole s st I N w))
           = inserted (store w) (clock w) I rid).
Proof.
  unfold handleAssignRole.
  destruct (find _ (rm_roles st)) as [role|]; [|left; reflexivity].
  unfold bind.
  pose proof (insert_user_role_cases s I (r_id role) w) as H2.
  destruct (insert_user_role s I (r_id role) w) as [r2 w2]; simpl in *.
  destruct H2 as [((e & ->) & Hs2) | (-> & Hcm & Hpk & Hfk & Hs2)].
  - left. assumption.
  - right. exists (r_id role). repeat (split; [assumption|]).
    pose proof (fetchUsersWithRoles_store s w2) as Hs3.
    destruct (fetchUsersWithRoles s w2) as [[users|e] w3]; simpl in *;
      congruence.
Qed.

Lemma handleRemoveRole_store (s : session) (st : RmState) (I N : string)
      (w : World) :
  store (snd (handleRemoveRole s st I N w)) = store w
  \/ (exists rid,
        store (snd (handleRemoveRole s st I N w)) = deleted (store w) s I rid).
Proof.
  unfold handleRemoveRole.
  destruct (find _ (rm_roles st)) as [role|]; [|left; reflexivity].
  unfold bind.
  pose proof (delete_user_role_cases s I (r_id role) w) as H2.
  destruct (delete_user_role s I (r_id role) w) as [r2 w2]; simpl in *.
  destruct H2 as [((e & ->) & Hs2) | (-> & Hs2)].
  - left. assumption.
  - right. exists (r_id role).
    pose proof (fetchUsersWithRoles_store s w2) as Hs3.
    destruct (fetchUsersWithRoles s w2) as [[users|e] w3]; simpl in *;
      congruence.
Qed.

(** C5: on [roles] and on [user_roles] every write command (INSERT, UPDATE,
    DELETE), on existing rows and on new ones, is permitted exactly when
    [can_manage_roles()] holds for the caller; so a caller without
    "super_admin" has no write permitted, and none of the mutation paths of
    the client changes the store for such a caller, in any state. *)
Theorem C5_role_management_gated (db : Db) (s : session) :
  (forall c, In c write_commands ->
     (forall r : role_row,
        using_ok roles_policies c db s r = can_manage_roles db s
        /\ check_ok roles_policies c db s r = can_manage_roles db s)
     /\ (forall ur : user_role_row,
           using_ok user_roles_policies c db s ur = can_manage_roles db s
           /\ check_ok user_roles_policies c db s ur = can_manage_roles db s))
  /\ (~ In "super_admin" (get_user_roles db s) ->
      forall (clk : timestamptz) (fs : list (option pg_error)) (I N : string),
        (forall st, store (snd (assignRole s st I N (mk_world db clk fs))) = db)
        /\ (forall st, store (snd (removeRole s st I N (mk_world db clk fs))) = db)
        /\ (forall st,
              store (snd (handleAssignRole s st I N (mk_world db clk fs))) = db)
        /\ (forall st,
              store (snd (handleRemoveRole s st I N (mk_world db clk fs))) = db)).
Proof.
  split.
  - intros c Hc. split; intros row.
    + now apply roles_write_gate.
    + now apply user_roles_write_gate.
  - intros Hno clk fs I N.
    assert (Hcm : can_manage_roles db s = false).
    { apply not_true_is_false. intros H. apply has_role_In in H. auto. }
    repeat split; intros st.
    + destruct (assignRole_cases s st I N (mk_world db clk fs))
        as [(_ & Hs) | (r & _ & Hcm' & _)]; simpl in *; congruence.
    + destruct (removeRole_cases s st I N (mk_world db clk fs))
        as [(_ & Hs) | (r & _ & _ & Hs)]; simpl in *; [assumption|].
      rewrite Hs. now apply deleted_denied.
    + destruct (handleAssignRole_store s st I N (mk_world db clk fs))
        as [Hs | (rid & Hcm' & _)]; simpl in *; congruence.
    + destruct (handleRemoveRole_store s st I N (mk_world db clk fs))
        as [Hs | (rid & Hs)]; simpl in *; [assumption|].
      rewrite Hs. now apply deleted_denied.
Qed.

Lemma C5_witness :
  store (snd (removeRole (Some Sample.bob) initial_state "u1" "super_admin"
                         Sample.world)) = Sample.db
  /\ store (snd (assignRole (Some Sample.bob) initial_state "u3" "super_admin"
                            Sample.world)) = Sample.db
  /\ check_ok user_roles_policies INSERT Sample.db (Some Sample.bob)
       (mk_user_role "u3" "r1" None 5%N) = false.
Proof.
  destruct (C5_role_management_gated Sample.db (Some Sample.bob)) as [Hg Hs].
  assert (Hno : ~ In "super_admin" (get_user_roles Sample.db (Some Sample.bob))).
  { vm_compute. intros [E|[]]. discriminate. }
  destruct (Hs Hno 5%N [] "u1" "super_admin") as (_ & Hr & _).
  destruct (Hs Hno 5%N [] "u3" "super_admin") as (Ha & _).
  split; [apply Hr | split; [apply Ha|]].
  destruct (Hg INSERT (or_introl eq_refl)) as [_ Hur].
  destruct (Hur (mk_user_role "u3" "r1" None 5%N)) as [_ ->].
  reflexivity.
Defined.

(* ================================================================= *)
(** ** The primary key of [user_roles] *)

Lemma same_key_true (I rid : uuid) (ur : user_role_row) :
  same_key I rid ur = true <-> ur_key ur = (I, rid).
Proof.
  unfold same_key, ur_key, uuid_eqb.
  rewrite andb_true_iff, !String.eqb_eq. split.
  - intros [-> ->]. reflexivity.
  - intros E. inversion E. auto.
Qed.

Lemma pk_free_not_in (db : Db) (I rid : uuid) :
  pk_free db I rid = true <-> ~ In (I, rid) (map ur_key (user_roles db)).
Proof.
  unfold pk_free. rewrite negb_true_iff, <- not_true_iff_false.
  rewrite existsb_exists, in_map_iff. split; intros H (ur & H1 & H2); apply H;
    exists ur.
  - split; [assumption | now apply same_key_true].
  - split; [now apply same_key_true | assumption].
Qed.

(** Removing rows cannot create a duplicate key. *)
Lemma pk_filter (keep : user_role_row -> bool) (urs : list user_role_row) :
  NoDup (map ur_key urs) -> NoDup (map ur_key (filter keep urs)).
Proof.
  intros Hnd. induction urs as [|ur urs IH]; [constructor|].
  apply NoDup_cons_iff in Hnd. destruct Hnd as [Hfresh Hnd].
  cbn [filter]. destruct (keep ur); [|now apply IH].
  cbn [map]. apply NoDup_cons; [|now apply IH].
  contradict Hfresh. apply in_map_iff in Hfresh.
  destruct Hfresh as (ur' & Hkey & Hin).
  rewrite <- Hkey. apply in_map.
  now apply filter_In in Hin.
Qed.

Lemma inserted_pk (db : Db) (now : timestamptz) (I rid : uuid) :
  pk_user_roles db -> pk_free db I rid = true ->
  pk_user_roles (inserted db now I rid).
Proof.
  unfold pk_user_roles, inserted. simpl. intros Hnd Hfree.
  apply pk_free_not_in in Hfree. rewrite map_app. simpl.
  apply NoDup_app; [assumption | repeat constructor; auto |].
  intros k Hk [<-|[]]. auto.
Qed.

Lemma deleted_pk (db : Db) (s : session) (I rid : uuid) :
  pk_user_roles db -> pk_user_roles (deleted db s I rid).
Proof.
  unfold pk_user_roles, deleted. simpl. apply pk_filter.
Qed.

Lemma step_pk (db db' : Db) :
  step db db' -> pk_user_roles db -> pk_user_roles db'.
Proof.
  intros Hstep Hpk. destruct Hstep as [s st I N clk fs | s st I N clk fs
    | s st I N clk fs | s st I N clk fs | I rid now db' Hins].
  - destruct (assignRole_cases s st I N (mk_world db clk fs))
      as [(_ & ->) | (r & _ & _ & Hfree & _ & _ & ->)]; simpl in *;
      [assumption | now apply inserted_pk].
  - destruct (removeRole_cases s st I N (mk_world db clk fs))
      as [(_ & ->) | (r & _ & _ & ->)]; simpl in *;
      [assumption | now apply deleted_pk].
  - destruct (handleAssignRole_store s st I N (mk_world db clk fs))
      as [-> | (rid & _ & Hfree & ->)]; simpl in *;
      [assumption | now apply inserted_pk].
  - destruct (handleRemoveRole_store s st I N (mk_world db clk fs))
      as [-> | (rid & ->)]; simpl in *;
      [assumption | now apply deleted_pk].
  - unfold insert_on_conflict_do_nothing in Hins.
    destruct (pk_free db I rid) eqn:Hfree; simpl in Hins.
    + destruct (fk_ok db I rid); simpl in Hins; [|discriminate].
      injection Hins as <-. now apply inserted_pk.
    + injection Hins as <-. assumption.
Qed.

Lemma pk_at_most_one (db : Db) (I rid : uuid) :
  pk_user_roles db ->
  List.length (filter (same_key I rid) (user_roles db)) <= 1.
Proof.
  unfold pk_user_roles. induction (user_roles db) as [|ur l IH]; simpl;
    intros Hnd; [lia|].
  inversion Hnd as [|? ? Hnotin Hnd']; subst.
  destruct (same_key I rid ur) eqn:Hk; [|auto].
  apply same_key_true in Hk. simpl.
  rewrite (filter_keeps_none (same_key I rid) l); [simpl; lia|].
  intros x Hx. apply not_true_is_false. intros Hkx.
  apply same_key_true in Hkx. apply Hnotin. rewrite Hk, <- Hkx.
  now apply in_map.
Qed.

(** C8: in every state of the store reachable from the creation of
    [user_roles] by the mutation paths, the keys (user_id, role_id) of the
    rows are pairwise distinct: an identity holds each role at most once. *)
Theorem C8_assignment_key_unique (db : Db) :
  reachable db ->
  pk_user_roles db
  /\ forall I rid, List.length (filter (same_key I rid) (user_roles db)) <= 1.
Proof.
  intros Hreach.
  assert (Hpk : pk_user_roles db).
  { induction Hreach as [rs aus us | db db' _ IH Hstep].
    - constructor.
    - now apply (step_pk Hstep). }
  split; [assumption|]. intros I rid. now apply pk_at_most_one.
Qed.

Lemma C8_witness :
  let db2 := store (snd (assignRole (Some Sample.root) initial_state
                                    "u2" "admin" Sample.world)) in
  pk_user_roles db2
  /\ List.length (filter (same_key "u2" "r2") (user_roles db2)) <= 1.
Proof.
  assert (Hreach : reachable Sample.db).
  { apply reach_step
      with (db := mk_db Sample.catalog [mk_user_role "u1" "r1" None 0%N]
                        [mk_admin_user "a@x.com" "admin"]
                        [Sample.root; Sample.alice; Sample.bob]).
    - apply reach_step with (db := Sample.fresh).
      + apply reach_created.
      + apply step_on_conflict with (I := "u1") (rid := "r1") (now := 0%N).
        reflexivity.
    - apply step_on_conflict with (I := "u3") (rid := "r4") (now := 0%N).
      reflexivity. }
  pose proof (step_assignRole Sample.db (Some Sample.root) initial_state
                "u2" "admin" 5%N []) as Hstep.
  destruct (C8_assignment_key_unique (reach_step Hreach Hstep)) as [Hpk Hone].
  split; [exact Hpk | exact (Hone "u2" "r2")].
Defined.

(* ================================================================= *)
(** ** Assigning and revoking while the store is reachable *)

Lemma select_role_id_single_no_fault (s : session) (N : string) (w : World) :
  faults w = [] ->
  select_role_id_single s N w
  = (match named (store w) N with
     | [r] => Ok (r_id r)
     | _ => Err NoSingleRow
     end, w).
Proof.
  destruct w as [db clk fs]. simpl. intros ->.
  unfold select_role_id_single.
  rewrite request_no_fault by reflexivity. cbn [store clock].
  rewrite visible_roles.
  change (filter (fun r => String.eqb (r_name r) N) (roles db))
    with (named db N).
  now destruct (named db N) as [|r [|r' l]].
Qed.

Lemma insert_user_role_no_fault (s : session) (I rid : uuid) (w : World) :
  faults w = [] ->
  insert_user_role s I rid w
  = if negb (can_manage_roles (store w) s) then (Err RlsViolation, w)
    else if negb (pk_free (store w) I rid) then (Err UniqueViolation, w)
    else if negb (fk_ok (store w) I rid) then (Err ForeignKeyViolation, w)
    else (Ok tt, mk_world (inserted (store w) (clock w) I rid) (clock w) []).
Proof.
  destruct w as [db clk fs]. simpl. intros ->.
  unfold insert_user_role.
  rewrite request_no_fault by reflexivity. cbn [store clock].
  destruct (user_roles_write_gate db s
              (mk_user_role I rid None clk) (or_introl eq_refl))
    as [_ ->].
  destruct (can_manage_roles db s); simpl; [|reflexivity].
  destruct (pk_free db I rid); simpl; [|reflexivity].
  destruct (fk_ok db I rid); simpl; reflexivity.
Qed.

Lemma delete_user_role_no_fault (s : session) (I rid : uuid) (w : World) :
  faults w = [] ->
  delete_user_role s I rid w
  = (Ok tt, mk_world (deleted (store w) s I rid) (clock w) []).
Proof.
  intros Hf. unfold delete_user_role.
  rewrite request_no_fault by assumption. reflexivity.
Qed.

Lemma assignRole_no_fault (s : session) (st : HookState) (I N : string)
      (w : World) :
  faults w = [] ->
  assignRole s st I N w
  = match named (store w) N with
    | [r] =>
        if negb (can_manage_roles (store w) s) then (Thrown RlsViolation, st, w)
        else if negb (pk_free (store w) I (r_id r)) then
          (Thrown UniqueViolation, st, w)
        else if negb (fk_ok (store w) I (r_id r)) then
          (Thrown ForeignKeyViolation, st, w)
        else
          let w1 := mk_world (inserted (store w) (clock w) I (r_id r))
                             (clock w) [] in
          if is_current_user I s then
            (Returned, mk_hook (get_user_roles (store w1) s) false None, w1)
          else (Returned, st, w1)
    | _ => (Thrown NoSingleRow, st, w)
    end.
Proof.
  intros Hf. unfold assignRole, bind.
  rewrite select_role_id_single_no_fault by assumption.
  destruct (named (store w) N) as [|r [|r' l]]; try reflexivity.
  rewrite insert_user_role_no_fault by assumption.
  destruct (can_manage_roles (store w) s); simpl; [|reflexivity].
  destruct (pk_free (store w) I (r_id r)); simpl; [|reflexivity].
  destruct (fk_ok (store w) I (r_id r)); simpl; [|reflexivity].
  destruct (is_current_user I s); [|reflexivity].
  rewrite fetchUserRoles_ok by reflexivity. reflexivity.
Qed.

Lemma removeRole_no_fault (s : session) (st : HookState) (I N : string)
      (w : World) :
  faults w = [] ->
  removeRole s st I N w
  = match named (store w) N with
    | [r] =>
        let w1 := mk_world (deleted (store w) s I (r_id r)) (clock w) [] in
        if is_current_user I s then
          (Returned, mk_hook (get_user_roles (store w1) s) false None, w1)
        else (Returned, st, w1)
    | _ => (Thrown NoSingleRow, st, w)
    end.
Proof.
  intros Hf. unfold removeRole, bind.
  rewrite select_role_id_single_no_fault by assumption.
  destruct (named (store w) N) as [|r [|r' l]]; try reflexivity.
  rewrite delete_user_role_no_fault by assumption.
  destruct (is_current_user I s); [|reflexivity].
  rewrite fetchUserRoles_ok by reflexivity. reflexivity.
Qed.

(** The row [.single()] returns is the only role of that name. *)
Lemma named_single (db : Db) (N : string) (r : role_row) :
  named db N = [r] ->
  In r (roles db) /\ r_name r = N
  /\ forall r', In r' (roles db) -> r_name r' = N -> r' = r.
Proof.
  intros Hn.
  assert (Hin : forall r', In r' (named db N) <->
                           In r' (roles db) /\ r_name r' = N).
  { intros r'. unfold named. rewrite filter_In, String.eqb_eq. reflexivity. }
  rewrite Hn in Hin. split; [|split].
  - apply Hin. now left.
  - apply Hin. now left.
  - intros r' H1 H2. destruct (proj2 (Hin r') (conj H1 H2)) as [E|[]]. auto.
Qed.

(** Under the UNIQUE constraint on [roles.name], a name of the catalog
    selects exactly one row. *)
Lemma named_catalog (db : Db) (N : string) :
  NoDup (map r_name (roles db)) -> In N (map r_name (roles db)) ->
  exists r, named db N = [r].
Proof.
  unfold named. induction (roles db) as [|a l IH]; simpl; intros Hnd Hin;
    [contradiction|].
  inversion Hnd as [|? ? Hnotin Hnd']; subst.
  destruct (String.eqb (r_name a) N) eqn:E.
  - apply String.eqb_eq in E. exists a. f_equal.
    apply filter_keeps_none. intros x Hx. apply not_true_is_false.
    intros Ex. apply String.eqb_eq in Ex. apply Hnotin.
    rewrite E, <- Ex. now apply in_map.
  - destruct Hin as [E'|Hin].
    + rewrite E', String.eqb_refl in E. discriminate.
    + auto.
Qed.

Lemma named_unknown (db : Db) (N : string) :
  ~ In N (map r_name (roles db)) -> named db N = [].
Proof.
  intros Hno. apply filter_keeps_none. intros r Hr.
  apply not_true_is_false. intros E. apply String.eqb_eq in E.
  apply Hno. rewrite <- E. now apply in_map.
Qed.

(** Holding the role is having the row of that key. *)
Lemma held_iff_key (db : Db) (I N : string) (r : role_row) :
  named db N = [r] ->
  In N (rolesFor db I) <-> pk_free db I (r_id r) = false.
Proof.
  intros Hn. destruct (named_single _ _ Hn) as (Hr & Hname & Huniq).
  unfold pk_free. rewrite negb_false_iff, existsb_exists, in_rolesFor.
  split.
  - intros (ur & r' & Hur & Hr' & Hid & Hu & Hn').
    rewrite (Huniq r' Hr' Hn') in Hid. exists ur. split; [assumption|].
    apply same_key_true. unfold ur_key. congruence.
  - intros (ur & Hur & Hk). apply same_key_true in Hk. inversion Hk.
    exists ur, r. auto.
Qed.

(** An INSERT or a DELETE on [user_roles] leaves the catalog alone. *)
Lemma named_inserted (db : Db) (now : timestamptz) (I rid : uuid) (N : string) :
  named (inserted db now I rid) N = named db N.
Proof. reflexivity. Qed.

Lemma named_deleted (db : Db) (s : session) (I rid : uuid) (N : string) :
  named (deleted db s I rid) N = named db N.
Proof. reflexivity. Qed.

Lemma get_user_roles_inserted (db : Db) (now : timestamptz) (I rid : uuid)
      (s : session) (n : string) :
  In n (get_user_roles db s) -> In n (get_user_roles (inserted db now I rid) s).
Proof.
  rewrite !in_get_user_roles. intros (ur & r & Hur & H).
  exists ur, r. split; [|exact H]. simpl. apply in_or_app. now left.
Qed.

Lemma can_manage_roles_inserted (db : Db) (now : timestamptz) (I rid : uuid)
      (s : session) :
  can_manage_roles db s = true ->
  can_manage_roles (inserted db now I rid) s = true.
Proof.
  unfold can_manage_roles. rewrite !has_role_In.
  apply get_user_roles_inserted.
Qed.

Lemma inserted_not_free (db : Db) (now : timestamptz) (I rid : uuid) :
  pk_free (inserted db now I rid) I rid = false.
Proof.
  unfold pk_free. apply negb_false_iff, existsb_exists.
  exists (mk_user_role I rid None now). split.
  - simpl. apply in_or_app. right. now left.
  - now apply same_key_true.
Qed.

(** A caller who may manage roles reaches every row of [user_roles]. *)
Lemma user_roles_readable (db : Db) (s : session) (ur : user_role_row) :
  can_manage_roles db s = true ->
  using_ok user_roles_policies SELECT db s ur = true.
Proof.
  intros Hcm. destruct s as [u|].
  - policy_eval. rewrite Hcm. apply orb_true_iff. right.
    apply orb_true_iff. right. reflexivity.
  - rewrite can_manage_roles_anon in Hcm. discriminate.
Qed.

Lemma deleted_free (db : Db) (s : session) (I rid : uuid) :
  can_manage_roles db s = true ->
  pk_free (deleted db s I rid) I rid = true.
Proof.
  intros Hcm. unfold pk_free. apply negb_true_iff, not_true_is_false.
  intros H. apply existsb_exists in H. destruct H as (ur & Hur & Hk).
  unfold deleted, set_user_roles in Hur. cbn [user_roles] in Hur.
  apply filter_In in Hur. destruct Hur as (_ & Hkeep).
  destruct (user_roles_write_gate db s ur
              (or_intror (or_intror (or_introl eq_refl)))) as [Hd _].
  rewrite Hk, Hd, (user_roles_readable db s ur Hcm), Hcm in Hkeep.
  discriminate.
Qed.

Lemma held_in_catalog (db : Db) (I N : string) :
  In N (rolesFor db I) -> In N (map r_name (roles db)).
Proof.
  rewrite in_rolesFor. intros (ur & r & _ & Hr & _ & _ & <-).
  now apply in_map.
Qed.

(** The handler of the component on the same two inputs: a name its catalog
    does not have makes it return at once, silently; a role already held makes
    it alert the failure; the store is unchanged in both cases. *)
Lemma handleAssignRole_unknown (s : session) (st : RmState) (I N : string)
      (w : World) :
  ~ In N (map r_name (rm_roles st)) ->
  handleAssignRole s st I N w = (st, [], w).
Proof.
  intros Hunknown. unfold handleAssignRole.
  destruct (find (fun r => String.eqb (r_name r) N) (rm_roles st))
    as [role|] eqn:Hfind; [|reflexivity].
  apply find_some in Hfind. destruct Hfind as (Hin & Hname).
  apply String.eqb_eq in Hname. exfalso. apply Hunknown.
  rewrite <- Hname. now apply in_map.
Qed.

Lemma handleAssignRole_held (s : session) (st : RmState) (I N : string)
      (w : World) :
  rm_roles st = roles (store w) ->
  NoDup (map r_name (roles (store w))) ->
  In N (rolesFor (store w) I) ->
  snd (fst (handleAssignRole s st I N w)) = ["Failed to assign role"]
  /\ store (snd (handleAssignRole s st I N w)) = store w.
Proof.
  intros Hcat Hnd Hheld.
  pose proof (held_in_catalog _ _ _ Hheld) as Hknown.
  destruct (named_catalog _ N Hnd Hknown) as [r Hn].
  destruct (named_single _ _ Hn) as (_ & _ & Huniq).
  unfold handleAssignRole. rewrite Hcat.
  destruct (find (fun r0 => String.eqb (r_name r0) N) (roles (store w)))
    as [role|] eqn:Hfind.
  - apply find_some in Hfind. destruct Hfind as (Hin & Hname).
    apply String.eqb_eq in Hname. rewrite (Huniq role Hin Hname).
    unfold bind.
    pose proof (insert_user_role_cases s I (r_id r) w) as H2.
    destruct (insert_user_role s I (r_id r) w) as [r2 w2]; simpl in *.
    destruct H2 as [((e & ->) & Hs2) | (_ & _ & Hfree & _)].
    + auto.
    + apply (held_iff_key _ I _ Hn) in Hheld. congruence.
  - apply in_map_iff in Hknown. destruct Hknown as (r0 & Hname & Hin).
    apply (find_none _ _ Hfind) in Hin.
    rewrite Hname, String.eqb_refl in Hin. discriminate.
Qed.

(** C2, as stated, fails on a role already held: [bob] holds
    "mantra_curator", and assigning it to him again, by a super admin, throws
    the unique violation instead of returning. *)
Lemma C2_assign_held_role_throws :
  ~ (In "mantra_curator" (rolesFor Sample.db "u3") ->
     fst (fst (assignRole (Some Sample.root) initial_state
                          "u3" "mantra_curator" Sample.world)) = Returned
     /\ store (snd (assignRole (Some Sample.root) initial_state
                               "u3" "mantra_curator" Sample.world))
        = Sample.db).
Proof.
  intros H. destruct H as [H _].
  - vm_compute. auto.
  - vm_compute in H. discriminate.
Qed.

(** C2 (amended): [assignRole] throws when the name is not in the catalog
    (the no-row error of the lookup when the store is reachable); when the
    identity already holds the role it leaves the store unchanged but throws
    as well (the unique violation of the primary key, for a caller who may
    manage roles on a reachable store with unique role names). *)
Theorem C2_assign_unknown_or_held
        (s : session) (st : HookState) (I N : string) (w : World) :
  (~ In N (map r_name (roles (store w))) ->
   store (snd (assignRole s st I N w)) = store w
   /\ (exists e, fst (fst (assignRole s st I N w)) = Thrown e)
   /\ (faults w = [] ->
       fst (fst (assignRole s st I N w)) = Thrown NoSingleRow))
  /\ (In N (rolesFor (store w) I) ->
      store (snd (assignRole s st I N w)) = store w
      /\ (exists e, fst (fst (assignRole s st I N w)) = Thrown e)
      /\ (faults w = [] ->
          can_manage_roles (store w) s = true ->
          NoDup (map r_name (roles (store w))) ->
          fst (fst (assignRole s st I N w)) = Thrown UniqueViolation)).
Proof.
  split.
  - intros Hunknown. apply named_unknown in Hunknown.
    destruct (assignRole_cases s st I N w)
      as [(He & Hs) | (r & Hn & _)]; [|congruence].
    repeat split; try assumption.
    intros Hf. rewrite assignRole_no_fault, Hunknown by assumption.
    reflexivity.
  - intros Hheld.
    destruct (assignRole_cases s st I N w)
      as [(He & Hs) | (r & Hn & _ & Hfree & _)].
    + repeat split; try assumption.
      intros Hf Hcm Hnd.
      destruct (named_catalog _ N Hnd (held_in_catalog _ _ _ Hheld)) as [r Hn].
      rewrite assignRole_no_fault, Hn, Hcm by assumption. simpl.
      rewrite (proj1 (held_iff_key _ I _ Hn) Hheld). reflexivity.
    + apply (held_iff_key _ I _ Hn) in Hheld. congruence.
Qed.

Lemma C2_witness :
  fst (fst (assignRole (Some Sample.root) initial_state "u2" "guru"
                       Sample.world)) = Thrown NoSingleRow
  /\ fst (fst (assignRole (Some Sample.root) initial_state "u3"
                          "mantra_curator" Sample.world))
     = Thrown UniqueViolation
  /\ store (snd (assignRole (Some Sample.root) initial_state "u3"
                            "mantra_curator" Sample.world)) = Sample.db.
Proof.
  destruct (C2_assign_unknown_or_held (Some Sample.root) initial_state
              "u2" "guru" Sample.world) as [Hunknown _].
  destruct (C2_assign_unknown_or_held (Some Sample.root) initial_state
              "u3" "mantra_curator" Sample.world) as [_ Hheld].
  destruct Hunknown as (_ & _ & Hu).
  { vm_compute. intuition discriminate. }
  destruct Hheld as (Hs & _ & Hh).
  { vm_compute. auto. }
  split; [apply Hu; reflexivity | split; [|exact Hs]].
  apply Hh; [reflexivity | reflexivity |].
  vm_compute. repeat constructor; simpl; intuition discriminate.
Defined.

Lemma fetchUsersWithRoles_no_fault (s : session) (w : World) :
  faults w = [] ->
  exists users, fetchUsersWithRoles s w = (Ok users, w).
Proof.
  destruct w as [db clk fs]. simpl. intros ->.
  unfold fetchUsersWithRoles, bind, select_user_roles_with_names.
  rewrite request_no_fault by reflexivity. eexists. reflexivity.
Qed.

(** C7: revoking a catalog role the identity does not hold, on a reachable
    store, returns without error and leaves the store unchanged, through
    [removeRole] and through [handleRemoveRole] (whose catalog is the fetched
    one), whoever calls. *)
Theorem C7_revoke_not_held_is_noop
        (s : session) (st : HookState) (I N : string) (w : World) :
  faults w = [] ->
  NoDup (map r_name (roles (store w))) ->
  In N (map r_name (roles (store w))) ->
  ~ In N (rolesFor (store w) I) ->
  (fst (fst (removeRole s st I N w)) = Returned
   /\ store (snd (removeRole s st I N w)) = store w)
  /\ (forall rst : RmState,
        rm_roles rst = roles (store w) ->
        snd (fst (handleRemoveRole s rst I N w)) = ["Role removed successfully!"]
        /\ store (snd (handleRemoveRole s rst I N w)) = store w).
Proof.
  intros Hf Hnd Hcat Hnot.
  destruct (named_catalog _ N Hnd Hcat) as [r Hn].
  assert (Hfree : pk_free (store w) I (r_id r) = true).
  { apply not_false_is_true. intros H. apply Hnot.
    now apply (held_iff_key _ I _ Hn). }
  split.
  - rewrite removeRole_no_fault, Hn by assumption.
    rewrite (deleted_absent _ s _ _ Hfree).
    destruct (is_current_user I s); simpl; auto.
  - intros rst Hrst. unfold handleRemoveRole. rewrite Hrst.
    destruct (find (fun r0 => String.eqb (r_name r0) N) (roles (store w)))
      as [role|] eqn:Hfind.
    + apply find_some in Hfind. destruct Hfind as (Hin & Hname).
      apply String.eqb_eq in Hname.
      destruct (named_single _ _ Hn) as (_ & _ & Huniq).
      rewrite (Huniq role Hin Hname).
      unfold bind. rewrite delete_user_role_no_fault by assumption.
      rewrite (deleted_absent _ s _ _ Hfree).
      destruct (fetchUsersWithRoles_no_fault s
                  (mk_world (store w) (clock w) []) eq_refl) as [users ->].
      simpl. auto.
    + apply in_map_iff in Hcat. destruct Hcat as (r0 & Hname & Hin).
      apply (find_none _ _ Hfind) in Hin.
      rewrite Hname, String.eqb_refl in Hin. discriminate.
Qed.

Lemma C7_witness :
  (fst (fst (removeRole (Some Sample.root) initial_state "u2" "admin"
                        Sample.world)) = Returned
   /\ store (snd (removeRole (Some Sample.root) initial_state "u2" "admin"
                             Sample.world)) = Sample.db)
  /\ store (snd (handleRemoveRole (Some Sample.root)
                   (mk_rm Sample.catalog []) "u2" "admin" Sample.world))
     = Sample.db.
Proof.
  destruct (C7_revoke_not_held_is_noop (Some Sample.root) initial_state
              "u2" "admin" Sample.world) as [Hhook Hcomp].
  - reflexivity.
  - vm_compute. repeat constructor; simpl; intuition discriminate.
  - vm_compute. auto.
  - vm_compute. auto.
  - split; [exact Hhook|].
    apply (Hcomp (mk_rm Sample.catalog [])). reflexivity.
Defined.

Lemma assignRole_returned (s : session) (st : HookState) (I R : string)
      (w : World) :
  faults w = [] ->
  fst (fst (assignRole s st I R w)) = Returned ->
  exists r,
    named (store w) R = [r]
    /\ can_manage_roles (store w) s = true
    /\ pk_free (store w) I (r_id r) = true
    /\ snd (assignRole s st I R w)
       = mk_world (inserted (store w) (clock w) I (r_id r)) (clock w) [].
Proof.
  intros Hf. rewrite assignRole_no_fault by assumption.
  destruct (named (store w) R) as [|r [|r' l]];
    try (intros E; discriminate E).
  destruct (can_manage_roles (store w) s) eqn:Hcm;
    cbn [negb fst]; try (intros E; discriminate E).
  destruct (pk_free (store w) I (r_id r)) eqn:Hfree;
    cbn [negb fst]; try (intros E; discriminate E).
  destruct (fk_ok (store w) I (r_id r)) eqn:Hfk;
    cbn [negb fst]; try (intros E; discriminate E).
  intros _. exists r. repeat (split; [reflexivity|]).
  cbv zeta. now destruct (is_current_user I s).
Qed.

Lemma removeRole_found (s : session) (st : HookState) (I R : string)
      (w : World) (r : role_row) :
  faults w = [] ->
  named (store w) R = [r] ->
  fst (fst (removeRole s st I R w)) = Returned
  /\ snd (removeRole s st I R w)
     = mk_world (deleted (store w) s I (r_id r)) (clock w) [].
Proof.
  intros Hf Hn. rewrite removeRole_no_fault, Hn by assumption.
  cbv zeta. now destruct (is_current_user I s).
Qed.

(** Deleting twice is deleting once. *)
Lemma deleted_twice (db : Db) (s : session) (I rid : uuid) :
  deleted (deleted db s I rid) s I rid = deleted db s I rid.
Proof.
  destruct (can_manage_roles db s) eqn:Hcm.
  - apply deleted_absent. now apply deleted_free.
  - rewrite (deleted_denied db s I rid Hcm). now apply deleted_denied.
Qed.

(** Revoking twice in a row, from any state of a reachable store: the second
    call returns as well and changes nothing. *)
Lemma removeRole_twice (s : session) (st st' : HookState) (I R : string)
      (w : World) :
  faults w = [] ->
  fst (fst (removeRole s st I R w)) = Returned ->
  let w1 := snd (removeRole s st I R w) in
  fst (fst (removeRole s st' I R w1)) = Returned
  /\ store (snd (removeRole s st' I R w1)) = store w1.
Proof.
  intros Hf Hret.
  assert (Hn : exists r, named (store w) R = [r]).
  { rewrite removeRole_no_fault in Hret by assumption.
    destruct (named (store w) R) as [|r [|r' l]];
      try discriminate Hret. eauto. }
  destruct Hn as [r Hn].
  destruct (removeRole_found s st I R w Hf Hn) as [_ Hw1].
  cbv zeta. rewrite Hw1.
  destruct (removeRole_found s st' I R
              (mk_world (deleted (store w) s I (r_id r)) (clock w) [])
              eq_refl Hn) as [Hret2 Hw2].
  split; [assumption|]. rewrite Hw2. simpl. apply deleted_twice.
Qed.

(** C3, as stated, fails on the second assign: a super admin assigns "admin"
    to [alice] (who has no role), which returns; doing it again throws. *)
Lemma C3_second_assign_throws :
  let w1 := snd (assignRole (Some Sample.root) initial_state "u2" "admin"
                            Sample.world) in
  ~ (fst (fst (assignRole (Some Sample.root) initial_state "u2" "admin"
                          Sample.world)) = Returned ->
     fst (fst (assignRole (Some Sample.root) initial_state "u2" "admin" w1))
     = Returned
     /\ store (snd (assignRole (Some Sample.root) initial_state "u2" "admin" w1))
        = store w1).
Proof.
  intros w1 H. destruct H as [H _].
  - reflexivity.
  - vm_compute in H. discriminate.
Qed.

(** C3 (amended): on a reachable store, after [assignRole(I, R)] returns,
    [rolesFor(I)] contains R; assigning again leaves the store as it is but
    throws the unique violation; a subsequent [removeRole(I, R)] by the same
    caller returns and [rolesFor(I)] no longer contains R; revoking again
    returns as well and leaves the store as it is. *)
Theorem C3_assign_then_revoke
        (s : session) (st : HookState) (I R : string) (w : World) :
  faults w = [] ->
  fst (fst (assignRole s st I R w)) = Returned ->
  let w1 := snd (assignRole s st I R w) in
  In R (rolesFor (store w1) I)
  /\ (forall st1,
        fst (fst (assignRole s st1 I R w1)) = Thrown UniqueViolation
        /\ store (snd (assignRole s st1 I R w1)) = store w1)
  /\ (forall st1,
        let w2 := snd (removeRole s st1 I R w1) in
        fst (fst (removeRole s st1 I R w1)) = Returned
        /\ ~ In R (rolesFor (store w2) I)
        /\ (forall st2,
              fst (fst (removeRole s st2 I R w2)) = Returned
              /\ store (snd (removeRole s st2 I R w2)) = store w2)).
Proof.
  intros Hf Hret.
  destruct (assignRole_returned s st I R w Hf Hret)
    as (r & Hn & Hcm & Hfree & Hw1).
  cbv zeta. rewrite Hw1.
  set (db1 := inserted (store w) (clock w) I (r_id r)).
  set (w1 := mk_world db1 (clock w) []).
  assert (Hn1 : named db1 R = [r]) by exact Hn.
  assert (Hcm1 : can_manage_roles db1 s = true)
    by now apply can_manage_roles_inserted.
  assert (Hheld : In R (rolesFor db1 I)).
  { apply (held_iff_key _ I _ Hn1). apply inserted_not_free. }
  split; [exact Hheld | split].
  - intros st1.
    rewrite (assignRole_no_fault s st1 I R w1 eq_refl).
    cbn [store w1]. rewrite Hn1, Hcm1.
    assert (Hdup : pk_free db1 I (r_id r) = false)
      by apply inserted_not_free.
    rewrite Hdup. split; reflexivity.
  - intros st1.
    destruct (removeRole_found s st1 I R w1 eq_refl Hn1) as [Hret2 Hw2].
    split; [assumption|]. rewrite Hw2. cbn [store w1]. split.
    + intros Hstill.
      apply (held_iff_key _ I _ (r := r)) in Hstill; [|exact Hn1].
      rewrite deleted_free in Hstill by assumption. discriminate.
    + intros st2.
      pose proof (removeRole_twice s st1 st2 I R w1 eq_refl Hret2) as H.
      cbv zeta in H. rewrite Hw2 in H. exact H.
Qed.

Lemma C3_witness :
  let w1 := snd (assignRole (Some Sample.root) initial_state "u2" "admin"
                            Sample.world) in
  let w2 := snd (removeRole (Some Sample.root) initial_state "u2" "admin" w1) in
  In "admin" (rolesFor (store w1) "u2")
  /\ fst (fst (assignRole (Some Sample.root) initial_state "u2" "admin" w1))
     = Thrown UniqueViolation
  /\ ~ In "admin" (rolesFor (store w2) "u2")
  /\ store (snd (removeRole (Some Sample.root) initial_state "u2" "admin" w2))
     = store w2.
Proof.
  intros w1 w2.
  destruct (C3_assign_then_revoke (Some Sample.root) initial_state
              "u2" "admin" Sample.world eq_refl eq_refl)
    as (Hheld & Hagain & Hrevoke).
  destruct (Hagain initial_state) as [Hthrown _].
  destruct (Hrevoke initial_state) as (_ & Hgone & Htwice).
  destruct (Htwice initial_state) as [_ Hsame].
  exact (conj Hheld (conj Hthrown (conj Hgone Hsame))).
Defined.

(* ================================================================= *)
(** ** The hook against the database *)

Lemma get_user_roles_uid (db : Db) (s s' : session) :
  auth_uid s = auth_uid s' -> get_user_roles db s = get_user_roles db s'.
Proof. unfold get_user_roles. now intros ->. Qed.



(** X2: A call of [assignRole] or [removeRole] that throws has not changed
    the state of the hook, wherever the transport failed.  When the store is
    reachable the throw is the store's own refusal (for [assignRole] the
    missing role, the policy, the primary key or a foreign key; for
    [removeRole] the missing role only) and the store is unchanged as
    well. *)
Theorem refused_hook_mutation_is_atomic
        (s : session) (st : HookState) (I N : string) (w : World) :
  (forall e,
     fst (fst (assignRole s st I N w)) = Thrown e ->
     snd (fst (assignRole s st I N w)) = st)
  /\ (forall e,
        fst (fst (removeRole s st I N w)) = Thrown e ->
        snd (fst (removeRole s st I N w)) = st)
  /\ (faults w = [] ->
      forall e,
        fst (fst (assignRole s st I N w)) = Thrown e ->
        In e [NoSingleRow; RlsViolation; UniqueViolation; ForeignKeyViolation]
        /\ snd (assignRole s st I N w) = w)
  /\ (faults w = [] ->
      forall e,
        fst (fst (removeRole s st I N w)) = Thrown e ->
        e = NoSingleRow /\ snd (removeRole s st I N w) = w).
Proof.
  split; [|split; [|split]].
  - intros e. unfold assignRole, bind.
    destruct (select_role_id_single s N w) as [[rid|e1] w1]; cbn [fst snd];
      [|reflexivity].
    destruct (insert_user_role s I rid w1) as [[[]|e2] w2]; cbn [fst snd];
      [|reflexivity].
    destruct (is_current_user I s);
      [destruct (fetchUserRoles s st w2)|]; cbn [fst snd]; discriminate.
  - intros e. unfold removeRole, bind.
    destruct (select_role_id_single s N w) as [[rid|e1] w1]; cbn [fst snd];
      [|reflexivity].
    destruct (delete_user_role s I rid w1) as [[[]|e2] w2]; cbn [fst snd];
      [|reflexivity].
    destruct (is_current_user I s);
      [destruct (fetchUserRoles s st w2)|]; cbn [fst snd]; discriminate.
  - intros Hf e. rewrite assignRole_no_fault by assumption.
    destruct (named (store w) N) as [|r [|r' l]];
      try (cbn [fst snd]; intros [= <-]; split; [cbn; auto | reflexivity]).
    destruct (can_manage_roles (store w) s); cbn [negb];
      [|cbn [fst snd]; intros [= <-]; split; [cbn; auto | reflexivity]].
    destruct (pk_free (store w) I (r_id r)); cbn [negb];
      [|cbn [fst snd]; intros [= <-]; split; [cbn; auto | reflexivity]].
    destruct (fk_ok (store w) I (r_id r)); cbn [negb];
      [|cbn [fst snd]; intros [= <-]; split; [cbn; auto | reflexivity]].
    cbv zeta. destruct (is_current_user I s); cbn [fst snd]; discriminate.
  - intros Hf e. rewrite removeRole_no_fault by assumption.
    destruct (named (store w) N) as [|r [|r' l]];
      try (cbn [fst snd]; intros [= <-]; split; reflexivity).
    cbv zeta. destruct (is_current_user I s); cbn [fst snd]; discriminate.
Qed.

Lemma refused_hook_mutation_witness :
  snd (fst (assignRole (Some Sample.bob) (holding ["mantra_curator"])
                       "u3" "admin" Sample.world))
  = holding ["mantra_curator"]
  /\ snd (assignRole (Some Sample.bob) (holding ["mantra_curator"])
                     "u3" "admin" Sample.world) = Sample.world
  /\ snd (removeRole (Some Sample.root) initial_state "u3" "guru"
                     Sample.world) = Sample.world.
Proof.
  destruct (refused_hook_mutation_is_atomic (Some Sample.bob)
              (holding ["mantra_curator"]) "u3" "admin" Sample.world)
    as (Hstate & _ & Hassign & _).
  destruct (refused_hook_mutation_is_atomic (Some Sample.root)
              initial_state "u3" "guru" Sample.world)
    as (_ & _ & _ & Hremove).
  split; [apply (Hstate RlsViolation); reflexivity | split].
  - apply (Hassign eq_refl RlsViolation). reflexivity.
  - apply (Hremove eq_refl NoSingleRow). reflexivity.
Defined.

Lemma rolesFor_session (db : Db) (u : auth_user) :
  get_user_roles db (Some u) = rolesFor db (u_id u).
Proof. now apply get_user_roles_uid. Qed.

(** X3: When [assignRole] returns on a reachable store, the hook is refreshed
    exactly when the role went to the caller: its role list is then the
    caller's role list in the new store and contains the new role; an
    assignment to anybody else leaves the state of the hook as it was. *)
Theorem assignRole_refreshes_the_caller_only
        (u : auth_user) (st : HookState) (I R : string) (w : World) :
  faults w = [] ->
  fst (fst (assignRole (Some u) st I R w)) = Returned ->
  let st' := snd (fst (assignRole (Some u) st I R w)) in
  let w' := snd (assignRole (Some u) st I R w) in
  (I = u_id u ->
   st_roles st' = get_user_roles (store w') (Some u)
   /\ hasRole st' R = true)
  /\ (I <> u_id u -> st' = st).
Proof.
  intros Hf Hret.
  destruct (assignRole_returned (Some u) st I R w Hf Hret)
    as (r & Hn & Hcm & Hfree & Hw').
  cbv zeta. rewrite Hw'. clear Hw'.
  rewrite assignRole_no_fault, Hn, Hcm, Hfree in * by assumption.
  cbn [negb] in *.
  destruct (fk_ok (store w) I (r_id r)); cbn [negb fst] in *;
    [|discriminate Hret].
  cbv zeta. cbn [is_current_user]. split.
  - intros ->. rewrite String.eqb_refl. cbn [fst snd store st_roles].
    split; [reflexivity|].
    unfold hasRole. cbn [st_roles]. apply includes_In.
    rewrite rolesFor_session.
    apply (held_iff_key _ (u_id u) _ (r := r)); [exact Hn|].
    apply inserted_not_free.
  - intros Hother. apply String.eqb_neq in Hother. now rewrite Hother.
Qed.

Lemma assignRole_refreshes_witness :
  hasRole (snd (fst (assignRole (Some Sample.root) initial_state "u1" "admin"
                                Sample.world))) "admin" = true
  /\ snd (fst (assignRole (Some Sample.root) initial_state "u2" "admin"
                          Sample.world)) = initial_state.
Proof.
  destruct (assignRole_refreshes_the_caller_only Sample.root initial_state
              "u1" "admin" Sample.world eq_refl eq_refl) as [Hself _].
  destruct (assignRole_refreshes_the_caller_only Sample.root initial_state
              "u2" "admin" Sample.world eq_refl eq_refl) as [_ Hother].
  split.
  - now apply Hself.
  - apply Hother. discriminate.
Defined.

(** X4: Nothing protects the last super admin: a super admin may revoke the
    caller's own "super_admin".  The call returns, the refreshed hook and
    [can_manage_roles()] both say no afterwards, and every later
    [assignRole] of this caller for a catalog role is refused by the
    policies. *)
Theorem super_admin_can_lock_itself_out
        (u : auth_user) (st : HookState) (w : World) :
  faults w = [] ->
  NoDup (map r_name (roles (store w))) ->
  can_manage_roles (store w) (Some u) = true ->
  let st' := snd (fst (removeRole (Some u) st (u_id u) "super_admin" w)) in
  let w' := snd (removeRole (Some u) st (u_id u) "super_admin" w) in
  fst (fst (removeRole (Some u) st (u_id u) "super_admin" w)) = Returned
  /\ can_manage_roles (store w') (Some u) = false
  /\ isSuperAdmin st' = false
  /\ (forall st2 I N,
        In N (map r_name (roles (store w))) ->
        fst (fst (assignRole (Some u) st2 I N w')) = Thrown RlsViolation).
Proof.
  intros Hf Hnd Hcm.
  assert (Hheld : In "super_admin" (rolesFor (store w) (u_id u))).
  { rewrite <- rolesFor_session. now apply has_role_In. }
  destruct (named_catalog _ "super_admin" Hnd (held_in_catalog _ _ _ Hheld))
    as [r Hn].
  assert (Hgone : can_manage_roles (deleted (store w) (Some u) (u_id u) (r_id r))
                                   (Some u) = false).
  { apply not_true_is_false. intros H. apply has_role_In in H.
    rewrite rolesFor_session in H.
    apply (held_iff_key _ (u_id u) _ (r := r)) in H; [|exact Hn].
    rewrite deleted_free in H by assumption. discriminate. }
  cbv zeta. rewrite removeRole_no_fault, Hn by assumption.
  cbv zeta. cbn [is_current_user]. rewrite String.eqb_refl.
  cbn [fst snd store]. repeat split.
  - exact Hgone.
  - unfold isSuperAdmin, hasRole. cbn [st_roles].
    rewrite <- has_role_includes. exact Hgone.
  - intros st2 I N Hcat.
    destruct (named_catalog _ N Hnd Hcat) as [rN HnN].
    rewrite assignRole_no_fault by reflexivity. cbn [store].
    rewrite named_deleted, HnN, Hgone. reflexivity.
Qed.

Lemma super_admin_lock_out_witness :
  can_manage_roles
    (store (snd (removeRole (Some Sample.root) initial_state "u1"
                            "super_admin" Sample.world)))
    (Some Sample.root) = false
  /\ fst (fst (assignRole (Some Sample.root) initial_state "u1" "super_admin"
                 (snd (removeRole (Some Sample.root) initial_state "u1"
                                  "super_admin" Sample.world))))
     = Thrown RlsViolation.
Proof.
  destruct (super_admin_can_lock_itself_out Sample.root initial_state
              Sample.world) as (_ & Hgone & _ & Hrefused).
  - reflexivity.
  - vm_compute. repeat constructor; simpl; intuition discriminate.
  - reflexivity.
  - split; [exact Hgone|].
    apply (Hrefused initial_state "u1" "super_admin").
    vm_compute. auto.
Defined.

(** X5: A revoke by a caller who may not manage roles is refused silently: on a
    reachable store and for a catalog role, [removeRole] returns and
    [handleRemoveRole] announces the removal, while the store is unchanged,
    so an identity that held the role still holds it. *)
Theorem unauthorized_revoke_reports_success
        (s : session) (st : HookState) (I N : string) (w : World) :
  faults w = [] ->
  NoDup (map r_name (roles (store w))) ->
  In N (map r_name (roles (store w))) ->
  can_manage_roles (store w) s = false ->
  fst (fst (removeRole s st I N w)) = Returned
  /\ store (snd (removeRole s st I N w)) = store w
  /\ (forall rst : RmState,
        rm_roles rst = roles (store w) ->
        snd (fst (handleRemoveRole s rst I N w)) = ["Role removed successfully!"]
        /\ store (snd (handleRemoveRole s rst I N w)) = store w).
Proof.
  intros Hf Hnd Hcat Hcm.
  destruct (named_catalog _ N Hnd Hcat) as [r Hn].
  destruct (removeRole_found s st I N w Hf Hn) as [Hret Hw'].
  split; [assumption | split].
  - rewrite Hw'. cbn [store]. now apply deleted_denied.
  - intros rst Hrst. unfold handleRemoveRole. rewrite Hrst.
    destruct (find (fun r0 => String.eqb (r_name r0) N) (roles (store w)))
      as [role|] eqn:Hfind.
    + unfold bind. rewrite delete_user_role_no_fault by assumption.
      rewrite (deleted_denied _ s I (r_id role) Hcm).
      destruct (fetchUsersWithRoles_no_fault s
                  (mk_world (store w) (clock w) []) eq_refl) as [users ->].
      cbn [fst snd store]. auto.
    + apply in_map_iff in Hcat. destruct Hcat as (r0 & Hname & Hin).
      apply (find_none _ _ Hfind) in Hin.
      rewrite Hname, String.eqb_refl in Hin. discriminate.
Qed.

Lemma unauthorized_revoke_witness :
  fst (fst (removeRole (Some Sample.bob) initial_state "u1" "super_admin"
                       Sample.world)) = Returned
  /\ In "super_admin"
        (rolesFor (store (snd (removeRole (Some Sample.bob) initial_state "u1"
                                          "super_admin" Sample.world))) "u1").
Proof.
  destruct (unauthorized_revoke_reports_success (Some Sample.bob)
              initial_state "u1" "super_admin" Sample.world)
    as (Hret & Hstore & _).
  - reflexivity.
  - vm_compute. repeat constructor; simpl; intuition discriminate.
  - vm_compute. auto.
  - reflexivity.
  - split; [exact Hret|]. rewrite Hstore. vm_compute. auto.
Defined.

(** X6: An assign by a caller who may not manage roles is refused by the policy
    before any constraint is looked at: whoever the target is, whether it
    exists and whether it already holds the role, [assignRole] throws the
    row-level security violation and [handleAssignRole] alerts the failure. *)
Theorem unauthorized_assign_is_refused_first
        (s : session) (st : HookState) (I N : string) (w : World) :
  faults w = [] ->
  NoDup (map r_name (roles (store w))) ->
  In N (map r_name (roles (store w))) ->
  can_manage_roles (store w) s = false ->
  fst (fst (assignRole s st I N w)) = Thrown RlsViolation
  /\ (forall rst : RmState,
        rm_roles rst = roles (store w) ->
        snd (fst (handleAssignRole s rst I N w)) = ["Failed to assign role"]).
Proof.
  intros Hf Hnd Hcat Hcm.
  destruct (named_catalog _ N Hnd Hcat) as [r Hn].
  split.
  - rewrite assignRole_no_fault, Hn, Hcm by assumption. reflexivity.
  - intros rst Hrst. unfold handleAssignRole. rewrite Hrst.
    destruct (find (fun r0 => String.eqb (r_name r0) N) (roles (store w)))
      as [role|] eqn:Hfind.
    + unfold bind. rewrite insert_user_role_no_fault, Hcm by assumption.
      reflexivity.
    + apply in_map_iff in Hcat. destruct Hcat as (r0 & Hname & Hin).
      apply (find_none _ _ Hfind) in Hin.
      rewrite Hname, String.eqb_refl in Hin. discriminate.
Qed.

Lemma unauthorized_assign_witness :
  fst (fst (assignRole (Some Sample.bob) initial_state "nobody"
                       "mantra_curator" Sample.world)) = Thrown RlsViolation
  /\ fst (fst (assignRole (Some Sample.bob) initial_state "u3"
                          "mantra_curator" Sample.world)) = Thrown RlsViolation.
Proof.
  assert (Hnd : NoDup (map r_name (roles (store Sample.world)))).
  { vm_compute. repeat constructor; simpl; intuition discriminate. }
  assert (Hcat : In "mantra_curator" (map r_name (roles (store Sample.world)))).
  { vm_compute. auto 10. }
  split.
  - apply (unauthorized_assign_is_refused_first (Some Sample.bob)
             initial_state "nobody" "mantra_curator" Sample.world
             eq_refl Hnd Hcat eq_refl).
  - apply (unauthorized_assign_is_refused_first (Some Sample.bob)
             initial_state "u3" "mantra_curator" Sample.world
             eq_refl Hnd Hcat eq_refl).
Defined.

(** X7: A super admin assigning a catalog role to an identifier that is not a
    user of [auth.users] gets the foreign-key violation, and the store is
    unchanged. *)
Theorem assignRole_unknown_user
        (s : session) (st : HookState) (I N : string) (w : World) :
  faults w = [] ->
  NoDup (map r_name (roles (store w))) ->
  In N (map r_name (roles (store w))) ->
  can_manage_roles (store w) s = true ->
  ~ In N (rolesFor (store w) I) ->
  ~ In I (map u_id (auth_users (store w))) ->
  fst (fst (assignRole s st I N w)) = Thrown ForeignKeyViolation
  /\ store (snd (assignRole s st I N w)) = store w.
Proof.
  intros Hf Hnd Hcat Hcm Hnot Hnouser.
  destruct (named_catalog _ N Hnd Hcat) as [r Hn].
  assert (Hfree : pk_free (store w) I (r_id r) = true).
  { apply not_false_is_true. intros H. apply Hnot.
    now apply (held_iff_key _ I _ Hn). }
  assert (Hfk : fk_ok (store w) I (r_id r) = false).
  { unfold fk_ok. apply andb_false_iff. left. apply not_true_is_false.
    intros H. apply existsb_exists in H. destruct H as (x & Hx & E).
    apply String.eqb_eq in E. apply Hnouser. rewrite <- E. now apply in_map. }
  rewrite assignRole_no_fault, Hn, Hcm, Hfree, Hfk by assumption.
  split; reflexivity.
Qed.

Lemma assignRole_unknown_user_witness :
  fst (fst (assignRole (Some Sample.root) initial_state "nobody" "admin"
                       Sample.world)) = Thrown ForeignKeyViolation
  /\ store (snd (assignRole (Some Sample.root) initial_state "nobody" "admin"
                            Sample.world)) = Sample.db.
Proof.
  apply (assignRole_unknown_user (Some Sample.root) initial_state
           "nobody" "admin" Sample.world).
  - reflexivity.
  - vm_compute. repeat constructor; simpl; intuition discriminate.
  - vm_compute. auto.
  - reflexivity.
  - vm_compute. auto.
  - vm_compute. intuition discriminate.
Defined.

(* ================================================================= *)
(** ** What assigning and revoking leave alone *)

(** Under the primary key of [roles], an identifier names one row. *)
Lemma role_id_unique (rs : list role_row) (r r' : role_row) :
  NoDup (map r_id rs) -> In r rs -> In r' rs -> r_id r = r_id r' -> r = r'.
Proof.
  induction rs as [|a rs IH]; intros Hnd Hr Hr' E; [contradiction|].
  cbn [map] in Hnd. apply NoDup_cons_iff in Hnd. destruct Hnd as [Hfresh Hnd].
  destruct Hr as [->|Hr], Hr' as [->|Hr'].
  - reflexivity.
  - exfalso. apply Hfresh. rewrite E. now apply in_map.
  - exfalso. apply Hfresh. rewrite <- E. now apply in_map.
  - now apply IH.
Qed.

Lemma in_rolesFor_inserted (db : Db) (now : timestamptz) (I rid J : uuid)
      (n : string) :
  In n (rolesFor (inserted db now I rid) J) <->
  In n (rolesFor db J)
  \/ (J = I /\ exists r, In r (roles db) /\ r_id r = rid /\ r_name r = n).
Proof.
  rewrite !in_rolesFor. cbn [inserted set_user_roles user_roles roles]. split.
  - intros (ur & r & Hur & Hr & Hid & Hu & Hname).
    apply in_app_or in Hur. destruct Hur as [Hur|[<-|[]]].
    + left. exists ur, r. auto.
    + right. cbn in Hid, Hu. split; [congruence|]. exists r. auto.
  - intros [(ur & r & Hur & H) | (-> & r & Hr & Hid & Hname)].
    + exists ur, r. split; [apply in_or_app; now left | exact H].
    + exists (mk_user_role I rid None now), r.
      split; [apply in_or_app; right; now left|]. cbn. auto.
Qed.

Lemma in_rolesFor_deleted (db : Db) (s : session) (I rid J : uuid) (n : string) :
  can_manage_roles db s = true ->
  In n (rolesFor (deleted db s I rid) J) <->
  exists ur r,
    In ur (user_roles db) /\ In r (roles db) /\ ur_role_id ur = r_id r /\
    ur_user_id ur = J /\ r_name r = n /\ same_key I rid ur = false.
Proof.
  intros Hcm. rewrite in_rolesFor.
  unfold deleted, set_user_roles. cbn [user_roles roles].
  assert (Hkeep : forall ur,
            negb (same_key I rid ur
                  && using_ok user_roles_policies SELECT db s ur
                  && using_ok user_roles_policies DELETE db s ur)
            = negb (same_key I rid ur)).
  { intros ur.
    destruct (user_roles_write_gate db s ur
                (or_intror (or_intror (or_introl eq_refl)))) as [-> _].
    rewrite (user_roles_readable db s ur Hcm), Hcm.
    now rewrite !andb_true_r. }
  split.
  - intros (ur & r & Hur & Hr & Hid & Hu & Hname).
    apply filter_In in Hur. destruct Hur as (Hur & Hk).
    rewrite Hkeep in Hk. apply negb_true_iff in Hk.
    exists ur, r. auto 10.
  - intros (ur & r & Hur & Hr & Hid & Hu & Hname & Hk).
    exists ur, r. split; [|auto]. apply filter_In.
    split; [assumption|]. rewrite Hkeep, Hk. reflexivity.
Qed.

(** X8: [assignRole(I, R)] and [removeRole(I, R)] touch the pair (I, R) only:
    whatever they do and however they end, any other identity holds what it
    held, and I holds the same roles other than R (role identifiers being
    unique, as the primary key of [roles] has it). *)
Theorem assign_and_revoke_touch_one_pair
        (s : session) (st : HookState) (I R : string) (w : World)
        (J n : string) :
  NoDup (map r_id (roles (store w))) ->
  J <> I \/ n <> R ->
  (In n (rolesFor (store (snd (assignRole s st I R w))) J)
   <-> In n (rolesFor (store w) J))
  /\ (In n (rolesFor (store (snd (removeRole s st I R w))) J)
      <-> In n (rolesFor (store w) J)).
Proof.
  intros Hnd Hother. split.
  - destruct (assignRole_cases s st I R w)
      as [(_ & ->) | (r & Hn & _ & _ & _ & _ & ->)]; [reflexivity|].
    destruct (named_single _ _ Hn) as (Hr & Hname & _).
    rewrite in_rolesFor_inserted. split; [|now left].
    intros [H | (-> & r' & Hr' & Hid & Hname')]; [assumption|].
    exfalso. destruct Hother as [H|H]; [now apply H|].
    apply H. rewrite <- Hname', <- Hname. f_equal.
    eapply role_id_unique; eassumption.
  - destruct (removeRole_cases s st I R w)
      as [(_ & ->) | (r & Hn & _ & ->)]; [reflexivity|].
    destruct (named_single _ _ Hn) as (Hr & Hname & _).
    destruct (can_manage_roles (store w) s) eqn:Hcm;
      [|now rewrite deleted_denied].
    rewrite in_rolesFor_deleted by exact Hcm. rewrite in_rolesFor. split.
    + intros (ur & r' & H1 & H2 & H3 & H4 & H5 & _). exists ur, r'. auto.
    + intros (ur & r' & H1 & H2 & H3 & H4 & H5). exists ur, r'.
      repeat (split; [assumption|]).
      apply not_true_is_false. intros Hk. apply same_key_true in Hk.
      inversion Hk as [[Hu Hrid]].
      destruct Hother as [H|H]; [apply H; congruence|].
      apply H. rewrite <- H5, <- Hname. f_equal.
      eapply role_id_unique; [exact Hnd | assumption | assumption | congruence].
Qed.

Lemma assign_and_revoke_frame_witness :
  (In "mantra_curator"
      (rolesFor (store (snd (assignRole (Some Sample.root) initial_state
                                        "u2" "admin" Sample.world))) "u3")
   <-> In "mantra_curator" (rolesFor Sample.db "u3"))
  /\ (In "mantra_curator"
         (rolesFor (store (snd (removeRole (Some Sample.root) initial_state
                                           "u3" "admin" Sample.world))) "u3")
      <-> In "mantra_curator" (rolesFor Sample.db "u3")).
Proof.
  assert (Hnd : NoDup (map r_id (roles (store Sample.world)))).
  { vm_compute. repeat constructor; simpl; intuition discriminate. }
  destruct (@assign_and_revoke_touch_one_pair (Some Sample.root) initial_state
              "u2" "admin" Sample.world "u3" "mantra_curator" Hnd)
    as [Hassign _].
  { left. discriminate. }
  destruct (@assign_and_revoke_touch_one_pair (Some Sample.root) initial_state
              "u3" "admin" Sample.world "u3" "mantra_curator" Hnd)
    as [_ Hrevoke].
  { right. discriminate. }
  split; assumption.
Defined.

Lemma handleAssignRole_inserts (s : session) (st : RmState) (I N : string)
      (w : World) :
  store (snd (handleAssignRole s st I N w)) = store w
  \/ (exists rid,
        fk_ok (store w) I rid = true
        /\ store (snd (handleAssignRole s st I N w))
           = inserted (store w) (clock w) I rid).
Proof.
  unfold handleAssignRole.
  destruct (find _ (rm_roles st)) as [role|]; [|left; reflexivity].
  unfold bind.
  pose proof (insert_user_role_cases s I (r_id role) w) as H2.
  destruct (insert_user_role s I (r_id role) w) as [r2 w2]; simpl in *.
  destruct H2 as [((e & ->) & Hs2) | (-> & _ & _ & Hfk & Hs2)].
  - left. assumption.
  - right. exists (r_id role). split; [assumption|].
    pose proof (fetchUsersWithRoles_store s w2) as Hs3.
    destruct (fetchUsersWithRoles s w2) as [[users|e] w3]; simpl in *;
      congruence.
Qed.

(** What a step does to the store: nothing, one checked INSERT or one
    DELETE. *)
Lemma step_shape (db db' : Db) :
  step db db' ->
  db' = db
  \/ (exists now I rid, fk_ok db I rid = true /\ db' = inserted db now I rid)
  \/ (exists s I rid, db' = deleted db s I rid).
Proof.
  intros [s st I N clk fs | s st I N clk fs | s st I N clk fs
         | s st I N clk fs | I rid now db'' Hins].
  - destruct (assignRole_cases s st I N (mk_world db clk fs))
      as [(_ & ->) | (r & _ & _ & _ & Hfk & _ & ->)]; cbn [store clock] in *;
      [now left | right; left; eauto].
  - destruct (removeRole_cases s st I N (mk_world db clk fs))
      as [(_ & ->) | (r & _ & _ & ->)]; cbn [store] in *;
      [now left | right; right; eauto].
  - destruct (handleAssignRole_inserts s st I N (mk_world db clk fs))
      as [-> | (rid & Hfk & ->)]; cbn [store clock] in *;
      [now left | right; left; eauto].
  - destruct (handleRemoveRole_store s st I N (mk_world db clk fs))
      as [-> | (rid & ->)]; cbn [store] in *;
      [now left | right; right; eauto].
  - unfold insert_on_conflict_do_nothing in Hins.
    destruct (pk_free db I rid); cbn [negb] in Hins.
    + destruct (fk_ok db I rid) eqn:Hfk; cbn [negb] in Hins;
        [|discriminate Hins].
      injection Hins as <-. right; left; eauto.
    + injection Hins as <-. now left.
Qed.

(** X9: No mutation path of the role management touches the catalog, the old
    admin table or the users: across a step the three tables are the same, so
    the same caller is a legacy admin before and after, and a role name
    selects the same catalog rows. *)
Theorem step_changes_user_roles_only (db db' : Db) :
  step db db' ->
  roles db' = roles db
  /\ admin_users db' = admin_users db
  /\ auth_users db' = auth_users db
  /\ (forall s, legacy_admin db' s = legacy_admin db s)
  /\ (forall N, named db' N = named db N).
Proof.
  intros Hstep.
  destruct (step_shape Hstep)
    as [-> | [(now & I & rid & _ & ->) | (s & I & rid & ->)]];
    repeat split.
Qed.

Lemma step_changes_user_roles_only_witness :
  roles (store (snd (assignRole (Some Sample.root) initial_state "u2" "admin"
                                Sample.world))) = Sample.catalog
  /\ legacy_admin
       (store (snd (assignRole (Some Sample.root) initial_state "u2" "admin"
                               Sample.world))) (Some Sample.alice)
     = legacy_admin Sample.db (Some Sample.alice).
Proof.
  destruct (step_changes_user_roles_only
              (step_assignRole Sample.db (Some Sample.root) initial_state
                 "u2" "admin" 5%N []))
    as (Hroles & _ & _ & Hlegacy & _).
  split; [exact Hroles | apply Hlegacy].
Defined.

Lemma fk_ok_true (db : Db) (I rid : uuid) :
  fk_ok db I rid = true <->
  In I (map u_id (auth_users db)) /\ In rid (map r_id (roles db)).
Proof.
  unfold fk_ok, uuid_eqb.
  rewrite andb_true_iff, !existsb_exists, !in_map_iff.
  split; intros [(x & H1 & H2) (y & H3 & H4)]; split.
  - exists x. apply String.eqb_eq in H2. auto.
  - exists y. apply String.eqb_eq in H4. auto.
  - exists x. split; [assumption | now apply String.eqb_eq].
  - exists y. split; [assumption | now apply String.eqb_eq].
Qed.

Lemma step_fk (db db' : Db) :
  step db db' -> fk_user_roles db -> fk_user_roles db'.
Proof.
  intros Hstep Hfk.
  destruct (step_shape Hstep)
    as [-> | [(now & I & rid & Hok & ->) | (s & I & rid & ->)]];
    [assumption | |].
  - intros ur Hur. cbn [inserted set_user_roles user_roles] in Hur.
    apply in_app_or in Hur. destruct Hur as [Hur | [<- | []]].
    + now apply Hfk.
    + now apply fk_ok_true.
  - intros ur Hur. cbn [deleted set_user_roles user_roles] in Hur.
    apply filter_In in Hur. now apply Hfk.
Qed.

(** X10: In every state reachable from the creation of [user_roles], each
    assignment references a user of [auth.users] and a role of the catalog,
    so no row is dangling: its role is among the roles [rolesFor] returns for
    its user. *)
Theorem reachable_assignments_are_resolved (db : Db) :
  reachable db ->
  fk_user_roles db
  /\ forall ur, In ur (user_roles db) ->
       exists r, In r (roles db) /\ r_id r = ur_role_id ur
                 /\ In (r_name r) (rolesFor db (ur_user_id ur)).
Proof.
  intros Hreach.
  assert (Hfk : fk_user_roles db).
  { induction Hreach as [rs aus us | db db' _ IH Hstep].
    - intros ur [].
    - now apply (step_fk Hstep). }
  split; [assumption|]. intros ur Hur.
  destruct (Hfk ur Hur) as [_ Hrole]. apply in_map_iff in Hrole.
  destruct Hrole as (r & Hid & Hr). exists r. repeat split; try assumption.
  apply in_rolesFor. exists ur, r. auto.
Qed.

Lemma reachable_assignments_witness :
  fk_user_roles Sample.db.
Proof.
  assert (Hreach : reachable Sample.db).
  { apply reach_step
      with (db := mk_db Sample.catalog [mk_user_role "u1" "r1" None 0%N]
                        [mk_admin_user "a@x.com" "admin"]
                        [Sample.root; Sample.alice; Sample.bob]).
    - apply reach_step with (db := Sample.fresh).
      + apply reach_created.
      + apply step_on_conflict with (I := "u1") (rid := "r1") (now := 0%N).
        reflexivity.
    - apply step_on_conflict with (I := "u3") (rid := "r4") (now := 0%N).
      reflexivity. }
  exact (proj1 (reachable_assignments_are_resolved Hreach)).
Defined.

(* ================================================================= *)
(** ** The migration of the old admin table *)

Lemma insert_on_conflict_cases (db : Db) (now : timestamptz) (I rid : uuid)
      (db' : Db) :
  insert_on_conflict_do_nothing db now I rid = Some db' ->
  (pk_free db I rid = false /\ db' = db)
  \/ (pk_free db I rid = true /\ fk_ok db I rid = true
      /\ db' = inserted db now I rid).
Proof.
  unfold insert_on_conflict_do_nothing.
  destruct (pk_free db I rid); cbn [negb].
  - destruct (fk_ok db I rid); cbn [negb]; [|discriminate].
    intros [= <-]. right. auto.
  - intros [= <-]. left. auto.
Qed.

Lemma pk_free_incl (db db' : Db) (I rid : uuid) :
  incl (user_roles db) (user_roles db') ->
  pk_free db I rid = false -> pk_free db' I rid = false.
Proof.
  unfold pk_free. rewrite !negb_false_iff, !existsb_exists.
  intros Hincl (ur & Hur & Hk). exists ur. auto.
Qed.

(** What one conflict-tolerant insert that went through guarantees. *)
Lemma insert_on_conflict_effect (db : Db) (now : timestamptz) (I rid : uuid)
      (db' : Db) :
  insert_on_conflict_do_nothing db now I rid = Some db' ->
  roles db' = roles db /\ admin_users db' = admin_users db
  /\ auth_users db' = auth_users db
  /\ incl (user_roles db) (user_roles db')
  /\ pk_free db' I rid = false
  /\ (reachable db -> reachable db').
Proof.
  intros Hins. pose proof (step_on_conflict db I rid now Hins) as Hstep.
  destruct (insert_on_conflict_cases _ _ _ _ Hins)
    as [(Hdup & ->) | (_ & _ & ->)].
  - repeat split; auto using incl_refl.
  - repeat split.
    + cbn. apply incl_appl, incl_refl.
    + apply inserted_not_free.
    + intros Hreach. now apply (reach_step Hreach).
Qed.

Lemma select_role_id_into_some (db : Db) (name : string) (rid : uuid) :
  select_role_id_into db name = Some rid ->
  exists r, In r (roles db) /\ r_name r = name /\ r_id r = rid.
Proof.
  unfold select_role_id_into.
  destruct (find _ (roles db)) as [r|] eqn:Hfind; [|discriminate].
  intros [= <-]. apply find_some in Hfind. destruct Hfind as (Hin & E).
  apply String.eqb_eq in E. eauto.
Qed.

Section MigrationLoop.
Variable now : timestamptz.
Variables super_admin_role_id admin_role_id : option uuid.

Let body (acc : option Db) (a : admin_user_row) : option Db :=
  match acc with
  | Some d => migrate_admin_record now super_admin_role_id admin_role_id d a
  | None => None
  end.

Let chosen (a : admin_user_row) : option uuid :=
  if String.eqb (au_role a) "super_admin" then super_admin_role_id
  else admin_role_id.

Lemma migrate_loop_aborted (l : list admin_user_row) :
  fold_left body l None = None.
Proof. induction l as [|a l IH]; [reflexivity | exact IH]. Qed.

Lemma migrate_admin_record_effect (d d' : Db) (a : admin_user_row) :
  migrate_admin_record now super_admin_role_id admin_role_id d a = Some d' ->
  roles d' = roles d /\ admin_users d' = admin_users d
  /\ auth_users d' = auth_users d
  /\ incl (user_roles d) (user_roles d')
  /\ (reachable d -> reachable d')
  /\ (forall uid, select_user_id_into d (au_email a) = Some uid ->
        exists rid, chosen a = Some rid /\ pk_free d' uid rid = false).
Proof.
  unfold migrate_admin_record, chosen.
  destruct (select_user_id_into d (au_email a)) as [uid|].
  - intros H.
    assert (Hins : insert_values_do_nothing d now uid
                     (if String.eqb (au_role a) "super_admin"
                      then super_admin_role_id else admin_role_id) = Some d')
      by (destruct (String.eqb (au_role a) "super_admin"); exact H).
    clear H. unfold insert_values_do_nothing in Hins.
    destruct (if String.eqb (au_role a) "super_admin"
              then super_admin_role_id else admin_role_id) as [rid|];
      [|discriminate].
    destruct (insert_on_conflict_effect _ _ _ _ Hins)
      as (H1 & H2 & H3 & H4 & H5 & H6).
    repeat split; try assumption.
    intros uid' [= <-]. eauto.
  - intros [= <-]. repeat split; auto using incl_refl. discriminate.
Qed.

Lemma migrate_loop_effect (l : list admin_user_row) :
  forall d d',
    fold_left body l (Some d) = Some d' ->
    roles d' = roles d /\ admin_users d' = admin_users d
    /\ auth_users d' = auth_users d
    /\ incl (user_roles d) (user_roles d')
    /\ (reachable d -> reachable d')
    /\ (forall a uid,
          In a l -> select_user_id_into d (au_email a) = Some uid ->
          exists rid, chosen a = Some rid /\ pk_free d' uid rid = false).
Proof.
  induction l as [|a l IH]; intros d d' Hfold.
  - injection Hfold as <-. repeat split; auto using incl_refl.
    intros a uid [].
  - cbn [fold_left body] in Hfold.
    destruct (migrate_admin_record now super_admin_role_id admin_role_id d a)
      as [d1|] eqn:Hrec; [|now rewrite migrate_loop_aborted in Hfold].
    destruct (migrate_admin_record_effect _ _ Hrec)
      as (H1 & H2 & H3 & H4 & H5 & H6).
    destruct (IH _ _ Hfold) as (K1 & K2 & K3 & K4 & K5 & K6).
    repeat split; try congruence.
    + eapply incl_tran; eassumption.
    + auto.
    + intros a' uid [<-|Hin] Hsel.
      * destruct (H6 uid Hsel) as (rid & Hc & Hk). exists rid.
        split; [assumption|]. eapply pk_free_incl; eassumption.
      * apply (K6 a' uid Hin). unfold select_user_id_into in *.
        now rewrite H3.
Qed.

(** A second pass over records whose rows are all there changes nothing. *)
Lemma migrate_loop_settled (l : list admin_user_row) (d : Db) :
  (forall a uid,
     In a l -> select_user_id_into d (au_email a) = Some uid ->
     exists rid, chosen a = Some rid /\ pk_free d uid rid = false) ->
  forall now', 
    fold_left
      (fun acc a =>
         match acc with
         | Some d0 =>
             migrate_admin_record now' super_admin_role_id admin_role_id d0 a
         | None => None
         end) l (Some d) = Some d.
Proof.
  intros Hall now'. induction l as [|a l IH]; [reflexivity|].
  cbn [fold_left].
  assert (Hrec : migrate_admin_record now' super_admin_role_id admin_role_id
                                      d a = Some d).
  { unfold migrate_admin_record.
    destruct (select_user_id_into d (au_email a)) as [uid|] eqn:Hsel;
      [|reflexivity].
    destruct (Hall a uid (or_introl eq_refl) Hsel) as (rid & Hc & Hk).
    unfold chosen in Hc.
    destruct (String.eqb (au_role a) "super_admin"); rewrite Hc;
      unfold insert_values_do_nothing, insert_on_conflict_do_nothing;
      now rewrite Hk. }
  rewrite Hrec. apply IH. intros a' uid Hin. apply Hall. now right.
Qed.
End MigrationLoop.

Lemma select_role_id_into_known (db : Db) (name : string) :
  In name (map r_name (roles db)) ->
  exists rid, select_role_id_into db name = Some rid
              /\ In rid (map r_id (roles db)).
Proof.
  intros Hin. unfold select_role_id_into.
  destruct (find (fun r => String.eqb (r_name r) name) (roles db))
    as [r|] eqn:Hfind.
  - exists (r_id r). split; [reflexivity|].
    apply find_some in Hfind. apply in_map. tauto.
  - apply in_map_iff in Hin. destruct Hin as (r & E & Hr).
    apply (find_none _ _ Hfind) in Hr.
    rewrite E, String.eqb_refl in Hr. discriminate.
Qed.

Lemma select_user_id_into_some (db : Db) (email : string) (uid : uuid) :
  select_user_id_into db email = Some uid ->
  In uid (map u_id (auth_users db)).
Proof.
  unfold select_user_id_into.
  destruct (find _ (auth_users db)) as [u|] eqn:Hfind; [|discriminate].
  intros [= <-]. apply find_some in Hfind. apply in_map. tauto.
Qed.

(** With both role identifiers found, no record makes the loop fail. *)
Lemma migrate_loop_succeeds (now : timestamptz) (sa ad : uuid)
      (l : list admin_user_row) :
  forall d,
    In sa (map r_id (roles d)) -> In ad (map r_id (roles d)) ->
    exists d',
      fold_left
        (fun acc a =>
           match acc with
           | Some d0 => migrate_admin_record now (Some sa) (Some ad) d0 a
           | None => None
           end) l (Some d) = Some d'.
Proof.
  induction l as [|a l IH]; intros d Hsa Had; [eexists; reflexivity|].
  cbn [fold_left].
  assert (Hrec : exists d1,
             migrate_admin_record now (Some sa) (Some ad) d a = Some d1
             /\ roles d1 = roles d).
  { unfold migrate_admin_record.
    destruct (select_user_id_into d (au_email a)) as [uid|] eqn:Hsel;
      [|eexists; split; reflexivity].
    apply select_user_id_into_some in Hsel.
    assert (Hins : forall rid, In rid (map r_id (roles d)) ->
              exists d1, insert_on_conflict_do_nothing d now uid rid = Some d1
                         /\ roles d1 = roles d).
    { intros rid Hrid. unfold insert_on_conflict_do_nothing.
      destruct (pk_free d uid rid); cbn [negb];
        [|eexists; split; reflexivity].
      rewrite (proj2 (fk_ok_true d uid rid) (conj Hsel Hrid)). cbn [negb].
      eexists; split; reflexivity. }
    destruct (String.eqb (au_role a) "super_admin");
      cbn [insert_values_do_nothing]; auto. }
  destruct Hrec as (d1 & -> & Hroles). apply IH; now rewrite Hroles.
Qed.

Lemma pk_free_false_key (db : Db) (I rid : uuid) :
  pk_free db I rid = false ->
  exists ur, In ur (user_roles db) /\ ur_user_id ur = I /\ ur_role_id ur = rid.
Proof.
  unfold pk_free. rewrite negb_false_iff, existsb_exists.
  intros (ur & Hur & Hk). apply same_key_true in Hk. inversion Hk.
  exists ur. auto.
Qed.

(** A record whose email is the email of a user has given that user its
    role once the loop is through. *)
Lemma migrated_user_has_role (db db' : Db) (now : timestamptz)
      (a : admin_user_row) (uid : uuid) :
  migrate_admin_users db now = Some db' ->
  In a (admin_users db) ->
  select_user_id_into db (au_email a) = Some uid ->
  In (migrated_role a) (rolesFor db' uid).
Proof.
  unfold migrate_admin_users. cbv zeta. intros Hfold Ha Hsel.
  destruct (@migrate_loop_effect _ _ _ _ _ _ Hfold)
    as (H1 & _ & _ & _ & _ & H6).
  destruct (H6 a uid Ha Hsel) as (rid & Hc & Hk).
  destruct (pk_free_false_key _ _ _ Hk) as (ur & Hur & Hu & Hrid).
  assert (Hr : exists r, In r (roles db) /\ r_name r = migrated_role a
                         /\ r_id r = rid).
  { unfold migrated_role.
    destruct (String.eqb (au_role a) "super_admin");
      apply select_role_id_into_some; congruence. }
  destruct Hr as (r & Hr & Hname & Hid).
  apply in_rolesFor. exists ur, r. rewrite H1. repeat split; congruence.
Qed.

Lemma migrated_role_is_admin (a : admin_user_row) (rs : list string) :
  In (migrated_role a) rs ->
  hasAnyRole (holding rs) ["admin"; "super_admin"] = true.
Proof.
  intros Hrole. unfold hasAnyRole. cbn [existsb holding st_roles].
  apply includes_In in Hrole. unfold migrated_role in Hrole.
  destruct (String.eqb (au_role a) "super_admin"); rewrite Hrole;
    now rewrite ?orb_true_r.
Qed.

(** X12: The [DO] block of the migration, on a catalog that has the "admin" and
    "super_admin" roles: it goes through, touches [user_roles] only and keeps
    every row that was there; afterwards every record of the old admin table
    whose email is the email of a user has given that user a role,
    "super_admin" when the record says so and "admin" for any other value of
    its role, so that the role test of [is_admin()] and of the client-side
    [isAdmin()] holds for that user. *)
Theorem migration_gives_legacy_admins_a_role (db : Db) (now : timestamptz) :
  In "super_admin" (map r_name (roles db)) ->
  In "admin" (map r_name (roles db)) ->
  exists db',
    migrate_admin_users db now = Some db'
    /\ roles db' = roles db /\ admin_users db' = admin_users db
    /\ auth_users db' = auth_users db
    /\ incl (user_roles db) (user_roles db')
    /\ (forall a uid,
          In a (admin_users db) ->
          select_user_id_into db (au_email a) = Some uid ->
          In (migrated_role a) (rolesFor db' uid)
          /\ hasAnyRole (holding (rolesFor db' uid)) ["admin"; "super_admin"]
             = true
          /\ (forall u, u_id u = uid -> is_admin db' (Some u) = true)).
Proof.
  intros Hsa Had.
  destruct (select_role_id_into_known db _ Hsa) as (sa & Esa & Hsa').
  destruct (select_role_id_into_known db _ Had) as (ad & Ead & Had').
  destruct (migrate_loop_succeeds now sa ad (admin_users db) db Hsa' Had')
    as [db' Hfold].
  assert (Hrun : migrate_admin_users db now = Some db').
  { unfold migrate_admin_users. now rewrite Esa, Ead. }
  exists db'. split; [exact Hrun|].
  destruct (@migrate_loop_effect now (Some sa) (Some ad) (admin_users db)
              db db' Hfold) as (H1 & H2 & H3 & H4 & _ & _).
  repeat (split; [assumption|]).
  intros a uid Ha Hsel.
  pose proof (migrated_user_has_role db now a Hrun Ha Hsel) as Hrole.
  pose proof (migrated_role_is_admin a _ Hrole) as Hany.
  repeat split; try assumption.
  intros u <-. rewrite is_admin_unfold, rolesFor_session, Hany. reflexivity.
Qed.

Lemma migration_witness :
  exists db',
    migrate_admin_users Sample.fresh 7%N = Some db'
    /\ In "admin" (rolesFor db' "u2")
    /\ is_admin db' (Some Sample.alice) = true.
Proof.
  destruct (migration_gives_legacy_admins_a_role Sample.fresh 7%N)
    as (db' & Hrun & _ & _ & _ & _ & Hall).
  - vm_compute. auto.
  - vm_compute. auto.
  - exists db'. split; [exact Hrun|].
    destruct (Hall (mk_admin_user "a@x.com" "admin") "u2")
      as (Hrole & _ & Hadmin).
    + vm_compute. auto.
    + reflexivity.
    + split; [exact Hrole | now apply Hadmin].
Defined.

(** X13: Running the [DO] block again, at any later time, changes nothing: every
    insert of the second run meets its row and does nothing. *)
Theorem migration_is_idempotent (db db' : Db) (now now' : timestamptz) :
  migrate_admin_users db now = Some db' ->
  migrate_admin_users db' now' = Some db'.
Proof.
  unfold migrate_admin_users. cbv zeta. intros Hfold.
  destruct (@migrate_loop_effect _ _ _ _ _ _ Hfold)
    as (H1 & H2 & H3 & _ & _ & H6).
  assert (Esa : select_role_id_into db' "super_admin"
                = select_role_id_into db "super_admin")
    by (unfold select_role_id_into; now rewrite H1).
  assert (Ead : select_role_id_into db' "admin"
                = select_role_id_into db "admin")
    by (unfold select_role_id_into; now rewrite H1).
  rewrite Esa, Ead, H2.
  apply (@migrate_loop_settled _ _ (admin_users db) db').
  intros a uid Ha Hsel. apply (H6 a uid Ha).
  unfold select_user_id_into in *. now rewrite <- H3.
Qed.

Lemma migration_is_idempotent_witness :
  migrate_admin_users
    (inserted Sample.fresh 7%N "u2" "r2") 9%N
  = Some (inserted Sample.fresh 7%N "u2" "r2").
Proof.
  apply (migration_is_idempotent Sample.fresh 7%N 9%N). reflexivity.
Defined.

Lemma reachable_pk (db : Db) : reachable db -> pk_user_roles db.
Proof.
  intros Hreach. induction Hreach as [rs aus us | db db' _ IH Hstep].
  - constructor.
  - now apply (step_pk Hstep).
Qed.

Lemma reachable_fk (db : Db) : reachable db -> fk_user_roles db.
Proof.
  intros Hreach. induction Hreach as [rs aus us | db db' _ IH Hstep].
  - intros ur [].
  - now apply (step_fk Hstep).
Qed.

(** X14: The migration keeps the store among the reachable states, hence its
    keys distinct and its references resolved. *)
Theorem migration_keeps_the_invariants (db db' : Db) (now : timestamptz) :
  reachable db ->
  migrate_admin_users db now = Some db' ->
  reachable db' /\ pk_user_roles db' /\ fk_user_roles db'.
Proof.
  intros Hreach Hfold. unfold migrate_admin_users in Hfold. cbv zeta in Hfold.
  destruct (@migrate_loop_effect _ _ _ _ _ _ Hfold)
    as (_ & _ & _ & _ & H5 & _).
  specialize (H5 Hreach).
  auto using reachable_pk, reachable_fk.
Qed.

Lemma migration_keeps_the_invariants_witness :
  pk_user_roles (inserted Sample.fresh 7%N "u2" "r2")
  /\ fk_user_roles (inserted Sample.fresh 7%N "u2" "r2").
Proof.
  destruct (@migration_keeps_the_invariants Sample.fresh
              (inserted Sample.fresh 7%N "u2" "r2") 7%N)
    as (_ & Hpk & Hfk).
  - apply reach_created.
  - reflexivity.
  - split; assumption.
Defined.

(** X16: [assign_default_role()] for a new user: without a "yogi_in_training"
    role in the catalog it does nothing; for a user of [auth.users] it never
    fails; when it goes through with the role in the catalog the user holds
    "yogi_in_training" afterwards, nobody else's roles have changed, and
    running it again changes nothing. *)
Theorem assign_default_role_effect (db : Db) (now : timestamptz) (new_id : uuid) :
  (~ In "yogi_in_training" (map r_name (roles db)) ->
   assign_default_role db now new_id = Some db)
  /\ (In new_id (map u_id (auth_users db)) ->
      exists db', assign_default_role db now new_id = Some db')
  /\ (forall db',
        assign_default_role db now new_id = Some db' ->
        (In "yogi_in_training" (map r_name (roles db)) ->
         In "yogi_in_training" (rolesFor db' new_id))
        /\ (forall now', assign_default_role db' now' new_id = Some db')
        /\ (forall J n, J <> new_id ->
              In n (rolesFor db' J) <-> In n (rolesFor db J))).
Proof.
  unfold assign_default_role. split; [|split].
  - intros Hno. unfold select_role_id_into.
    destruct (find (fun r => String.eqb (r_name r) "yogi_in_training")
                   (roles db)) as [r|] eqn:Hfind; [|reflexivity].
    exfalso. apply Hno. apply find_some in Hfind.
    destruct Hfind as (Hin & E). apply String.eqb_eq in E.
    rewrite <- E. now apply in_map.
  - intros Huser.
    destruct (select_role_id_into db "yogi_in_training") as [rid|] eqn:Hsel;
      [|eexists; reflexivity].
    destruct (select_role_id_into_some _ _ Hsel) as (r & Hr & _ & Hid).
    unfold insert_on_conflict_do_nothing.
    destruct (pk_free db new_id rid); cbn [negb]; [|eexists; reflexivity].
    rewrite (proj2 (fk_ok_true db new_id rid)); [eexists; reflexivity|].
    split; [assumption|]. rewrite <- Hid. now apply in_map.
  - intros db' Hrun.
    destruct (select_role_id_into db "yogi_in_training") as [rid|] eqn:Hsel.
    + destruct (select_role_id_into_some _ _ Hsel) as (r & Hr & Hname & Hid).
      destruct (insert_on_conflict_effect _ _ _ _ Hrun)
        as (H1 & _ & _ & _ & Hk & _).
      assert (Hsel' : select_role_id_into db' "yogi_in_training" = Some rid)
        by (unfold select_role_id_into in *; now rewrite H1).
      split; [|split].
      * intros _. destruct (pk_free_false_key _ _ _ Hk) as (ur & Hur & Hu & Hrid).
        apply in_rolesFor. exists ur, r. rewrite H1.
        repeat split; congruence.
      * intros now'. rewrite Hsel'. unfold insert_on_conflict_do_nothing.
        now rewrite Hk.
      * intros J n HJ.
        destruct (insert_on_conflict_cases _ _ _ _ Hrun)
          as [(_ & ->) | (_ & _ & ->)]; [reflexivity|].
        rewrite in_rolesFor_inserted. split; [|now left].
        intros [H | (-> & _)]; [assumption | contradiction].
    + injection Hrun as <-. split; [|split].
      * intros Hin. exfalso.
        destruct (select_role_id_into_known db _ Hin) as (rid & E & _).
        congruence.
      * intros now'. now rewrite Hsel.
      * reflexivity.
Qed.

Lemma assign_default_role_witness :
  exists db',
    assign_default_role Sample.db 7%N "u2" = Some db'
    /\ In "yogi_in_training" (rolesFor db' "u2")
    /\ assign_default_role db' 9%N "u2" = Some db'.
Proof.
  destruct (assign_default_role_effect Sample.db 7%N "u2")
    as (_ & Hruns & Heffect).
  destruct Hruns as [db' Hrun].
  - vm_compute. auto.
  - exists db'. split; [exact Hrun|].
    destruct (Heffect db' Hrun) as (Hheld & Hagain & _).
    split; [apply Hheld; vm_compute; auto 10 | apply Hagain].
Defined.

(* ================================================================= *)
(** ** Seeding the catalog *)

Lemma name_in_catalog (db : Db) (name : string) :
  existsb (fun r => String.eqb (r_name r) name) (roles db) = true
  <-> In name (map r_name (roles db)).
Proof.
  rewrite existsb_exists, in_map_iff.
  split; intros (r & H1 & H2); exists r.
  - apply String.eqb_eq in H2. auto.
  - split; [assumption | now apply String.eqb_eq].
Qed.

Lemma id_in_catalog (db : Db) (id : uuid) :
  existsb (fun r => uuid_eqb (r_id r) id) (roles db) = true
  <-> In id (map r_id (roles db)).
Proof.
  unfold uuid_eqb. rewrite existsb_exists, in_map_iff.
  split; intros (r & H1 & H2); exists r.
  - apply String.eqb_eq in H2. auto.
  - split; [assumption | now apply String.eqb_eq].
Qed.

Lemma insert_role_do_nothing_cases (now : timestamptz) (d d' : Db)
      (row : uuid * (string * string)) :
  insert_role_do_nothing now d row = Some d' ->
  (In (fst (snd row)) (map r_name (roles d)) /\ d' = d)
  \/ (~ In (fst (snd row)) (map r_name (roles d))
      /\ ~ In (fst row) (map r_id (roles d))
      /\ d' = set_roles d
                (roles d ++ [mk_role (fst row) (fst (snd row))
                                     (Some (snd (snd row))) now now])).
Proof.
  unfold insert_role_do_nothing.
  destruct (existsb (fun r => String.eqb (r_name r) (fst (snd row))) (roles d))
    eqn:Hname.
  - intros [= <-]. left. split; [now apply name_in_catalog | reflexivity].
  - destruct (existsb (fun r => uuid_eqb (r_id r) (fst row)) (roles d))
      eqn:Hid; [discriminate|].
    intros [= <-]. right. repeat split.
    + rewrite <- name_in_catalog. congruence.
    + rewrite <- id_in_catalog. congruence.
Qed.

Lemma insert_roles_aborted (now : timestamptz)
      (rows : list (uuid * (string * string))) :
  fold_left
    (fun acc row =>
       match acc with
       | Some d => insert_role_do_nothing now d row
       | None => None
       end) rows None = None.
Proof. induction rows as [|row rows IH]; [reflexivity | exact IH]. Qed.

Lemma insert_roles_effect (now : timestamptz)
      (rows : list (uuid * (string * string))) :
  forall d d',
    insert_roles_do_nothing now d rows = Some d' ->
    user_roles d' = user_roles d /\ admin_users d' = admin_users d
    /\ auth_users d' = auth_users d
    /\ (exists added, roles d' = roles d ++ added)
    /\ (forall row, In row rows -> In (fst (snd row)) (map r_name (roles d')))
    /\ (NoDup (map r_name (roles d)) -> NoDup (map r_name (roles d')))
    /\ (NoDup (map r_id (roles d)) -> NoDup (map r_id (roles d'))).
Proof.
  unfold insert_roles_do_nothing.
  induction rows as [|row rows IH]; intros d d' Hfold.
  - injection Hfold as <-. repeat split; auto.
    + exists []. now rewrite app_nil_r.
    + intros row [].
  - cbn [fold_left] in Hfold.
    destruct (insert_role_do_nothing now d row) as [d1|] eqn:Hrow;
      [|now rewrite insert_roles_aborted in Hfold].
    destruct (IH _ _ Hfold) as (K1 & K2 & K3 & (added & K4) & K5 & K6 & K7).
    destruct (insert_role_do_nothing_cases _ _ _ Hrow)
      as [(Hname & ->) | (Hname & Hid & ->)].
    + repeat split; try assumption; [eauto|].
      intros row' [<-|Hin]; [|auto].
      rewrite K4, map_app. apply in_or_app. now left.
    + cbn [set_roles roles user_roles admin_users auth_users] in *.
      repeat split; try assumption.
      * exists ([mk_role (fst row) (fst (snd row)) (Some (snd (snd row)))
                        now now] ++ added).
        now rewrite K4, app_assoc.
      * intros row' [<-|Hin]; [|auto].
        rewrite K4, !map_app. apply in_or_app. left.
        apply in_or_app. right. now left.
      * intros Hnd. apply K6. rewrite map_app.
        apply NoDup_app; [assumption | repeat constructor; auto |].
        intros x Hx [<-|[]]. auto.
      * intros Hnd. apply K7. rewrite map_app.
        apply NoDup_app; [assumption | repeat constructor; auto |].
        intros x Hx [<-|[]]. auto.
Qed.

Lemma insert_roles_succeeds (now : timestamptz)
      (rows : list (uuid * (string * string))) :
  forall d,
    NoDup (map fst rows) ->
    (forall row, In row rows -> ~ In (fst row) (map r_id (roles d))) ->
    exists d', insert_roles_do_nothing now d rows = Some d'.
Proof.
  unfold insert_roles_do_nothing.
  induction rows as [|row rows IH]; intros d Hnd Hfresh;
    [eexists; reflexivity|].
  cbn [fold_left]. cbn [map] in Hnd. apply NoDup_cons_iff in Hnd.
  destruct Hnd as [Hhead Hnd].
  unfold insert_role_do_nothing at 2.
  destruct (existsb (fun r => String.eqb (r_name r) (fst (snd row))) (roles d)).
  - apply IH; [assumption|]. intros row' Hin. apply Hfresh. now right.
  - destruct (existsb (fun r => uuid_eqb (r_id r) (fst row)) (roles d))
      eqn:Hid.
    + exfalso. apply (Hfresh row (or_introl eq_refl)).
      now apply id_in_catalog.
    + apply IH; [assumption|]. intros row' Hin.
      cbn [set_roles roles]. rewrite map_app. intros H.
      apply in_app_or in H. destruct H as [H|[H|[]]].
      * apply (Hfresh row'); [now right | assumption].
      * cbn in H. apply Hhead. rewrite H. now apply in_map.
Qed.

Lemma insert_roles_settled (now : timestamptz)
      (rows : list (uuid * (string * string))) (d : Db) :
  (forall row, In row rows -> In (fst (snd row)) (map r_name (roles d))) ->
  insert_roles_do_nothing now d rows = Some d.
Proof.
  unfold insert_roles_do_nothing. intros Hall.
  induction rows as [|row rows IH]; [reflexivity|].
  cbn [fold_left]. unfold insert_role_do_nothing at 2.
  rewrite (proj2 (name_in_catalog d (fst (snd row))));
    [|apply Hall; now left].
  apply IH. intros row' Hin. apply Hall. now right.
Qed.

(** X17: The seeding of the catalog, with identifiers that are new and pairwise
    distinct: it goes through; it only appends to [roles] (a role already
    there keeps its row, description included) and touches no other table;
    the eight predefined names are in the catalog afterwards; role names and
    role identifiers that were unique stay unique; and seeding again, with
    whatever identifiers, changes nothing. *)
Theorem seed_roles_effect (gen : nat -> uuid) (db : Db) (now : timestamptz) :
  NoDup (map gen (seq 0 (List.length predefined_roles))) ->
  (forall k, k < List.length predefined_roles ->
             ~ In (gen k) (map r_id (roles db))) ->
  exists db',
    seed_roles gen db now = Some db'
    /\ user_roles db' = user_roles db /\ admin_users db' = admin_users db
    /\ auth_users db' = auth_users db
    /\ (exists added, roles db' = roles db ++ added)
    /\ (forall p, In p predefined_roles ->
                  In (fst p) (map r_name (roles db')))
    /\ (NoDup (map r_name (roles db)) -> NoDup (map r_name (roles db')))
    /\ (NoDup (map r_id (roles db)) -> NoDup (map r_id (roles db')))
    /\ (forall gen' now', seed_roles gen' db' now' = Some db').
Proof.
  intros Hnd Hfresh. unfold seed_roles.
  set (rows := combine (map gen (seq 0 (List.length predefined_roles)))
                       predefined_roles).
  assert (Hids : map fst rows = map gen (seq 0 (List.length predefined_roles)))
    by reflexivity.
  destruct (insert_roles_succeeds now rows db) as [db' Hrun].
  { now rewrite Hids. }
  { intros row Hin. apply (in_map fst) in Hin. rewrite Hids in Hin.
    apply in_map_iff in Hin. destruct Hin as (k & <- & Hk).
    apply in_seq in Hk. apply Hfresh. lia. }
  exists db'. split; [exact Hrun|].
  destruct (insert_roles_effect _ _ _ Hrun)
    as (K1 & K2 & K3 & K4 & K5 & K6 & K7).
  assert (Hnames : forall p, In p predefined_roles ->
                             In (fst p) (map r_name (roles db'))).
  { intros p Hp.
    assert (Hrow : exists id, In (id, p) rows).
    { cbn in Hp. unfold rows. cbn.
      repeat (destruct Hp as [<-|Hp]; [eexists; auto 10 |]).
      contradiction. }
    destruct Hrow as [id Hrow]. exact (K5 _ Hrow). }
  repeat (split; [assumption|]).
  intros gen' now'. apply insert_roles_settled.
  intros [id p] Hin. apply Hnames. now apply in_combine_r in Hin.
Qed.

Lemma seed_roles_witness :
  exists db',
    seed_roles (fun k => String (ascii_of_nat (48 + k)) "")
               (mk_db [] [] [] []) 1%N = Some db'
    /\ In "mantra_curator" (map r_name (roles db'))
    /\ NoDup (map r_name (roles db')).
Proof.
  destruct (@seed_roles_effect (fun k => String (ascii_of_nat (48 + k)) "")
              (mk_db [] [] [] []) 1%N)
    as (db' & Hrun & _ & _ & _ & _ & Hnames & Hnd & _).
  - vm_compute. repeat constructor; simpl; intuition discriminate.
  - intros k _ [].
  - exists db'. split; [exact Hrun|]. split.
    + apply (Hnames ("mantra_curator", "Create and edit blog posts/articles")).
      vm_compute. auto.
    + apply Hnd. constructor.
Defined.

(* ================================================================= *)
(** ** The admin policies of the other tables *)

Lemma legacy_admin_anon (db : Db) : legacy_admin db None = false.
Proof.
  unfold legacy_admin. cbn [auth_email].
  induction (admin_users db) as [|a l IH]; [reflexivity | exact IH].
Qed.

Lemma legacy_admin_is_admin (db : Db) (s : session) :
  legacy_admin db s = true -> is_admin db s = true.
Proof. intros H. rewrite is_admin_unfold, H. apply orb_true_r. Qed.

Lemma using_ok_app (R : Type) (l1 l2 : list (policy R)) (c : command)
      (db : Db) (s : session) (row : R) :
  using_ok (l1 ++ l2) c db s row
  = using_ok l1 c db s row || using_ok l2 c db s row.
Proof. unfold using_ok. apply existsb_app. Qed.

Lemma check_ok_app (R : Type) (l1 l2 : list (policy R)) (c : command)
      (db : Db) (s : session) (row : R) :
  check_ok (l1 ++ l2) c db s row
  = check_ok l1 c db s row || check_ok l2 c db s row.
Proof. unfold check_ok. apply existsb_app. Qed.

Lemma old_admin_gates (R : Type) (db : Db) (s : session) (row : R)
      (c : command) :
  using_ok (old_yoga_queries_policies R) c db s row
  = (command_eqb c SELECT || command_eqb c UPDATE) && legacy_admin db s
  /\ using_ok (old_contact_messages_policies R) c db s row
     = (command_eqb c SELECT || command_eqb c UPDATE) && legacy_admin db s
  /\ using_ok (old_bookings_policies R) c db s row
     = command_eqb c SELECT && legacy_admin db s.
Proof.
  destruct s as [u|].
  - destruct c; admin_policy_eval;
      now destruct (legacy_admin db (Some u)).
  - rewrite legacy_admin_anon. destruct c; repeat split.
Qed.

Lemma admin_gates (R : Type) (db : Db) (s : session) (row : R) (c : command) :
  using_ok (yoga_queries_policies R) c db s row
  = (command_eqb c SELECT || command_eqb c UPDATE) && is_admin db s
  /\ using_ok (contact_messages_policies R) c db s row
     = (command_eqb c SELECT || command_eqb c UPDATE) && is_admin db s
  /\ using_ok (bookings_policies R) c db s row
     = (command_eqb c SELECT || command_eqb c UPDATE) && is_admin db s.
Proof.
  destruct s as [u|].
  - destruct c; admin_policy_eval; now destruct (is_admin db (Some u)).
  - rewrite is_admin_anon. destruct c; repeat split.
Qed.

Lemma old_admin_checks (R : Type) (db : Db) (s : session) (row : R)
      (c : command) :
  check_ok (old_yoga_queries_policies R) c db s row
  = (command_eqb c SELECT || command_eqb c UPDATE) && legacy_admin db s
  /\ check_ok (old_contact_messages_policies R) c db s row
     = (command_eqb c SELECT || command_eqb c UPDATE) && legacy_admin db s
  /\ check_ok (old_bookings_policies R) c db s row
     = command_eqb c SELECT && legacy_admin db s.
Proof.
  destruct s as [u|].
  - destruct c; admin_policy_eval;
      now destruct (legacy_admin db (Some u)).
  - rewrite legacy_admin_anon. destruct c; repeat split.
Qed.

Lemma admin_checks (R : Type) (db : Db) (s : session) (row : R) (c : command) :
  check_ok (yoga_queries_policies R) c db s row
  = (command_eqb c SELECT || command_eqb c UPDATE) && is_admin db s
  /\ check_ok (contact_messages_policies R) c db s row
     = (command_eqb c SELECT || command_eqb c UPDATE) && is_admin db s
  /\ check_ok (bookings_policies R) c db s row
     = (command_eqb c SELECT || command_eqb c UPDATE) && is_admin db s.
Proof.
  destruct s as [u|].
  - destruct c; admin_policy_eval; now destruct (is_admin db (Some u)).
  - rewrite is_admin_anon. destruct c; repeat split.
Qed.

(** The legacy gate implies the new one, command by command. *)
Lemma legacy_gate_implies (g g' : bool) (x : bool) (db : Db) (s : session) :
  (g = true -> g' = true) ->
  x || g && legacy_admin db s = true ->
  x || g' && is_admin db s = true.
Proof.
  intros Hg H. apply orb_true_iff in H. apply orb_true_iff.
  destruct H as [H|H]; [now left | right].
  apply andb_true_iff in H. destruct H as [Hc Hl].
  apply legacy_admin_is_admin in Hl. now rewrite Hl, (Hg Hc).
Qed.

(** X18: The admin policies this migration creates on [yoga_queries],
    [contact_messages] and [bookings] let a caller reach an existing row
    (USING) and accept a new row (WITH CHECK, which they leave to USING) for
    SELECT and UPDATE exactly when [is_admin()] holds, and for INSERT and
    DELETE never.  Replacing the policies of the earlier migration by them
    takes no access away, for existing rows and for new ones, whatever other
    policies the table has. *)
Theorem admin_policies_keep_legacy_access
        (R : Type) (others : list (policy R))
        (db : Db) (s : session) (row : R) (c : command) :
  (forall pols,
     In pols [yoga_queries_policies R; contact_messages_policies R;
              bookings_policies R] ->
     (using_ok pols c db s row
      = (command_eqb c SELECT || command_eqb c UPDATE) && is_admin db s
      /\ check_ok pols c db s row
         = (command_eqb c SELECT || command_eqb c UPDATE) && is_admin db s)
     /\ (using_ok pols INSERT db s row = false
         /\ check_ok pols INSERT db s row = false
         /\ using_ok pols DELETE db s row = false
         /\ check_ok pols DELETE db s row = false))
  /\ (forall old new,
        In (old, new)
           [(old_yoga_queries_policies R, yoga_queries_policies R);
            (old_contact_messages_policies R, contact_messages_policies R);
            (old_bookings_policies R, bookings_policies R)] ->
        (using_ok (others ++ old) c db s row = true ->
         using_ok (others ++ new) c db s row = true)
        /\ (check_ok (others ++ old) c db s row = true ->
            check_ok (others ++ new) c db s row = true)).
Proof.
  split.
  - intros pols Hin.
    destruct (admin_gates db s row c) as (U1 & U2 & U3).
    destruct (admin_checks db s row c) as (C1 & C2 & C3).
    destruct (admin_gates db s row INSERT) as (UI1 & UI2 & UI3).
    destruct (admin_checks db s row INSERT) as (CI1 & CI2 & CI3).
    destruct (admin_gates db s row DELETE) as (UD1 & UD2 & UD3).
    destruct (admin_checks db s row DELETE) as (CD1 & CD2 & CD3).
    destruct Hin as [<-|[<-|[<-|[]]]]; repeat split; assumption.
  - intros old new Hin.
    destruct (old_admin_gates db s row c) as (O1 & O2 & O3).
    destruct (admin_gates db s row c) as (N1 & N2 & N3).
    destruct (old_admin_checks db s row c) as (P1 & P2 & P3).
    destruct (admin_checks db s row c) as (Q1 & Q2 & Q3).
    destruct Hin as [E|[E|[E|[]]]]; inversion E; subst old new;
      rewrite !using_ok_app, !check_ok_app;
      rewrite ?O1, ?O2, ?O3, ?N1, ?N2, ?N3, ?P1, ?P2, ?P3, ?Q1, ?Q2, ?Q3;
      split; apply legacy_gate_implies; auto;
      intros ->; reflexivity.
Qed.

Lemma admin_policies_witness :
  using_ok ([] ++ yoga_queries_policies unit) SELECT Sample.db
           (Some Sample.alice) tt = true
  /\ check_ok ([] ++ bookings_policies unit) SELECT Sample.db
              (Some Sample.alice) tt = true
  /\ check_ok (contact_messages_policies unit) INSERT Sample.db
              (Some Sample.root) tt = false.
Proof.
  destruct (admin_policies_keep_legacy_access [] Sample.db
              (Some Sample.alice) tt SELECT) as (_ & Hkeep).
  destruct (admin_policies_keep_legacy_access [] Sample.db
              (Some Sample.root) tt SELECT) as (Hgate & _).
  destruct (Hkeep (old_yoga_queries_policies unit)
                  (yoga_queries_policies unit) (or_introl eq_refl))
    as [Hq _].
  destruct (Hkeep (old_bookings_policies unit) (bookings_policies unit)
                  (or_intror (or_intror (or_introl eq_refl))))
    as [_ Hb].
  destruct (Hgate (contact_messages_policies unit)
                  (or_intror (or_introl eq_refl)))
    as (_ & _ & Hins & _).
  split; [apply Hq; reflexivity | split; [apply Hb; reflexivity | exact Hins]].
Defined.

(* ================================================================= *)
(** ** The listing of the [RoleManagement] component *)

Lemma count_underscores_app (a b : string) :
  count_underscores (a ++ b) = count_underscores a + count_underscores b.
Proof.
  induction a as [|c a IH]; [reflexivity|].
  cbn [String.append count_underscores]. rewrite IH. lia.
Qed.

(** A name without an underscore is its own label; otherwise the name splits
    at its first underscore, and the label has a space there. *)
Lemma replace_underscore_split (name : string) :
  (count_underscores name = 0 /\ replace_underscore name = name)
  \/ (exists pre post,
        name = (pre ++ String "_"%char post)%string
        /\ count_underscores pre = 0
        /\ replace_underscore name = (pre ++ String " "%char post)%string).
Proof.
  induction name as [|c rest IH].
  - left. split; reflexivity.
  - cbn [replace_underscore count_underscores].
    destruct (Ascii.eqb c "_"%char) eqn:Hc.
    + right. apply Ascii.eqb_eq in Hc. subst c.
      exists EmptyString, rest. repeat split.
    + destruct IH as [(H0 & Hsame) | (pre & post & Hname & Hpre & Hlabel)].
      * left. split; [exact H0 | now rewrite Hsame].
      * right. exists (String c pre), post.
        cbn [String.append count_underscores]. rewrite Hc, Hpre, Hlabel.
        repeat split. now rewrite Hname.
Qed.

(** X25: [role.name.replace('_', ' ')] replaces the first underscore only, by
    a space: a name without an underscore is its own label; a name that
    reads [pre], an underscore, [post], with no underscore in [pre], has the
    label [pre], a space, [post], whatever underscores [post] has; every name
    is of one of the two kinds.  So the label has the length of the name and
    one underscore less (none less when the name has none). *)
Theorem replace_underscore_first_only (name : string) :
  (count_underscores name = 0 -> replace_underscore name = name)
  /\ (forall pre post,
        name = (pre ++ String "_"%char post)%string ->
        count_underscores pre = 0 ->
        replace_underscore name = (pre ++ String " "%char post)%string)
  /\ (count_underscores name = 0
      \/ exists pre post,
           name = (pre ++ String "_"%char post)%string
           /\ count_underscores pre = 0)
  /\ String.length (replace_underscore name) = String.length name
  /\ count_underscores (replace_underscore name)
     = pred (count_underscores name).
Proof.
  split; [|split; [|split; [|split]]].
  - intros H0.
    destruct (replace_underscore_split name)
      as [(_ & Hsame) | (pre & post & Hname & _ & _)]; [exact Hsame|].
    rewrite Hname, count_underscores_app in H0.
    cbn [count_underscores] in H0. rewrite Ascii.eqb_refl in H0. lia.
  - intros pre post -> Hpre.
    induction pre as [|c pre IH].
    + cbn. reflexivity.
    + cbn [String.append replace_underscore count_underscores] in *.
      destruct (Ascii.eqb c "_"%char); [discriminate Hpre|].
      now rewrite IH.
  - destruct (replace_underscore_split name)
      as [(H0 & _) | (pre & post & Hname & Hpre & _)]; [now left|].
    right. eauto.
  - induction name as [|c rest IH]; [reflexivity|].
    cbn [replace_underscore]. destruct (Ascii.eqb c "_"%char);
      [reflexivity|]. cbn [String.length]. now rewrite IH.
  - induction name as [|c rest IH]; [reflexivity|].
    cbn [replace_underscore count_underscores].
    destruct (Ascii.eqb c "_"%char) eqn:Hc; [reflexivity|].
    cbn [count_underscores]. now rewrite Hc, IH.
Qed.

Lemma replace_underscore_witness :
  replace_underscore "energy_exchange_lead" = "energy exchange_lead"
  /\ replace_underscore "admin" = "admin".
Proof.
  destruct (replace_underscore_first_only "energy_exchange_lead")
    as (_ & Hfirst & _).
  destruct (replace_underscore_first_only "admin") as (Hnone & _).
  split.
  - apply (Hfirst "energy" "exchange_lead"); reflexivity.
  - apply Hnone. reflexivity.
Defined.

Lemma map_has_In (m : list (string * list string)) (k : string) :
  map_has m k = true <-> In k (map fst m).
Proof.
  unfold map_has. rewrite existsb_exists, in_map_iff.
  split; intros (kv & H1 & H2); exists kv.
  - apply String.eqb_eq in H2. auto.
  - split; [assumption | now apply String.eqb_eq].
Qed.

Lemma map_push_keys (m : list (string * list string)) (k v : string) :
  map fst (map_push m k v) = map fst m.
Proof.
  unfold map_push. rewrite map_map. apply map_ext.
  intros kv. now destruct (String.eqb (fst kv) k).
Qed.

Lemma in_map_values (m : list (string * list string)) (k N : string) :
  In N (map_values m k) <-> exists vs, In (k, vs) m /\ In N vs.
Proof.
  unfold map_values. rewrite in_flat_map. split.
  - intros ([k' vs] & Hin & HN). cbn [fst snd] in HN.
    destruct (String.eqb k' k) eqn:E; [|contradiction].
    apply String.eqb_eq in E. subst k'. eauto.
  - intros (vs & Hin & HN). exists (k, vs). split; [assumption|].
    cbn [fst snd]. now rewrite String.eqb_refl.
Qed.

Lemma in_map_push (m : list (string * list string)) (k v k' N : string) :
  In N (map_values (map_push m k v) k') <->
  In N (map_values m k') \/ (k' = k /\ N = v /\ In k (map fst m)).
Proof.
  rewrite !in_map_values. unfold map_push. split.
  - intros (vs & Hin & HN). apply in_map_iff in Hin.
    destruct Hin as ([k0 vs0] & E & Hin0). cbn [fst snd] in E.
    destruct (String.eqb k0 k) eqn:Ek.
    + apply String.eqb_eq in Ek. subst k0. inversion E; subst.
      apply in_app_or in HN. destruct HN as [HN | [<- | []]].
      * left. eauto.
      * right. repeat split. now apply (in_map fst) in Hin0.
    + inversion E; subst. left. eauto.
  - intros [(vs & Hin & HN) | (-> & -> & Hk)].
    + destruct (String.eqb k' k) eqn:Ek.
      * exists (vs ++ [v]). split; [|apply in_or_app; now left].
        apply in_map_iff. exists (k', vs). cbn [fst snd]. now rewrite Ek.
      * exists vs. split; [|assumption].
        apply in_map_iff. exists (k', vs). cbn [fst snd]. now rewrite Ek.
    + apply in_map_iff in Hk. destruct Hk as ([k0 vs0] & E & Hin0).
      cbn in E. subst k0. exists (vs0 ++ [v]).
      split; [|apply in_or_app; right; now left].
      apply in_map_iff. exists (k, vs0). cbn [fst snd].
      now rewrite String.eqb_refl.
Qed.

(** One [forEach] step of the grouping. *)
Lemma group_item_spec (m : list (string * list string))
      (item : uuid * option string) :
  (forall k, In k (map fst (group_item m item)) <->
             In k (map fst m) \/ k = fst item)
  /\ (NoDup (map fst m) -> NoDup (map fst (group_item m item)))
  /\ (forall k N,
        In N (map_values (group_item m item) k) <->
        In N (map_values m k)
        \/ (k = fst item /\ snd item = Some N /\ N <> "")).
Proof.
  destruct item as [userId roleName]. unfold group_item. cbn [fst snd].
  set (m1 := if map_has m userId then m else m ++ [(userId, [])]).
  assert (Hkeys : forall k, In k (map fst m1) <-> In k (map fst m) \/ k = userId).
  { intros k. unfold m1. destruct (map_has m userId) eqn:Hhas.
    - apply map_has_In in Hhas. split; [now left|].
      intros [H| ->]; assumption.
    - rewrite map_app, in_app_iff. cbn. intuition. }
  assert (Hnd : NoDup (map fst m) -> NoDup (map fst m1)).
  { intros H. unfold m1. destruct (map_has m userId) eqn:Hhas; [assumption|].
    rewrite map_app. apply NoDup_app; [assumption | repeat constructor; auto |].
    intros k Hk [<-|[]]. cbn [fst] in Hk. apply map_has_In in Hk.
    congruence. }
  assert (Hvals : forall k N, In N (map_values m1 k) <-> In N (map_values m k)).
  { intros k N. unfold m1. destruct (map_has m userId); [reflexivity|].
    rewrite !in_map_values. split.
    - intros (vs & Hin & HN). apply in_app_or in Hin.
      destruct Hin as [Hin | [E | []]]; [eauto|].
      inversion E; subst. contradiction.
    - intros (vs & Hin & HN). exists vs. split; [|assumption].
      apply in_or_app. now left. }
  assert (Hself : In userId (map fst m1)) by (apply Hkeys; now right).
  destruct roleName as [N0|].
  - destruct (String.eqb N0 "") eqn:Eempty.
    + apply String.eqb_eq in Eempty. subst N0.
      split; [exact Hkeys | split; [exact Hnd|]].
      intros k N. rewrite Hvals. split; [now left|].
      intros [H | (_ & E & Hne)]; [assumption|]. congruence.
    + apply String.eqb_neq in Eempty.
      split; [|split].
      * intros k. rewrite map_push_keys. apply Hkeys.
      * rewrite map_push_keys. exact Hnd.
      * intros k N. rewrite in_map_push, Hvals. split.
        -- intros [H | (-> & -> & _)]; [now left|]. right. auto.
        -- intros [H | (-> & E & _)]; [now left|]. right.
           inversion E. auto.
  - split; [exact Hkeys | split; [exact Hnd|]].
    intros k N. rewrite Hvals. split; [now left|].
    intros [H | (_ & E & _)]; [assumption | discriminate].
Qed.

(** The whole grouping. *)
Lemma group_spec (data : list (uuid * option string)) :
  forall m,
    (forall k, In k (map fst (fold_left group_item data m)) <->
               In k (map fst m) \/ In k (map fst data))
    /\ (NoDup (map fst m) -> NoDup (map fst (fold_left group_item data m)))
    /\ (forall k N,
          In N (map_values (fold_left group_item data m) k) <->
          In N (map_values m k) \/ (In (k, Some N) data /\ N <> "")).
Proof.
  induction data as [|item data IH]; intros m.
  - cbn. repeat split; intuition.
  - cbn [fold_left].
    destruct (IH (group_item m item)) as (K1 & K2 & K3).
    destruct (group_item_spec m item) as (G1 & G2 & G3).
    split; [|split].
    + intros k. rewrite K1, G1. cbn [map In].
      split; [intros [[H| ->]|H] | intros [H|[<-|H]]]; auto.
    + auto.
    + intros k N. rewrite K3, G3. cbn [In]. split.
      * intros [[H | (-> & E & Hne)] | (Hin & Hne)]; auto.
        right. split; [left|assumption].
        destruct item as [i v]. cbn [fst snd] in E. now subst v.
      * intros [H | ([E | Hin] & Hne)]; auto.
        left. right. subst item. cbn. auto.
Qed.

Lemma fetchUsersWithRoles_run (s : session) (w : World) :
  faults w = [] ->
  fetchUsersWithRoles s w
  = (Ok (listing (store w) s), w).
Proof.
  destruct w as [db clk fs]. cbn [faults]. intros ->.
  unfold fetchUsersWithRoles, bind, select_user_roles_with_names.
  rewrite request_no_fault by reflexivity. reflexivity.
Qed.

Lemma listing_entry_ids (m : list (string * list string)) :
  map uw_id (map listing_entry m) = map fst m.
Proof. rewrite map_map. now apply map_ext. Qed.

Lemma listing_entry_roles (m : list (string * list string)) (I : string) :
  listed_roles (map listing_entry m) I = map_values m I.
Proof.
  unfold listed_roles, map_values.
  induction m as [|kv m IH]; [reflexivity|].
  cbn [map flat_map listing_entry uw_id uw_roles]. now rewrite IH.
Qed.

Lemma in_listing_rows (db : Db) (s : session) (I : uuid) (v : option string) :
  In (I, v) (listing_rows db s) <->
  exists ur,
    In ur (user_roles db) /\ readable db s ur = true /\ ur_user_id ur = I
    /\ option_map r_name
         (find (fun r => uuid_eqb (r_id r) (ur_role_id ur)) (roles db)) = v.
Proof.
  unfold listing_rows, readable. rewrite visible_roles, in_map_iff. split.
  - intros (ur & E & Hin). apply filter_In in Hin. inversion E; subst.
    exists ur. tauto.
  - intros (ur & Hur & Hread & <- & <-). exists ur.
    split; [reflexivity|]. now apply filter_In.
Qed.

(** What the listing is, for any caller. *)
Lemma listing_spec (db : Db) (s : session) :
  NoDup (map uw_id (listing db s))
  /\ (forall I,
        In I (map uw_id (listing db s)) <->
        exists ur, In ur (user_roles db)
                   /\ readable db s ur = true /\ ur_user_id ur = I)
  /\ (forall I N,
        In N (listed_roles (listing db s) I) <->
        N <> ""
        /\ exists ur r,
             In ur (user_roles db)
             /\ readable db s ur = true /\ ur_user_id ur = I
             /\ find (fun r => uuid_eqb (r_id r) (ur_role_id ur))
                     (roles db) = Some r
             /\ r_name r = N)
  /\ (forall u, In u (listing db s) ->
        uw_email u
        = ("user-" ++ substring 0 8 (uw_id u) ++ "@example.com")%string).
Proof.
  unfold listing.
  destruct (group_spec (listing_rows db s) []) as (K1 & K2 & K3).
  rewrite listing_entry_ids. split; [|split; [|split]].
  - apply K2. constructor.
  - intros I. rewrite K1. cbn [map In]. split.
    + intros [[] | Hin]. apply in_map_iff in Hin.
      destruct Hin as ([I' v] & E & Hin). cbn [fst] in E. subst I'.
      apply in_listing_rows in Hin. destruct Hin as (ur & H1 & H2 & H3 & _).
      eauto.
    + intros (ur & H1 & H2 & H3). right. apply in_map_iff.
      eexists (I, _). split; [reflexivity|].
      apply in_listing_rows. eauto.
  - intros I N. rewrite listing_entry_roles, K3. cbn [map_values flat_map In].
    split.
    + intros [[] | (Hin & Hne)]. split; [assumption|].
      apply in_listing_rows in Hin. destruct Hin as (ur & H1 & H2 & H3 & H4).
      destruct (find _ (roles db)) as [r|] eqn:Hfind; [|discriminate].
      injection H4 as H4. exists ur, r. auto.
    + intros (Hne & ur & r & H1 & H2 & H3 & H4 & H5). right.
      split; [|assumption]. apply in_listing_rows. exists ur.
      repeat (split; [assumption|]). rewrite H4. cbn. now rewrite H5.
  - intros u Hu. apply in_map_iff in Hu. destruct Hu as (kv & <- & _).
    reflexivity.
Qed.

(** X19: The listing of [fetchUsersWithRoles] on a reachable store: the request
    returns it and leaves the world as it is; every user with a row the
    caller can read appears exactly once, under a placeholder email made of
    the first eight characters of the identifier, with the names of the roles
    of those rows; a row whose role has an empty name adds the user but no
    role. *)
Theorem fetchUsersWithRoles_groups_readable_rows (s : session) (w : World) :
  faults w = [] ->
  let users := listing (store w) s in
  fetchUsersWithRoles s w = (Ok users, w)
  /\ NoDup (map uw_id users)
  /\ (forall I,
        In I (map uw_id users) <->
        exists ur, In ur (user_roles (store w))
                   /\ readable (store w) s ur = true /\ ur_user_id ur = I)
  /\ (forall I N,
        In N (listed_roles users I) <->
        N <> ""
        /\ exists ur r,
             In ur (user_roles (store w))
             /\ readable (store w) s ur = true /\ ur_user_id ur = I
             /\ find (fun r => uuid_eqb (r_id r) (ur_role_id ur))
                     (roles (store w)) = Some r
             /\ r_name r = N)
  /\ (forall u, In u users ->
        uw_email u
        = ("user-" ++ substring 0 8 (uw_id u) ++ "@example.com")%string).
Proof.
  intros Hf users. split.
  - now apply fetchUsersWithRoles_run.
  - apply listing_spec.
Qed.

Lemma fetchUsersWithRoles_groups_witness :
  fetchUsersWithRoles (Some Sample.root) Sample.world
  = (Ok (listing Sample.db (Some Sample.root)), Sample.world)
  /\ NoDup (map uw_id (listing Sample.db (Some Sample.root))).
Proof.
  destruct (fetchUsersWithRoles_groups_readable_rows (Some Sample.root)
              Sample.world eq_refl) as (Hrun & Hnd & _).
  split; assumption.
Defined.

Lemma can_manage_is_admin (db : Db) (s : session) :
  can_manage_roles db s = true -> is_admin db s = true.
Proof.
  intros H. apply has_role_In, includes_In in H.
  rewrite is_admin_unfold. unfold hasAnyRole. cbn [existsb holding st_roles].
  rewrite H. now rewrite !orb_true_r.
Qed.

(** Which rows of [user_roles] a caller can read. *)
Lemma readable_unfold (db : Db) (s : session) (ur : user_role_row) :
  readable db s ur
  = match s with
    | Some _ => sql_eq (ur_user_id ur) (auth_uid s)
                || is_admin db s || can_manage_roles db s
    | None => false
    end.
Proof.
  unfold readable. destruct s as [u|]; policy_eval; [|reflexivity].
  now rewrite orb_false_r, orb_assoc.
Qed.

Lemma listing_for_manager (db : Db) (s : session) (I N : string) :
  can_manage_roles db s = true ->
  NoDup (map r_id (roles db)) ->
  In N (listed_roles (listing db s) I) <-> N <> "" /\ In N (rolesFor db I).
Proof.
  intros Hcm Hnd. destruct (listing_spec db s) as (_ & _ & Hroles & _).
  rewrite Hroles, in_rolesFor. split.
  - intros (Hne & ur & r & H1 & _ & H3 & Hfind & H5).
    apply find_some in Hfind. destruct Hfind as (Hr & Hid).
    apply String.eqb_eq in Hid. split; [assumption|].
    exists ur, r. auto.
  - intros (Hne & ur & r & H1 & Hr & Hid & H4 & H5).
    split; [assumption|].
    destruct (find (fun r0 => uuid_eqb (r_id r0) (ur_role_id ur))
                   (roles db)) as [r0|] eqn:Hfind.
    + exists ur, r0. repeat (split; [assumption|]).
      split; [rewrite readable_unfold; destruct s as [u|];
              [rewrite Hcm; apply orb_true_r
              | now rewrite can_manage_roles_anon in Hcm]|].
      split; [assumption|]. split; [exact Hfind|].
      apply find_some in Hfind. destruct Hfind as (Hr0 & Hid0).
      apply String.eqb_eq in Hid0. rewrite <- H5. f_equal.
      eapply role_id_unique; [exact Hnd | assumption | assumption | congruence].
    + apply (find_none _ _ Hfind) in Hr. unfold uuid_eqb in Hr.
      rewrite <- Hid, String.eqb_refl in Hr. discriminate.
Qed.

(** X20: For a caller who may manage roles, the listing is the assignment store:
    the roles listed under an identity are the roles [rolesFor] returns for
    it, those with an empty name left out (role identifiers being unique),
    and the identities listed are those with a row. *)
Theorem super_admin_listing_is_rolesFor (s : session) (w : World) :
  faults w = [] ->
  can_manage_roles (store w) s = true ->
  NoDup (map r_id (roles (store w))) ->
  fetchUsersWithRoles s w = (Ok (listing (store w) s), w)
  /\ (forall I N,
        In N (listed_roles (listing (store w) s) I) <->
        N <> "" /\ In N (rolesFor (store w) I))
  /\ (forall I,
        In I (map uw_id (listing (store w) s)) <->
        In I (map ur_user_id (user_roles (store w)))).
Proof.
  intros Hf Hcm Hnd. split; [now apply fetchUsersWithRoles_run|]. split.
  - intros I N. now apply listing_for_manager.
  - intros I. destruct (listing_spec (store w) s) as (_ & Hids & _).
    rewrite Hids, in_map_iff. split.
    + intros (ur & H1 & _ & H3). eauto.
    + intros (ur & H3 & H1). exists ur. repeat split; try assumption.
      rewrite readable_unfold. destruct s as [u|];
        [rewrite Hcm; apply orb_true_r
        | now rewrite can_manage_roles_anon in Hcm].
Qed.

Lemma super_admin_listing_witness :
  In "mantra_curator" (listed_roles (listing Sample.db (Some Sample.root)) "u3")
  <-> "mantra_curator" <> "" /\ In "mantra_curator" (rolesFor Sample.db "u3").
Proof.
  destruct (super_admin_listing_is_rolesFor (Some Sample.root) Sample.world)
    as (_ & H & _).
  - reflexivity.
  - reflexivity.
  - vm_compute. repeat constructor; simpl; intuition discriminate.
  - apply H.
Defined.

Lemma at_most_one (l : list string) (a : string) :
  NoDup l -> (forall x, In x l -> x = a) -> List.length l <= 1.
Proof.
  intros Hnd Hall. destruct l as [|x [|y l]]; cbn; try lia.
  exfalso. inversion Hnd as [|? ? Hx _]; subst. apply Hx.
  rewrite (Hall x), (Hall y); cbn; auto.
Qed.

(** X21: For a caller who is not an admin, the listing shows nobody else: every
    entry is the caller's own, so there is at most one; without a signed-in
    user it is empty. *)
Theorem non_admin_listing_is_own (s : session) (w : World) :
  faults w = [] ->
  is_admin (store w) s = false ->
  fetchUsersWithRoles s w = (Ok (listing (store w) s), w)
  /\ (forall u, In u (listing (store w) s) -> auth_uid s = Some (uw_id u))
  /\ List.length (listing (store w) s) <= 1
  /\ (s = None -> listing (store w) s = []).
Proof.
  intros Hf Hadmin. split; [now apply fetchUsersWithRoles_run|].
  destruct (listing_spec (store w) s) as (Hnd & Hids & _).
  assert (Hcm : can_manage_roles (store w) s = false).
  { apply not_true_is_false. intros H. apply can_manage_is_admin in H.
    congruence. }
  assert (Hown : forall I, In I (map uw_id (listing (store w) s)) ->
                           auth_uid s = Some I).
  { intros I HI. apply Hids in HI. destruct HI as (ur & _ & Hread & <-).
    rewrite readable_unfold in Hread. destruct s as [u|]; [|discriminate].
    rewrite Hadmin, Hcm, !orb_false_r in Hread. now apply sql_eq_true. }
  split; [|split].
  - intros u Hu. apply Hown. now apply in_map.
  - rewrite <- (length_map uw_id). destruct s as [u|].
    + apply (at_most_one (a := u_id u)); [assumption|].
      intros I HI. apply Hown in HI. cbn in HI. congruence.
    + destruct (map uw_id (listing (store w) None)) as [|I l] eqn:E;
        [cbn; lia|].
      specialize (Hown I (or_introl eq_refl)). discriminate.
  - intros ->. destruct (listing (store w) None) as [|u l] eqn:E;
      [reflexivity|].
    specialize (Hown (uw_id u) (or_introl eq_refl)). discriminate.
Qed.

Lemma non_admin_listing_witness :
  List.length (listing Sample.db (Some Sample.bob)) <= 1.
Proof.
  destruct (non_admin_listing_is_own (Some Sample.bob) Sample.world)
    as (_ & _ & Hlen & _).
  - reflexivity.
  - reflexivity.
  - exact Hlen.
Defined.

(** X15: Once the migration has run, the fallback on the old admin table adds
    nothing for a user the loop found by its email: [is_admin()] is the role
    test alone, which is what the client-side [isAdmin()] computes after a
    fetch that went through. *)
Theorem migration_makes_the_fallback_redundant
        (db db' : Db) (now : timestamptz) (u : auth_user) (e : string) :
  migrate_admin_users db now = Some db' ->
  u_email u = Some e ->
  select_user_id_into db e = Some (u_id u) ->
  is_admin db' (Some u)
  = hasAnyRole (holding (get_user_roles db' (Some u))) ["admin"; "super_admin"]
  /\ (forall st clk,
        isAdmin (fst (fetchUserRoles (Some u) st (mk_world db' clk [])))
        = is_admin db' (Some u)).
Proof.
  intros Hrun Hemail Hsel.
  assert (Hred : is_admin db' (Some u)
                 = hasAnyRole (holding (get_user_roles db' (Some u)))
                              ["admin"; "super_admin"]).
  { rewrite is_admin_unfold.
    destruct (legacy_admin db' (Some u)) eqn:Hlegacy;
      [|apply orb_false_r].
    unfold legacy_admin in Hlegacy. apply existsb_exists in Hlegacy.
    destruct Hlegacy as (a & Ha & Hmatch).
    apply andb_true_iff in Hmatch. destruct Hmatch as [Hmail _].
    apply sql_eq_true in Hmail. cbn [auth_email] in Hmail.
    assert (Ea : au_email a = e) by congruence.
    assert (Hadm : admin_users db' = admin_users db).
    { unfold migrate_admin_users in Hrun. cbv zeta in Hrun.
      now destruct (@migrate_loop_effect _ _ _ _ _ _ Hrun) as (_ & H2 & _). }
    rewrite Hadm in Ha. rewrite <- Ea in Hsel.
    pose proof (migrated_user_has_role db now a Hrun Ha Hsel) as Hrole.
    rewrite rolesFor_session.
    rewrite (migrated_role_is_admin a _ Hrole). reflexivity. }
  split; [exact Hred|].
  intros st clk. rewrite fetchUserRoles_ok by reflexivity.
  cbn [fst store]. now rewrite Hred.
Qed.

Lemma migration_fallback_witness :
  is_admin (inserted Sample.fresh 7%N "u2" "r2") (Some Sample.alice)
  = hasAnyRole
      (holding (get_user_roles (inserted Sample.fresh 7%N "u2" "r2")
                               (Some Sample.alice)))
      ["admin"; "super_admin"].
Proof.
  destruct (@migration_makes_the_fallback_redundant Sample.fresh
              (inserted Sample.fresh 7%N "u2" "r2") 7%N Sample.alice
              "a@x.com") as [H _].
  - reflexivity.
  - reflexivity.
  - reflexivity.
  - exact H.
Defined.

(** X22: A super admin assigning, through the component, a catalog role to a user
    who does not hold it: the handler announces the success, the user holds
    the role in the store, and the refreshed listing of the component shows
    the role under that user. *)
Theorem handleAssignRole_success
        (s : session) (rst : RmState) (I N : string) (w : World) :
  faults w = [] ->
  rm_roles rst = roles (store w) ->
  NoDup (map r_name (roles (store w))) ->
  NoDup (map r_id (roles (store w))) ->
  In N (map r_name (roles (store w))) ->
  N <> "" ->
  can_manage_roles (store w) s = true ->
  In I (map u_id (auth_users (store w))) ->
  ~ In N (rolesFor (store w) I) ->
  let rst' := fst (fst (handleAssignRole s rst I N w)) in
  let w' := snd (handleAssignRole s rst I N w) in
  snd (fst (handleAssignRole s rst I N w)) = ["Role assigned successfully!"]
  /\ In N (rolesFor (store w') I)
  /\ rm_users rst' = listing (store w') s
  /\ In N (listed_roles (rm_users rst') I)
  /\ rm_roles rst' = rm_roles rst.
Proof.
  intros Hf Hrst Hnames Hids Hcat Hne Hcm Huser Hnot.
  destruct (named_catalog _ N Hnames Hcat) as [r Hn].
  destruct (named_single _ _ Hn) as (Hr & Hname & Huniq).
  assert (Hfree : pk_free (store w) I (r_id r) = true).
  { apply not_false_is_true. intros H. apply Hnot.
    now apply (held_iff_key _ I _ Hn). }
  assert (Hfk : fk_ok (store w) I (r_id r) = true).
  { apply fk_ok_true. split; [assumption | now apply in_map]. }
  assert (Hfind : find (fun r0 => String.eqb (r_name r0) N) (roles (store w))
                  = Some r).
  { destruct (find (fun r0 => String.eqb (r_name r0) N) (roles (store w)))
      as [r0|] eqn:E.
    - apply find_some in E. destruct E as (Hin & E).
      apply String.eqb_eq in E. now rewrite (Huniq r0 Hin E).
    - apply (find_none _ _ E) in Hr.
      rewrite Hname, String.eqb_refl in Hr. discriminate. }
  set (db1 := inserted (store w) (clock w) I (r_id r)).
  assert (Hheld : In N (rolesFor db1 I)).
  { apply (held_iff_key _ I _ (r := r)); [exact Hn|].
    apply inserted_not_free. }
  assert (Hrun : handleAssignRole s rst I N w
                 = (mk_rm (rm_roles rst) (listing db1 s),
                    ["Role assigned successfully!"],
                    mk_world db1 (clock w) [])).
  { unfold handleAssignRole. rewrite Hrst, Hfind. unfold bind.
    rewrite insert_user_role_no_fault, Hcm, Hfree, Hfk by assumption.
    cbn [negb]. rewrite fetchUsersWithRoles_run by reflexivity.
    reflexivity. }
  cbv zeta. rewrite Hrun. cbn [fst snd store rm_users rm_roles].
  repeat split; try assumption.
  apply listing_for_manager; [|assumption|auto].
  now apply can_manage_roles_inserted.
Qed.

Lemma handleAssignRole_success_witness :
  snd (fst (handleAssignRole (Some Sample.root) (mk_rm Sample.catalog [])
                             "u2" "admin" Sample.world))
  = ["Role assigned successfully!"]
  /\ In "admin"
        (listed_roles
           (rm_users (fst (fst (handleAssignRole (Some Sample.root)
                                  (mk_rm Sample.catalog []) "u2" "admin"
                                  Sample.world)))) "u2").
Proof.
  destruct (@handleAssignRole_success (Some Sample.root)
              (mk_rm Sample.catalog []) "u2" "admin" Sample.world)
    as (Halert & _ & _ & Hlisted & _).
  - reflexivity.
  - reflexivity.
  - vm_compute. repeat constructor; simpl; intuition discriminate.
  - vm_compute. repeat constructor; simpl; intuition discriminate.
  - vm_compute. auto.
  - discriminate.
  - reflexivity.
  - vm_compute. auto.
  - vm_compute. auto.
  - split; assumption.
Defined.

(* ================================================================= *)
(** ** [rolesFor] is a set *)

Lemma role_name_unique (rs : list role_row) (r r' : role_row) :
  NoDup (map r_name rs) -> In r rs -> In r' rs -> r_name r = r_name r' ->
  r = r'.
Proof.
  induction rs as [|a rs IH]; intros Hnd Hr Hr' E; [contradiction|].
  cbn [map] in Hnd. apply NoDup_cons_iff in Hnd. destruct Hnd as [Hfresh Hnd].
  destruct Hr as [->|Hr], Hr' as [->|Hr'].
  - reflexivity.
  - exfalso. apply Hfresh. rewrite E. now apply in_map.
  - exfalso. apply Hfresh. rewrite <- E. now apply in_map.
  - now apply IH.
Qed.

Lemma assignment_key_unique (urs : list user_role_row) (ur ur' : user_role_row) :
  NoDup (map ur_key urs) -> In ur urs -> In ur' urs -> ur_key ur = ur_key ur' ->
  ur = ur'.
Proof.
  induction urs as [|a urs IH]; intros Hnd Hu Hu' E; [contradiction|].
  cbn [map] in Hnd. apply NoDup_cons_iff in Hnd. destruct Hnd as [Hfresh Hnd].
  destruct Hu as [->|Hu], Hu' as [->|Hu'].
  - reflexivity.
  - exfalso. apply Hfresh. rewrite E. now apply in_map.
  - exfalso. apply Hfresh. rewrite <- E. now apply in_map.
  - now apply IH.
Qed.

(** The join lists each (assignment, role) pair once. *)
Lemma ur_join_r_NoDup (db : Db) :
  pk_user_roles db -> NoDup (map r_id (roles db)) -> NoDup (ur_join_r db).
Proof.
  unfold pk_user_roles, ur_join_r. intros Hpk Hids.
  apply NoDup_map_inv in Hids.
  induction (user_roles db) as [|ur urs IH]; [constructor|].
  cbn [map] in Hpk. apply NoDup_cons_iff in Hpk. destruct Hpk as [Hfresh Hpk].
  cbn [flat_map]. apply NoDup_app.
  - apply NoDup_map_NoDup_ForallPairs; [|now apply NoDup_filter].
    intros r r' _ _ E. now inversion E.
  - now apply IH.
  - intros [ur0 r0] Hin Hin'. apply in_map_iff in Hin.
    destruct Hin as (r & E & _). inversion E; subst.
    apply in_flat_map in Hin'. destruct Hin' as (ur' & Hur' & Hin').
    apply in_map_iff in Hin'. destruct Hin' as (r' & E' & _).
    inversion E'; subst. apply Hfresh. now apply in_map.
Qed.

(** X11: Under the keys of the schema (the primary keys of [user_roles] and of
    [roles], the UNIQUE of [roles.name]) a role name comes at most once out
    of [get_user_roles()]: the list [rolesFor] returns is a set. *)
Theorem rolesFor_has_no_duplicates (db : Db) (s : session) (I : uuid) :
  pk_user_roles db ->
  NoDup (map r_id (roles db)) ->
  NoDup (map r_name (roles db)) ->
  NoDup (get_user_roles db s) /\ NoDup (rolesFor db I).
Proof.
  intros Hpk Hids Hnames.
  assert (Hset : forall s0, NoDup (get_user_roles db s0)).
  { intros s0. unfold get_user_roles.
    apply NoDup_map_NoDup_ForallPairs;
      [|apply NoDup_filter; now apply ur_join_r_NoDup].
    intros [ur r] [ur' r'] Hp Hq E. cbn [fst snd] in E.
    apply filter_In in Hp. destruct Hp as (Hp & Hu).
    apply filter_In in Hq. destruct Hq as (Hq & Hu').
    apply in_ur_join_r in Hp. destruct Hp as (Hur & Hr & Hid).
    apply in_ur_join_r in Hq. destruct Hq as (Hur' & Hr' & Hid').
    apply sql_eq_true in Hu. apply sql_eq_true in Hu'. cbn [fst] in Hu, Hu'.
    assert (Er : r = r') by (eapply role_name_unique; eassumption).
    subst r'. f_equal.
    eapply assignment_key_unique; [exact Hpk | assumption | assumption |].
    unfold ur_key. f_equal; congruence. }
  split; apply Hset.
Qed.

Lemma rolesFor_has_no_duplicates_witness :
  NoDup (rolesFor Sample.db "u3").
Proof.
  destruct (@rolesFor_has_no_duplicates Sample.db None "u3") as [_ H].
  - vm_compute. repeat constructor; simpl; intuition discriminate.
  - vm_compute. repeat constructor; simpl; intuition discriminate.
  - vm_compute. repeat constructor; simpl; intuition discriminate.
  - exact H.
Defined.

(* ================================================================= *)
(** ** The component after a removal, and its filter *)

(** X23: A super admin removing, through the component, a catalog role a user
    holds: the handler announces the removal, the user no longer holds the
    role in the store, and the refreshed listing no longer shows it under
    that user. *)
Theorem handleRemoveRole_success
        (s : session) (rst : RmState) (I N : string) (w : World) :
  faults w = [] ->
  rm_roles rst = roles (store w) ->
  NoDup (map r_name (roles (store w))) ->
  NoDup (map r_id (roles (store w))) ->
  can_manage_roles (store w) s = true ->
  In N (rolesFor (store w) I) ->
  let rst' := fst (fst (handleRemoveRole s rst I N w)) in
  let w' := snd (handleRemoveRole s rst I N w) in
  snd (fst (handleRemoveRole s rst I N w)) = ["Role removed successfully!"]
  /\ ~ In N (rolesFor (store w') I)
  /\ rm_users rst' = listing (store w') s
  /\ ~ In N (listed_roles (rm_users rst') I).
Proof.
  intros Hf Hrst Hnames Hids Hcm Hheld.
  destruct (named_catalog _ N Hnames (held_in_catalog _ _ _ Hheld)) as [r Hn].
  destruct (named_single _ _ Hn) as (Hr & Hname & Huniq).
  assert (Hfind : find (fun r0 => String.eqb (r_name r0) N) (roles (store w))
                  = Some r).
  { destruct (find (fun r0 => String.eqb (r_name r0) N) (roles (store w)))
      as [r0|] eqn:E.
    - apply find_some in E. destruct E as (Hin & E).
      apply String.eqb_eq in E. now rewrite (Huniq r0 Hin E).
    - apply (find_none _ _ E) in Hr.
      rewrite Hname, String.eqb_refl in Hr. discriminate. }
  set (db1 := deleted (store w) s I (r_id r)).
  assert (Hgone : ~ In N (rolesFor db1 I)).
  { intros H. apply (held_iff_key _ I _ (r := r)) in H; [|exact Hn].
    unfold db1 in H. rewrite deleted_free in H by assumption.
    discriminate. }
  assert (Hrun : handleRemoveRole s rst I N w
                 = (mk_rm (rm_roles rst) (listing db1 s),
                    ["Role removed successfully!"],
                    mk_world db1 (clock w) [])).
  { unfold handleRemoveRole. rewrite Hrst, Hfind. unfold bind.
    rewrite delete_user_role_no_fault by assumption.
    rewrite fetchUsersWithRoles_run by reflexivity. reflexivity. }
  cbv zeta. rewrite Hrun. cbn [fst snd store rm_users].
  repeat split; try assumption.
  intros Hlisted. apply Hgone.
  destruct (listing_spec db1 s) as (_ & _ & Hroles & _).
  apply Hroles in Hlisted.
  destruct Hlisted as (_ & ur & r0 & H1 & _ & H3 & Hf0 & H5).
  apply find_some in Hf0. destruct Hf0 as (Hr0 & Hid0).
  apply String.eqb_eq in Hid0. apply in_rolesFor. exists ur, r0. auto.
Qed.

Lemma handleRemoveRole_success_witness :
  snd (fst (handleRemoveRole (Some Sample.root) (mk_rm Sample.catalog [])
                             "u3" "mantra_curator" Sample.world))
  = ["Role removed successfully!"]
  /\ ~ In "mantra_curator"
         (rolesFor (store (snd (handleRemoveRole (Some Sample.root)
                                  (mk_rm Sample.catalog []) "u3"
                                  "mantra_curator" Sample.world))) "u3").
Proof.
  destruct (@handleRemoveRole_success (Some Sample.root)
              (mk_rm Sample.catalog []) "u3" "mantra_curator" Sample.world)
    as (Halert & Hgone & _).
  - reflexivity.
  - reflexivity.
  - vm_compute. repeat constructor; simpl; intuition discriminate.
  - vm_compute. repeat constructor; simpl; intuition discriminate.
  - reflexivity.
  - vm_compute. auto.
  - split; assumption.
Defined.

(** X24: The role filter of the page, with an empty search: it shows every user
    when "all" is selected; with a role selected it shows, in a super admin's
    listing, exactly the identities that hold that role in the store (a role
    named "all" cannot be selected that way). *)
Theorem filteredUsers_by_role
        (toLowerCase : string -> string) (s : session) (db : Db)
        (selectedRole : string) :
  filteredUsers toLowerCase (listing db s) "" "all" = listing db s
  /\ (selectedRole <> "all" -> selectedRole <> "" ->
      can_manage_roles db s = true ->
      NoDup (map r_id (roles db)) ->
      forall I,
        In I (map uw_id (filteredUsers toLowerCase (listing db s) ""
                                       selectedRole))
        <-> In selectedRole (rolesFor db I)).
Proof.
  split.
  - unfold filteredUsers. apply filter_keeps_all. reflexivity.
  - intros Hall Hne Hcm Hids I.
    apply String.eqb_neq in Hall.
    destruct (listing_spec db s) as (Hnd & _).
    assert (Hshown : forall u,
              In u (filteredUsers toLowerCase (listing db s) "" selectedRole)
              <-> In u (listing db s) /\ In selectedRole (uw_roles u)).
    { intros u. unfold filteredUsers. rewrite filter_In.
      cbv zeta. rewrite String.eqb_refl, Hall. cbn [orb andb].
      now rewrite includes_In. }
    assert (Hlisted : forall N,
              In N (listed_roles (listing db s) I) <->
              exists u, In u (listing db s) /\ uw_id u = I /\ In N (uw_roles u)).
    { intros N. unfold listed_roles. rewrite in_flat_map.
      split; intros (u & Hu & H); exists u.
      - destruct (String.eqb (uw_id u) I) eqn:E; [|contradiction].
        apply String.eqb_eq in E. auto.
      - destruct H as (<- & H). rewrite String.eqb_refl. auto. }
    rewrite in_map_iff. split.
    + intros (u & Hid & Hu). apply Hshown in Hu. destruct Hu as (Hu & Hrole).
      apply (listing_for_manager db s I selectedRole Hcm Hids).
      apply Hlisted. eauto.
    + intros Hheld.
      assert (H : In selectedRole (listed_roles (listing db s) I))
        by (apply listing_for_manager; auto).
      apply Hlisted in H. destruct H as (u & Hu & Hid & Hrole).
      exists u. split; [assumption|]. apply Hshown. auto.
Qed.

Lemma filteredUsers_by_role_witness :
  In "u3" (map uw_id (filteredUsers (fun x => x)
                        (listing Sample.db (Some Sample.root)) ""
                        "mantra_curator"))
  <-> In "mantra_curator" (rolesFor Sample.db "u3").
Proof.
  destruct (@filteredUsers_by_role (fun x => x) (Some Sample.root) Sample.db
              "mantra_curator") as [_ H].
  apply H.
  - discriminate.
  - discriminate.
  - reflexivity.
  - vm_compute. repeat constructor; simpl; intuition discriminate.
Defined.

(* ================================================================= *)
(** ** The hook while a request is in flight *)

(** [fetchUserRoles] is its two halves run back to back. *)
Lemma fetchUserRoles_in_two_steps (user : session) (st : HookState) (w : World) :
  fetchUserRoles user st w
  = (fetch_settled (fetch_started st) (fst (rpc_get_user_roles user w)),
     snd (rpc_get_user_roles user w)).
Proof.
  unfold fetchUserRoles, bind.
  destruct (rpc_get_user_roles user w) as [[data|err] w']; reflexivity.
Qed.

(** With nothing in flight, a change of user followed by the arrival of the
    response is the effect run to completion. *)
Lemma hook_run_is_useEffect_user (u0 user : session) (st : HookState)
      (w : World) :
  let evs := match user with
             | Some _ => [UserChanged user; ResponseArrived]
             | None => [UserChanged user]
             end in
  hook_run (mk_mounted u0 st [], w) evs
  = (mk_mounted user (fst (useEffect_user user st w)) [],
     snd (useEffect_user user st w)).
Proof.
  destruct user as [u|]; cbn [hook_run fold_left hook_step m_state m_in_flight
                              m_user app useEffect_user].
  - rewrite fetchUserRoles_in_two_steps.
    destruct (rpc_get_user_roles (Some u) w) as [resp w']. reflexivity.
  - reflexivity.
Qed.

(** With nothing in flight when the user goes away, the role list is empty
    and stays empty until the user changes again. *)
Lemma sign_out_with_nothing_in_flight (u0 : session) (st : HookState)
      (w : World) (n : nat) :
  let h := fst (hook_run (mk_mounted u0 st [], w)
                         (UserChanged None :: repeat ResponseArrived n)) in
  m_user h = None /\ st_roles (m_state h) = [].
Proof.
  cbn [hook_run fold_left hook_step m_state m_in_flight].
  induction n as [|n IH]; [split; reflexivity | exact IH].
Qed.

(** C10: the guard of the effect empties the role list when [user] becomes
    null, but a fetch started for the previous user is not cancelled.  A
    super admin signs in, the effect starts the fetch; the user signs out
    before the response arrives, the effect empties the role list; then the
    response arrives and its continuation sets the roles of the previous
    user: [user] is null and [hasRole], [hasAnyRole], [isAdmin] and
    [isSuperAdmin] all answer true. *)
Theorem C10_stale_response_after_sign_out :
  let mounted := (mk_mounted None initial_state [], Sample.world) in
  let signed_out :=
    fst (hook_run mounted [UserChanged (Some Sample.root); UserChanged None]) in
  let h :=
    fst (hook_run mounted [UserChanged (Some Sample.root); UserChanged None;
                           ResponseArrived]) in
  (m_user signed_out = None /\ st_roles (m_state signed_out) = [])
  /\ m_user h = None
  /\ m_in_flight h = []
  /\ st_roles (m_state h) = ["super_admin"]
  /\ hasRole (m_state h) "super_admin" = true
  /\ hasAnyRole (m_state h) ["admin"; "super_admin"] = true
  /\ isAdmin (m_state h) = true
  /\ isSuperAdmin (m_state h) = true.
Proof.
  cbv zeta. unfold hook_run.
  cbn [fold_left hook_step m_state m_in_flight m_user app].
  repeat split.
Qed.
